(** * keyhole: index statistics (mdb/index_stats.go)

    A shallow embedding of the index inventory code of keyhole: the
    normalisation of raw index definitions ([KeyString], [Fields],
    [EffectiveKey]), the duplicate detection pass ([checkIfDupped] and the
    loop that calls it), the collection routine
    [GetIndexesFromCollection] with its logging and error paths, and the
    file-name gate of [SetClusterDetailsFromFile].

    Around it: the inventory of a database and of a cluster
    ([GetIndexesFromDB], [GetIndexes]), the report ([PrintIndexesOf]),
    the file names and the snapshot ([NewIndexStats], [SetFilename],
    [OutputBSON], [OutputJSON]), and [filterTimeSeriesData] of package
    charts.

    Go strings are byte strings and are modelled by [string]; Go [int]
    values that are subtracted or compared are modelled in [Z]. A run-time
    panic is an outcome of its own, never an error value. *)

From Stdlib Require Import Bool List Arith ZArith Lia.
From Stdlib Require Import Ascii String.
From Stdlib Require Import Permutation Sorted.
From Stdlib Require OrderedTypeEx.
Import ListNotations.

Local Open Scope string_scope.
Local Open Scope list_scope.

(** ** The part of Go's [strings] package and string syntax the code uses *)

Module GoStrings.

(** [len(s)] as a Go int. *)
Definition len (s : string) : Z := Z.of_nat (String.length s).

(** [s[lo:hi]]: the bounds [0 <= lo <= hi <= len(s)] are checked at run
    time; [None] stands for the slice-bounds panic. *)
Definition slice (s : string) (lo hi : Z) : option string :=
  if (0 <=? lo)%Z && (lo <=? hi)%Z && (hi <=? len s)%Z
  then Some (substring (Z.to_nat lo) (Z.to_nat (hi - lo)) s)
  else None.

(** [strings.HasSuffix(s, suffix)]:
    [len(s) >= len(suffix) && s[len(s)-len(suffix):] == suffix]. *)
Definition HasSuffix (s suffix : string) : bool :=
  (String.length suffix <=? String.length s)%nat &&
  String.eqb
    (substring (String.length s - String.length suffix)
               (String.length suffix) s)
    suffix.

(** Scanner behind [strings.Replace(s, old, new, -1)] for a non-empty
    [old]: left to right, every non-overlapping occurrence of [old] is
    replaced by [new]. [skip] counts the bytes of the occurrence just
    replaced that are still to be passed over. *)
Fixpoint replaceFrom (old new : string) (skip : nat) (s : string) : string :=
  match s with
  | EmptyString => EmptyString
  | String c rest =>
      match skip with
      | S k => replaceFrom old new k rest
      | O =>
          if prefix old s
          then (new ++ replaceFrom old new (String.length old - 1) rest)%string
          else String c (replaceFrom old new 0 rest)
      end
  end.

(** [strings.Replace(s, old, new, -1)]; [old == new] returns [s] as it is.
    Both call sites pass a non-empty [old]. *)
Definition ReplaceAll (s old new : string) : string :=
  if String.eqb old new then s else replaceFrom old new 0 s.

(** [a < b] on Go strings: byte-wise lexicographic order. *)
Definition less (a b : string) : bool := String.ltb a b.

End GoStrings.

Import GoStrings.

(** ** Run-time outcomes: a result with the lines written so far, or a panic *)

Definition error := string.

Inductive PanicKind :=
| SliceBoundsOutOfRange
| IndexOutOfRange.

(** What the code writes or touches besides its results. *)
Inductive Event :=
| LogPrintln (args : list string)      (* log.Println(args...) *)
| LoggerAdd (line : string)            (* ix.Logger.Add(line) *)
| OpenFile (filename : string)         (* gox.NewFileReader(filename) *)
| ReadAllBytes                         (* ioutil.ReadAll(fd) *)
| UnmarshalBSON.                       (* bson.Unmarshal(data, &ix) *)

Inductive Outcome (A : Type) :=
| Return (a : A) (out : list Event)
| Panic (k : PanicKind).

Arguments Return {A} a out.
Arguments Panic {A} k.

Definition ret {A} (a : A) : Outcome A := Return a [].

Definition bind {A B} (m : Outcome A) (f : A -> Outcome B) : Outcome B :=
  match m with
  | Panic k => Panic k
  | Return a out1 =>
      match f a with
      | Panic k => Panic k
      | Return b out2 => Return b (out1 ++ out2)
      end
  end.

Definition emit (e : Event) : Outcome unit := Return tt [e].

Definition panic {A} (k : PanicKind) : Outcome A := Panic k.

Declare Scope go_scope.
Delimit Scope go_scope with go.
Notation "x <- m ;; k" := (bind m (fun x => k))
  (at level 61, m at next level, right associativity) : go_scope.
Notation "m ;;; k" := (bind m (fun _ => k))
  (at level 61, right associativity) : go_scope.
Local Open Scope go_scope.

Definition when (b : bool) (m : Outcome unit) : Outcome unit :=
  if b then m else ret tt.

(** ** sort.Slice

    The sort is the Go library's; it is not stable. The code relies on its
    contract only: the slice is permuted, and for a [less] that is a strict
    weak ordering no element is less than one placed before it. *)

Record StrictWeakOrder {A} (less : A -> A -> bool) : Prop := {
  swo_irrefl : forall a, less a a = false;
  swo_trans : forall a b c, less a b = true -> less b c = true -> less a c = true;
  swo_neg_trans : forall a b c, less a b = false -> less b c = false -> less a c = false
}.

Class GoSort := {
  sort_Slice : forall {A}, (A -> A -> bool) -> list A -> list A;
  sort_Slice_permutes : forall A (less : A -> A -> bool) l,
      Permutation l (sort_Slice less l);
  sort_Slice_sorts : forall A (less : A -> A -> bool),
      StrictWeakOrder less ->
      forall l, Sorted (fun a b => less b a = false) (sort_Slice less l)
}.

(** One sort that meets the contract (insertion sort), to run the model. *)
Fixpoint insertBy {A} (less : A -> A -> bool) (x : A) (l : list A) : list A :=
  match l with
  | [] => [x]
  | y :: l' => if less x y then x :: y :: l' else y :: insertBy less x l'
  end.

Fixpoint insertionSort {A} (less : A -> A -> bool) (l : list A) : list A :=
  match l with
  | [] => []
  | x :: l' => insertBy less x (insertionSort less l')
  end.

(** ** fmt.Sprint on the values of a key specification

    A [bson.E] carries an [interface{}] value; [fmt.Sprint] renders it by
    its dynamic type. The value type is a parameter with its rendering. *)

Class Sprinter (V : Type) := Sprint : V -> string.

(** Key values as they occur in index definitions: a direction or another
    integer, or an index kind such as ["text"] or ["2dsphere"]. *)
Inductive KeyValue :=
| VInt (n : Z)
| VString (s : string).

Definition digit (n : nat) : ascii := ascii_of_nat (48 + n).

Fixpoint decimalFrom (fuel : nat) (n : nat) (acc : string) : string :=
  match fuel with
  | O => acc
  | S fuel' =>
      let acc' := String (digit (n mod 10)) acc in
      if (n <? 10)%nat then acc' else decimalFrom fuel' (n / 10) acc'
  end.

Definition decimal (z : Z) : string :=
  let n := Z.abs_nat z in
  let digits := decimalFrom (S n) n "" in
  if (z <? 0)%Z then String "-" digits else digits.

#[export] Instance KeyValue_Sprinter : Sprinter KeyValue :=
  fun v => match v with VInt n => decimal n | VString s => s end.

(** ** bson.D *)

Module bson.
Record E (V : Type) := mkE { Key : string; Value : V }.
Arguments mkE {V} Key Value.
Arguments Key {V} e.
Arguments Value {V} e.
(** A nil [bson.D] and an empty one are both the empty list: the code
    modelled here only ranges over documents. *)
Definition D (V : Type) := list (E V).
End bson.

(** ** Data model (index_stats.go, lines 26-81) *)

(** Go [int] is 64 bits wide here; additions wrap. *)
Definition wrapInt (z : Z) : Z := ((z + 2 ^ 63) mod 2 ^ 64 - 2 ^ 63)%Z.

(** [time.Time], kept as an instant in Unix milliseconds. *)
Definition Time := Z.

Record Accesses := mkAccesses {
  Ops : Z;
  Since : Time
}.

Module IndexUsage.
Record t := mk {
  Accesses : Accesses;
  Host : string;
  Name : string;
  Shard : string
}.
End IndexUsage.

Module mongo.
(** A collection handle: [collection.Database().Name()] and
    [collection.Name()]. *)
Record Collection := mkCollection {
  DatabaseName : string;
  CollectionName : string
}.
End mongo.

Section Model.

Context {V : Type} `{SV : Sprinter V}.

Record Index := mkIndex {
  Background : bool;
  Collation : bson.D V;
  ExpireAfterSeconds : Z;
  Key : bson.D V;
  Name : string;
  PartialFilterExpression : bson.D V;
  Sparse : bool;
  Unique : bool;
  Version : Z;

  EffectiveKey : string;
  Fields : list string;
  IsDupped : bool;
  IsShardKey : bool;
  KeyString : string;
  TotalOps : Z;
  Usage : list IndexUsage.t
}.

Definition setFields (o : Index) (f : list string) : Index :=
  mkIndex (Background o) (Collation o) (ExpireAfterSeconds o) (Key o) (Name o)
    (PartialFilterExpression o) (Sparse o) (Unique o) (Version o)
    (EffectiveKey o) f (IsDupped o) (IsShardKey o) (KeyString o)
    (TotalOps o) (Usage o).

Definition setKeyString (o : Index) (s : string) : Index :=
  mkIndex (Background o) (Collation o) (ExpireAfterSeconds o) (Key o) (Name o)
    (PartialFilterExpression o) (Sparse o) (Unique o) (Version o)
    (EffectiveKey o) (Fields o) (IsDupped o) (IsShardKey o) s
    (TotalOps o) (Usage o).

Definition setIsShardKey (o : Index) (b : bool) : Index :=
  mkIndex (Background o) (Collation o) (ExpireAfterSeconds o) (Key o) (Name o)
    (PartialFilterExpression o) (Sparse o) (Unique o) (Version o)
    (EffectiveKey o) (Fields o) (IsDupped o) b (KeyString o)
    (TotalOps o) (Usage o).

Definition setEffectiveKey (o : Index) (s : string) : Index :=
  mkIndex (Background o) (Collation o) (ExpireAfterSeconds o) (Key o) (Name o)
    (PartialFilterExpression o) (Sparse o) (Unique o) (Version o)
    s (Fields o) (IsDupped o) (IsShardKey o) (KeyString o)
    (TotalOps o) (Usage o).

Definition setTotalOps (o : Index) (n : Z) : Index :=
  mkIndex (Background o) (Collation o) (ExpireAfterSeconds o) (Key o) (Name o)
    (PartialFilterExpression o) (Sparse o) (Unique o) (Version o)
    (EffectiveKey o) (Fields o) (IsDupped o) (IsShardKey o) (KeyString o)
    n (Usage o).

Definition setUsage (o : Index) (u : list IndexUsage.t) : Index :=
  mkIndex (Background o) (Collation o) (ExpireAfterSeconds o) (Key o) (Name o)
    (PartialFilterExpression o) (Sparse o) (Unique o) (Version o)
    (EffectiveKey o) (Fields o) (IsDupped o) (IsShardKey o) (KeyString o)
    (TotalOps o) u.

Definition setIsDupped (o : Index) (b : bool) : Index :=
  mkIndex (Background o) (Collation o) (ExpireAfterSeconds o) (Key o) (Name o)
    (PartialFilterExpression o) (Sparse o) (Unique o) (Version o)
    (EffectiveKey o) (Fields o) b (IsShardKey o) (KeyString o)
    (TotalOps o) (Usage o).

(** [list[i] = f(list[i])] for an [i] in range; out of range the slice is
    left as it is (the loops below only write at indices they read). *)
Fixpoint updateAt {A} (i : nat) (f : A -> A) (l : list A) : list A :=
  match l, i with
  | [], _ => []
  | x :: l', O => f x :: l'
  | x :: l', S i' => x :: updateAt i' f l'
  end.

(** What [listIndexes] reports for one index and [icur.Decode(&o)] stores
    into [o := Index{}]: the index specification. The annotation fields
    of [Index] are not part of an index definition and stay zero. *)
Record IndexSpec := mkSpec {
  specBackground : bool;
  specCollation : bson.D V;
  specExpireAfterSeconds : Z;
  specKey : bson.D V;
  specName : string;
  specPartialFilterExpression : bson.D V;
  specSparse : bool;
  specUnique : bool;
  specVersion : Z
}.

Definition decodeIndex (d : IndexSpec) : Index :=
  mkIndex (specBackground d) (specCollation d) (specExpireAfterSeconds d)
    (specKey d) (specName d) (specPartialFilterExpression d) (specSparse d)
    (specUnique d) (specVersion d) "" [] false false "" 0 [].

(** ** The cluster as the collector sees it *)

(** The answers of the cluster to the read-only requests of the collector.
    A cursor is the list of its documents, each with the result of
    decoding it. *)
Record Client := mkClient {
  (* config.shards CountDocuments: the count and the error *)
  CountShards : Z * option error;
  (* collection.Aggregate with the $indexStats pipeline *)
  Aggregate : mongo.Collection -> error + list (error + IndexUsage.t);
  (* RunCommandCursor listIndexes on database db, collection name *)
  ListIndexes : string -> string -> error + list (error + IndexSpec);
  (* config.collections FindOne {_id: ns, key: key}: whether err == nil *)
  FindShardKey : string -> bson.D V -> bool
}.

(** GetShardsCount (lines 474-480): the error is dropped. *)
Definition GetShardsCount (client : Client) : Z := fst (CountShards client).

(** ** Normalisation (lines 242-257): [Fields] and [KeyString] *)

(** The body of [for n, value := range o.Key], on the pair
    [(fields, strbuf)]; [total] is [len(o.Key)]. *)
Definition keyStep (total : Z) (n : Z) (value : bson.E V)
    (st : list string * string) : list string * string :=
  let '(fields, strbuf) := st in
  let fields := fields ++ [bson.Key value] in
  let strbuf := if (n =? 0)%Z then (strbuf ++ "{ ")%string else strbuf in
  let strbuf := (strbuf ++ (bson.Key value ++ ": " ++ Sprint (bson.Value value)))%string in
  let strbuf := if (n =? total - 1)%Z then (strbuf ++ " }")%string
                else (strbuf ++ ", ")%string in
  (fields, strbuf).

Fixpoint keyLoop (total : Z) (n : Z) (key : bson.D V)
    (st : list string * string) : list string * string :=
  match key with
  | [] => st
  | value :: rest => keyLoop total (n + 1) rest (keyStep total n value st)
  end.

Definition renderKey (key : bson.D V) : list string * string :=
  keyLoop (Z.of_nat (List.length key)) 0 key ([], "").

(** Lines 269-275: the usage records of this index, by name. *)
Definition usageStep (o : Index) (result : IndexUsage.t) : Index :=
  if String.eqb (IndexUsage.Name result) (Name o)
  then setUsage (setTotalOps o (wrapInt (TotalOps o + Ops (IndexUsage.Accesses result))))
                (Usage o ++ [result])
  else o.

Definition mergeUsage (o : Index) (indexStats : list IndexUsage.t) : Index :=
  fold_left usageStep indexStats (setUsage o []).

(** Lines 242-276, for one decoded index [o]: the normalised index, or the
    panic of the slice expression. *)
Definition normalize (client : Client) (verbose : bool) (ns : string)
    (indexStats : list IndexUsage.t) (o : Index) : Outcome Index :=
  let '(fields, strbuf) := renderKey (Key o) in
  let o := setFields o fields in
  let o := setKeyString o strbuf in
  when verbose (emit (LogPrintln ["GetIndexesFromCollection"; ns; KeyString o])) ;;;
  let o := if FindShardKey client ns (Key o) then setIsShardKey o true else o in
  match slice (KeyString o) 2 (len (KeyString o) - 2) with
  | None => panic SliceBoundsOutOfRange
  | Some inner =>
      let o := setEffectiveKey o (ReplaceAll inner ": -1" ": 1") in
      ret (mergeUsage o indexStats)
  end.

(** Lines 235-277: the loop over the [listIndexes] cursor. A document
    that does not decode is logged and skipped. *)
Fixpoint indexLoop (client : Client) (verbose : bool) (ns : string)
    (indexStats : list IndexUsage.t)
    (cursor : list (error + IndexSpec)) (lst : list Index)
    : Outcome (list Index) :=
  match cursor with
  | [] => ret lst
  | inl err :: rest =>
      emit (LogPrintln [err]) ;;;
      indexLoop client verbose ns indexStats rest lst
  | inr doc :: rest =>
      o <- normalize client verbose ns indexStats (decodeIndex doc) ;;
      indexLoop client verbose ns indexStats rest (lst ++ [o])
  end.

(** Lines 217-224: the loop over the [$indexStats] cursor. *)
Fixpoint statsLoop (cursor : list (error + IndexUsage.t))
    (indexStats : list IndexUsage.t) : Outcome (list IndexUsage.t) :=
  match cursor with
  | [] => ret indexStats
  | inl err :: rest => emit (LogPrintln [err]) ;;; statsLoop rest indexStats
  | inr result :: rest => statsLoop rest (indexStats ++ [result])
  end.

(** ** checkIfDupped (lines 291-313) *)

(** The inner loop [for j, field := range o.Fields]: whether it reaches
    [nmatched++; break]. *)
Fixpoint matchesAt (fld : string) (j : nat) (fields : list string) : bool :=
  match fields with
  | [] => false
  | field :: rest =>
      if (0 <? j)%nat && String.eqb fld field then true
      else matchesAt fld (S j) rest
  end.

(** The loop [for i, fld := range doc.Fields], started at index [i] with
    the counter at [nmatched]. *)
Fixpoint countMatched (i : nat) (docFields oFields : list string)
    (nmatched : Z) : Z :=
  match docFields with
  | [] => nmatched
  | fld :: rest =>
      if (i =? 0)%nat then countMatched (S i) rest oFields nmatched
      else countMatched (S i) rest oFields
             (if matchesAt fld 0 oFields then (nmatched + 1)%Z else nmatched)
  end.

(** [x[0]] on a slice of strings. *)
Definition first (x : list string) : Outcome string :=
  match x with
  | [] => panic IndexOutOfRange
  | f :: _ => ret f
  end.

Definition lenFields (x : list string) : Z := Z.of_nat (List.length x).

Fixpoint checkIfDupped (doc : Index) (lst : list Index) : Outcome bool :=
  match lst with
  | [] => ret false
  | o :: rest =>
      (* the condition, && evaluated left to right *)
      cond <-
        (if negb (IsDupped o) then
           d0 <- first (Fields doc) ;;
           o0 <- first (Fields o) ;;
           ret (String.eqb d0 o0
                && negb (String.eqb (KeyString doc) (KeyString o))
                && (lenFields (Fields o) >=? lenFields (Fields doc))%Z)
         else ret false) ;;
      if cond then
        let nmatched := countMatched 0 (Fields doc) (Fields o) 0 in
        if (nmatched =? lenFields (Fields doc) - 1)%Z then ret true
        else checkIfDupped doc rest
      else checkIfDupped doc rest
  end.

(** ** The duplicate pass (lines 279-286) *)

Definition exempt (o : Index) : bool :=
  String.eqb (KeyString o) "{ _id: 1 }" || IsShardKey o.

(** The body of [for i, o := range list] at index [i], on the current
    contents of the slice. *)
Definition flagStep (shardCount : Z) (i : nat) (lst : list Index)
    : Outcome (list Index) :=
  match nth_error lst i with
  | None => ret lst
  | Some o =>
      if negb (String.eqb (KeyString o) "{ _id: 1 }") && negb (IsShardKey o)
      then
        b <- checkIfDupped o lst ;;
        let lst := updateAt i (fun x => setIsDupped x b) lst in
        when (match nth_error lst i with
              | Some x => (Z.of_nat (List.length (Usage x)) <? shardCount)%Z
              | None => false
              end)
             (emit (LogPrintln [EffectiveKey o])) ;;;
        ret lst
      else ret lst
  end.

Fixpoint flagFrom (shardCount : Z) (indices : list nat) (lst : list Index)
    : Outcome (list Index) :=
  match indices with
  | [] => ret lst
  | i :: rest =>
      lst <- flagStep shardCount i lst ;;
      flagFrom shardCount rest lst
  end.

Definition flagLoop (shardCount : Z) (lst : list Index)
    : Outcome (list Index) :=
  flagFrom shardCount (seq 0 (List.length lst)) lst.

(** ** GetIndexesFromCollection (lines 199-288) *)

Definition lessEffectiveKey (a b : Index) : bool :=
  less (EffectiveKey a) (EffectiveKey b).

Context `{GS : GoSort}.

Definition GetIndexesFromCollection (verbose : bool) (client : Client)
    (collection : mongo.Collection)
    : Outcome (list Index * option error) :=
  let shardCount := GetShardsCount client in
  let db := mongo.DatabaseName collection in
  emit (LoggerAdd ("GetIndexesFromCollection from " ++ db ++ "."
                   ++ mongo.CollectionName collection)%string) ;;;
  indexStats <-
    match Aggregate client collection with
    | inl err => emit (LogPrintln [err]) ;;; ret []
    | inr scur => statsLoop scur []
    end ;;
  match ListIndexes client db (mongo.CollectionName collection) with
  | inl err => emit (LogPrintln [err]) ;;; ret ([], Some err)
  | inr icur =>
      let ns := (mongo.DatabaseName collection ++ "."
                 ++ mongo.CollectionName collection)%string in
      lst <- indexLoop client verbose ns indexStats icur [] ;;
      let lst := sort_Slice lessEffectiveKey lst in
      lst <- flagLoop shardCount lst ;;
      ret (lst, None)
  end.

End Model.

Arguments Index V : clear implicits.
Arguments IndexSpec V : clear implicits.
Arguments Client V : clear implicits.

(** ** The snapshot and its loader (lines 26-35 and 96-111) *)

Module Collection.
(** Used as [Collection{NS: ..., Name: ...}] with its [Indexes]
    (lines 190-191). *)
Record t (V : Type) := mk {
  NS : string;
  Name : string;
  Indexes : list (Index V)
}.
End Collection.

Module Database.
(** Used as [Database{Name: ..., Collections: ...}] (line 148). *)
Record t (V : Type) := mk {
  Name : string;
  Collections : list (Collection.t V)
}.
End Database.

(** Modelled from the spec: the [Logger] type of package mdb is declared
    outside index_stats.go; the snapshot "carries provenance metadata", and
    the code here only stores the pointer and calls [Add]. It is kept as
    the version, the parameters and the lines added. *)
Record Logger := mkLogger {
  LoggerVersion : string;
  LoggerParams : string;
  LoggerLines : list string
}.

Record IndexStats (V : Type) := mkIndexStats {
  Databases : list (Database.t V);
  Logger_ : Logger;
  filename : string;
  nocolor : bool;
  verbose : bool;
  version : string
}.

Arguments Databases {V} i.
Arguments Logger_ {V} i.
Arguments filename {V} i.
Arguments nocolor {V} i.
Arguments verbose {V} i.
Arguments version {V} i.

(** A [*bufio.Reader] as [ioutil.ReadAll] sees it: the bytes it yields and
    the error it ends with, if any. *)
Definition Reader := (list Byte.byte * option error)%type.

(** The file system and the BSON decoder, as the loader uses them.
    [Unmarshal data ix] is [bson.Unmarshal(data, &ix)]: the receiver after
    the call, and the error. *)
Record Files (V : Type) := mkFiles {
  NewFileReader : string -> error + Reader;
  Unmarshal : list Byte.byte -> IndexStats V -> IndexStats V * option error
}.

Arguments NewFileReader {V} f.
Arguments Unmarshal {V} f.

Definition SetClusterDetailsFromFile {V} (fs : Files V) (ix : IndexStats V)
    (filename : string) : Outcome (IndexStats V * option error) :=
  if Bool.eqb (HasSuffix filename "-index.bson.gz") false
     && Bool.eqb (HasSuffix filename "-stats.bson.gz") false
  then ret (ix, Some "unsupported file type")
  else
    emit (OpenFile filename) ;;;
    match NewFileReader fs filename with
    | inl err => ret (ix, Some err)
    | inr fd =>
        emit ReadAllBytes ;;;
        match fd with
        | (_, Some err) => ret (ix, Some err)
        | (data, None) =>
            emit UnmarshalBSON ;;;
            ret (Unmarshal fs data ix)
        end
    end.

(** GetIndexesFromCollection as a method of [ix]: [ix.verbose] is read. *)
Definition IndexStats_GetIndexesFromCollection {V} `{Sprinter V} `{GoSort}
    (ix : IndexStats V) (client : Client V) (collection : mongo.Collection)
    : Outcome (list (Index V) * option error) :=
  GetIndexesFromCollection (verbose ix) client collection.

(** * The rest of index_stats.go *)

(** [strings.HasPrefix(s, prefix)]:
    [len(s) >= len(prefix) && s[:len(prefix)] == prefix]. *)
Definition HasPrefix (s prefix : string) : bool :=
  (String.length prefix <=? String.length s)%nat &&
  String.eqb (substring 0 (String.length prefix) s) prefix.

(** ** Constructor and setters (lines 83-93 and 113-121) *)

(** NewIndexStats. [hostname] is what [os.Hostname()] returns (its error
    is dropped) and [logger] is [NewLogger(version, "-index")], a function
    declared outside index_stats.go. *)
Definition NewIndexStats {V} (hostname : string) (logger : Logger)
    (version : string) : IndexStats V :=
  mkIndexStats V [] logger (hostname ++ "-index.bson.gz") false false version.

Definition SetFilename {V} (ix : IndexStats V) (filename : string) : IndexStats V :=
  mkIndexStats V (Databases ix) (Logger_ ix) (ReplaceAll filename ":" "_")
    (nocolor ix) (verbose ix) (version ix).

Definition SetNoColor {V} (ix : IndexStats V) (nocolor : bool) : IndexStats V :=
  mkIndexStats V (Databases ix) (Logger_ ix) (filename ix) nocolor (verbose ix)
    (version ix).

Definition SetVerbose {V} (ix : IndexStats V) (verbose : bool) : IndexStats V :=
  mkIndexStats V (Databases ix) (Logger_ ix) (filename ix) (nocolor ix) verbose
    (version ix).

(** [ix.Databases = databases]. *)
Definition setDatabases {V} (ix : IndexStats V) (databases : list (Database.t V))
    : IndexStats V :=
  mkIndexStats V databases (Logger_ ix) (filename ix) (nocolor ix) (verbose ix)
    (version ix).

(** ** Outcomes with standard output and files *)

(** What the functions below write: the log and logger lines of the
    collector, lines on standard output, directories and files. *)
Inductive Output :=
| Logged (e : Event)
| FmtPrintln (args : list string)                        (* fmt.Println(args...) *)
| Mkdir (dir : string)                                   (* os.Mkdir(dir, 0755) *)
| WriteGzipped (file : string) (data : list Byte.byte)   (* gox.OutputGzipped(data, file) *)
| WriteFile (file : string) (data : list Byte.byte).     (* ioutil.WriteFile(file, data, 0644) *)

Inductive Run (A : Type) :=
| Done (a : A) (out : list Output)
| Crash (k : PanicKind).

Arguments Done {A} a out.
Arguments Crash {A} k.

Definition done {A} (a : A) : Run A := Done a [].

Definition andThen {A B} (m : Run A) (f : A -> Run B) : Run B :=
  match m with
  | Crash k => Crash k
  | Done a out1 =>
      match f a with
      | Crash k => Crash k
      | Done b out2 => Done b (out1 ++ out2)
      end
  end.

Definition say (o : Output) : Run unit := Done tt [o].

(** A call of the collector or of the loader from the functions below. *)
Definition lift {A} (m : Outcome A) : Run A :=
  match m with
  | Return a out => Done a (map Logged out)
  | Panic k => Crash k
  end.

Declare Scope run_scope.
Delimit Scope run_scope with run.
Notation "x <-- m ;; k" := (andThen m (fun x => k))
  (at level 61, m at next level, right associativity) : run_scope.
Notation "m >>> k" := (andThen m (fun _ => k))
  (at level 61, right associativity) : run_scope.
Local Open Scope run_scope.

Definition sayWhen (b : bool) (o : Output) : Run unit :=
  if b then say o else done tt.

(** ** The cluster as the inventory sees it *)

(** The struct decoded from a document of the ListCollections cursor. *)
Record CollectionInfo := mkCollectionInfo {
  infoName : string;
  infoType : string
}.

(** [mongo.DatabaseSpecification], an element of [result.Databases]. *)
Record DatabaseSpecification := mkDatabaseSpecification {
  specDatabaseName : string;
  specSizeOnDisk : Z;
  specEmpty : bool
}.

Record Cluster (V : Type) := mkCluster {
  Mongo : Client V;
  (* client.Database(db).ListCollections *)
  ListCollections : string -> error + list (error + CollectionInfo);
  (* client.ListDatabases: result.Databases, or the error *)
  ListDatabases : error + list DatabaseSpecification
}.

Arguments Mongo {V} c.
Arguments ListCollections {V} c.
Arguments ListDatabases {V} c.

(** ListDatabaseNames (lines 459-471). *)
Definition ListDatabaseNames {V} (cluster : Cluster V) : list string * option error :=
  match ListDatabases cluster with
  | inl err => ([], Some err)
  | inr databases => (map specDatabaseName databases, None)
  end.

Section Inventory.

Context {V : Type} `{SV : Sprinter V} `{GS : GoSort}.

(** ** GetIndexesFromDB (lines 157-197) *)

(** Lines 171-186: the loop over the ListCollections cursor. A document
    that does not decode is passed over without a word. *)
Fixpoint namesLoop (verbose : bool) (cursor : list (error + CollectionInfo))
    (collectionNames : list string) : Run (list string) :=
  match cursor with
  | [] => done collectionNames
  | inl _ :: rest => namesLoop verbose rest collectionNames
  | inr elem :: rest =>
      if HasPrefix (infoName elem) "system."
         || negb (String.eqb (infoType elem) "collection")
      then
        sayWhen (Bool.eqb verbose true) (Logged (LogPrintln ["skip"; infoName elem])) >>>
        namesLoop verbose rest collectionNames
      else namesLoop verbose rest (collectionNames ++ [infoName elem])
  end.

(** Lines 189-195: the loop over the sorted names. *)
Fixpoint collectionsLoop (ix : IndexStats V) (cluster : Cluster V) (db : string)
    (names : list string) (collections : list (Collection.t V))
    : Run (list (Collection.t V) * option error) :=
  match names with
  | [] => done (collections, None)
  | v :: rest =>
      r <-- lift (GetIndexesFromCollection (verbose ix) (Mongo cluster)
                    (mongo.mkCollection db v)) ;;
      match r with
      | (_, Some err) => done (collections, Some err)
      | (indexes, None) =>
          collectionsLoop ix cluster db rest
            (collections ++ [Collection.mk V (db ++ "." ++ v)%string v indexes])
      end
  end.

Definition GetIndexesFromDB (ix : IndexStats V) (cluster : Cluster V) (db : string)
    : Run (list (Collection.t V) * option error) :=
  sayWhen (verbose ix) (FmtPrintln ["GetIndexesFromDB()"; db]) >>>
  match ListCollections cluster db with
  | inl err => done ([], Some err)
  | inr cur =>
      collectionNames <-- namesLoop (verbose ix) cur [] ;;
      (* sort.Strings(collectionNames) *)
      let collectionNames := sort_Slice less collectionNames in
      collectionsLoop ix cluster db collectionNames []
  end.

(** ** GetIndexes (lines 123-155) *)

Definition skipped (name : string) : bool :=
  String.eqb name "admin" || String.eqb name "config" || String.eqb name "local".

(** Lines 134-149: the loop over the database names, on [ix] and [cnt]. *)
Fixpoint databasesLoop (ix : IndexStats V) (cluster : Cluster V)
    (dbNames : list string) (cnt : Z)
    : Run (IndexStats V * Z * option error) :=
  match dbNames with
  | [] => done (ix, cnt, None)
  | name :: rest =>
      if skipped name then
        sayWhen (Bool.eqb (verbose ix) true) (Logged (LogPrintln ["Skip"; name])) >>>
        databasesLoop ix cluster rest cnt
      else
        let cnt := wrapInt (cnt + 1) in
        sayWhen (Bool.eqb (verbose ix) true) (Logged (LogPrintln ["checking"; name])) >>>
        r <-- GetIndexesFromDB ix cluster name ;;
        match r with
        | (_, Some err) => done (ix, cnt, Some err)
        | (collections, None) =>
            databasesLoop
              (setDatabases ix (Databases ix ++ [Database.mk V name collections]))
              cluster rest cnt
        end
  end.

(** GetIndexes: the receiver after the call, the slice returned and the
    error. *)
Definition GetIndexes (ix : IndexStats V) (cluster : Cluster V)
    : Run (IndexStats V * list (Database.t V) * option error) :=
  let ix := setDatabases ix [] in
  match ListDatabaseNames cluster with
  | (_, Some err) => done (ix, [], Some err)
  | (dbNames, None) =>
      r <-- databasesLoop ix cluster dbNames 0 ;;
      match r with
      | (ix, _, Some err) => done (ix, Databases ix, Some err)
      | (ix, cnt, None) =>
          sayWhen ((cnt =? 0)%Z && Bool.eqb (verbose ix) true)
            (Logged (LogPrintln ["No database is available"])) >>>
          say (Logged (LoggerAdd "GetIndexes ends")) >>>
          done (ix, Databases ix, None)
      end
  end.

End Inventory.

(** ** PrintIndexesOf (lines 351-400) *)

(** The colour codes [codeDefault], [codeRed] and [codeBlue]: constants of
    package mdb declared outside index_stats.go. *)
Record Codes := mkCodes {
  codeDefault : string;
  codeRed : string;
  codeBlue : string
}.

Definition newline : string := String (ascii_of_nat 10) EmptyString.
Definition tab : string := String (ascii_of_nat 9) EmptyString.

Section Report.

Context {V : Type}.

Variable codes : Codes.

(** [fmt.Sprintf("%v", t)] on a [time.Time]. *)
Variable formatTime : Time -> string.

(** Lines 392-394: what is written for one usage record. *)
Definition usageText (u : IndexUsage.t) : string :=
  newline ++ tab ++ "host: " ++ IndexUsage.Host u ++ ", ops: "
  ++ decimal (Ops (IndexUsage.Accesses u)) ++ ", since: "
  ++ formatTime (Since (IndexUsage.Accesses u)).

(** Lines 368-390: the annotated key of one index. *)
Definition keyText (nocolor : bool) (o : Index V) : string :=
  let font := codeDefault codes in
  let tailCode := codeDefault codes in
  let font := if nocolor then EmptyString else font in
  let tailCode := if nocolor then EmptyString else tailCode in
  if String.eqb (KeyString o) "{ _id: 1 }" then
    font ++ "  " ++ KeyString o ++ tailCode
  else if Bool.eqb (IsShardKey o) true then
    font ++ "* " ++ KeyString o ++ tailCode
  else if Bool.eqb (IsDupped o) true then
    let font := if Bool.eqb nocolor false then codeRed codes else font in
    font ++ "x " ++ KeyString o ++ tailCode
  else if (TotalOps o =? 0)%Z then
    let font := if Bool.eqb nocolor false then codeBlue codes else font in
    font ++ "? " ++ KeyString o ++ tailCode
  else
    "  " ++ KeyString o.

(** Lines 367-396: what is written for one index. *)
Definition indexText (nocolor : bool) (o : Index V) : string :=
  (keyText nocolor o
   ++ fold_left (fun buffer u => buffer ++ usageText u) (Usage o) EmptyString
   ++ newline)%string.

(** Lines 362-397: the text printed for one collection. *)
Definition collectionText (nocolor : bool) (coll : Collection.t V) : string :=
  fold_left (fun buffer o => (buffer ++ indexText nocolor o)%string)
    (Collection.Indexes V coll)
    (newline ++ Collection.NS V coll ++ ":" ++ newline)%string.

Definition PrintIndexesOf (ix : IndexStats V) (databases : list (Database.t V))
    : Run unit :=
  fold_left
    (fun run db =>
       fold_left
         (fun run coll =>
            run >>> say (FmtPrintln [collectionText (nocolor ix) coll]))
         (Database.Collections V db) run)
    databases (done tt).

(** Print (lines 351-356). *)
Definition Print (ix : IndexStats V) : Run unit :=
  PrintIndexesOf ix (Databases ix).

End Report.

(** ** OutputBSON and OutputJSON (lines 315-349) *)

(** The encoders and the file writer. [Remarshal buf] stands for
    [bson.Unmarshal(buf, &bsond)], whose error is dropped, followed by
    [bson.Marshal(bsond)]; [OutputGzipped] is the error of
    [gox.OutputGzipped]; [Base] is [filepath.Base]. The error of
    [ioutil.WriteFile] is dropped by the code. *)
Record Encoders (V : Type) := mkEncoders {
  Marshal : IndexStats V -> error + list Byte.byte;
  Remarshal : list Byte.byte -> error + list Byte.byte;
  MarshalExtJSON : IndexStats V -> error + list Byte.byte;
  OutputGzipped : list Byte.byte -> string -> option error;
  Base : string -> string
}.

Arguments Marshal {V} e.
Arguments Remarshal {V} e.
Arguments MarshalExtJSON {V} e.
Arguments OutputGzipped {V} e.
Arguments Base {V} e.

Definition OutputBSON {V} (enc : Encoders V) (ix : IndexStats V) : Run (option error) :=
  match Marshal enc ix with
  | inl err => done (Some err)
  | inr buf =>
      match Remarshal enc buf with
      | inl err => done (Some err)
      | inr buf =>
          let outdir := "./out/"%string in
          say (Mkdir outdir) >>>
          let ofile := (outdir ++ filename ix)%string in
          say (WriteGzipped ofile buf) >>>
          match OutputGzipped enc buf ofile with
          | None =>
              say (FmtPrintln ["Index stats is written to"; ofile]) >>> done None
          | Some err => done (Some err)
          end
      end
  end.

Definition OutputJSON {V} (enc : Encoders V) (ix : IndexStats V) : Run (option error) :=
  match MarshalExtJSON enc ix with
  | inl err => done (Some err)
  | inr data =>
      let outdir := "./out/"%string in
      say (Mkdir outdir) >>>
      let ofile := (outdir ++ ReplaceAll (Base enc (filename ix)) "bson.gz" "json")%string in
      say (WriteFile ofile data) >>>
      say (FmtPrintln ["json data written to"; ofile]) >>>
      done None
  end.

(** * Package charts: filterTimeSeriesData (part_000, lines 126-151) *)

Module charts.

(** [time.Time] as an instant, in nanoseconds since the Unix epoch:
    [After] and [Before] compare instants. *)
Definition Instant := Z.

(** [int64(time.Millisecond)]. *)
Definition Millisecond : Z := 1000000.

Section TimeSeries.

(** [float64], and the conversion [int64(x)], which discards the
    fraction and is left to the platform out of range. *)
Context {float64 : Type}.
Variable toInt64 : float64 -> Z.

(** [TimeSeriesDoc], declared elsewhere in package charts; the function
    uses its fields Target and DataPoints. *)
Record TimeSeriesDoc := mkTimeSeriesDoc {
  Target : string;
  DataPoints : list (list float64)
}.

(** [time.Unix(0, int64(v[1])*int64(time.Millisecond))]. *)
Definition instantOf (v : list float64) : Outcome Instant :=
  match nth_error v 1 with
  | None => panic IndexOutOfRange
  | Some x => ret (wrapInt (toInt64 x * Millisecond))
  end.

(** Lines 129-135: the loop that keeps the points of the window. *)
Fixpoint windowLoop (points : list (list float64)) (from to : Instant)
    (kept : list (list float64)) : Outcome (list (list float64)) :=
  match points with
  | [] => ret kept
  | v :: rest =>
      tm <- instantOf v ;;
      if (to <? tm)%Z || (tm <? from)%Z        (* tm.After(to) || tm.Before(from) *)
      then windowLoop rest from to kept
      else windowLoop rest from to (kept ++ [v])
  end.

(** Lines 142-147: the loop that keeps one point in [frac], from index
    [i] on. *)
Fixpoint thinLoop (i : nat) (frac : Z) (points kept : list (list float64))
    : list (list float64) :=
  match points with
  | [] => kept
  | v :: rest =>
      if negb (Z.rem (Z.of_nat i) frac =? 0)%Z
      then thinLoop (S i) frac rest kept
      else thinLoop (S i) frac rest (kept ++ [v])
  end.

Definition filterTimeSeriesData (tsData : TimeSeriesDoc) (from to : Instant)
    : Outcome TimeSeriesDoc :=
  points <- windowLoop (DataPoints tsData) from to [] ;;
  let data := mkTimeSeriesDoc (Target tsData) points in
  let max := 500%Z in
  if (Z.of_nat (List.length (DataPoints data)) >? max)%Z then
    let frac := Z.quot (Z.of_nat (List.length (DataPoints data))) max in
    let datax := mkTimeSeriesDoc (Target tsData)
                   (thinLoop 0 frac (DataPoints data) []) in
    ret datax
  else ret data.

End TimeSeries.

Arguments TimeSeriesDoc float64 : clear implicits.
Arguments mkTimeSeriesDoc {float64} Target DataPoints.

End charts.

(** * The vocabulary of the statements *)

(** ** Strings with directions *)

(** [strings.Replace(s, ": -1", ": 1", -1)]. *)
Definition ascending (s : string) : string := ReplaceAll s ": -1" ": 1".

Fixpoint dropStr (k : nat) (s : string) : string :=
  match k, s with
  | O, _ => s
  | S _, EmptyString => EmptyString
  | S k', String _ s' => dropStr k' s'
  end.

(** A byte that is none of the last three of [": -1"]: no occurrence
    runs across it. *)
Definition separator (c : ascii) : Prop :=
  c <> " "%char /\ c <> "-"%char /\ c <> "1"%char.

Section Vocabulary.

Context {V : Type} `{SV : Sprinter V} `{GS : GoSort}.

Abbreviation Index := (Index V).
Abbreviation IndexSpec := (IndexSpec V).
Abbreviation Client := (Client V).

(** One component of a key specification as it is written to the buffer. *)
Definition entry (e : bson.E V) : string :=
  bson.Key e ++ ": " ++ Sprint (bson.Value e).

(** [f1: d1, f2: d2, ...]: the components joined by [", "]. *)
Definition keyBody (key : bson.D V) : string :=
  String.concat ", " (map entry key).

Fixpoint tailString (key : bson.D V) : string :=
  match key with
  | [] => ""
  | e :: rest =>
      entry e ++ match rest with [] => " }" | _ :: _ => ", " ++ tailString rest end
  end.

(** [o] covers [doc]: same first field, another key string, at least as
    many fields, and every field of [doc] but the first at a non-first
    position of [o]. *)
Definition covers (doc o : Index) : Prop :=
  (exists f, nth_error (Fields doc) 0 = Some f /\ nth_error (Fields o) 0 = Some f)
  /\ KeyString o <> KeyString doc
  /\ (List.length (Fields doc) <= List.length (Fields o))%nat
  /\ (forall k f, (1 <= k)%nat -> nth_error (Fields doc) k = Some f ->
        exists m, (1 <= m)%nat /\ nth_error (Fields o) m = Some f).

Definition coversb (doc o : Index) : bool :=
  match Fields doc, Fields o with
  | d0 :: dt, o0 :: ot =>
      String.eqb d0 o0
      && negb (String.eqb (KeyString doc) (KeyString o))
      && (List.length (Fields doc) <=? List.length (Fields o))%nat
      && forallb (fun f => existsb (String.eqb f) ot) dt
  | _, _ => false
  end.

Definition nonEmptyFields (o : Index) : Prop := Fields o <> [].

(** Whether some index of [lst] that is not flagged covers [doc]. *)
Definition coveredIn (doc : Index) (lst : list Index) : bool :=
  existsb (fun o => negb (IsDupped o) && coversb doc o) lst.

(** What the loop body leaves at the index it examines, given the slice
    [st] as it is then. *)
Definition flagOne (st : list Index) (o : Index) : Index :=
  if exempt o then o else setIsDupped o (coveredIn o st).

(** The pass with the examined prefix [done] and the rest [todo]. *)
Fixpoint pass (done todo : list Index) : list Index :=
  match todo with
  | [] => done
  | o :: rest => pass (done ++ [flagOne (done ++ todo) o]) rest
  end.

(** The slice as the loop over [S0] finds it when it reaches index [i]:
    the indexes before [i] as the pass leaves them, the others as they
    were. *)
Definition sliceAt (S0 : list Index) (i : nat) : list Index :=
  firstn i (pass [] S0) ++ skipn i S0.

(** [k] covers [d] but for the key string: same first field, at least as
    many fields, and the trailing fields of [d] among those of [k]. *)
Definition subsumes (d k : Index) : Prop :=
  (exists f, nth_error (Fields d) 0 = Some f /\ nth_error (Fields k) 0 = Some f)
  /\ (List.length (Fields d) <= List.length (Fields k))%nat
  /\ (forall n f, (1 <= n)%nat -> nth_error (Fields d) n = Some f ->
        exists m, (1 <= m)%nat /\ nth_error (Fields k) m = Some f).

(** A cursor item that normalisation can take: it failed to decode, or
    its key specification has a component. *)
Definition keyNonEmpty (item : error + IndexSpec) : Prop :=
  match item with
  | inl _ => True
  | inr d => specKey d <> []
  end.

Definition keyEmpty (item : error + IndexSpec) : Prop :=
  exists d, item = inr d /\ specKey d = [].

(** The documents of a cursor that decode. *)
Fixpoint decoded {A} (cursor : list (error + A)) : list A :=
  match cursor with
  | [] => []
  | inl _ :: rest => decoded rest
  | inr d :: rest => d :: decoded rest
  end.

(** The usage records the collector ends up with. *)
Definition usageOf (client : Client) (collection : mongo.Collection)
    : list IndexUsage.t :=
  match Aggregate client collection with
  | inl _ => []
  | inr scur => decoded scur
  end.

(** The normalised form of a decoded index with a non-empty key, in the
    three stages of the code: rendering, shard-key mark, usage merge. *)
Definition rendered (o : Index) : Index :=
  setKeyString (setFields o (map bson.Key (Key o)))
    ("{ " ++ keyBody (Key o) ++ " }")%string.

Definition marked (client : Client) (ns : string) (o : Index) : Index :=
  if FindShardKey client ns (Key o) then setIsShardKey o true else o.

Definition normalized (client : Client) (ns : string)
    (indexStats : list IndexUsage.t) (o : Index) : Index :=
  mergeUsage
    (setEffectiveKey (marked client ns (rendered o))
       (ReplaceAll (keyBody (Key o)) ": -1" ": 1"))
    indexStats.

(** The normalised indexes of a cursor, in the order of the cursor. *)
Definition normalizedOf (client : Client) (collection : mongo.Collection)
    (icur : list (error + IndexSpec)) : list Index :=
  map (fun d => normalized client
                  (mongo.DatabaseName collection ++ "."
                   ++ mongo.CollectionName collection)%string
                  (usageOf client collection) (decodeIndex d))
      (decoded icur).

(** The slice the duplicate pass starts from. *)
Definition sortedOf (client : Client) (collection : mongo.Collection)
    (icur : list (error + IndexSpec)) : list Index :=
  sort_Slice lessEffectiveKey (normalizedOf client collection icur).

(** The lines the usage query leaves in the log. *)
Definition usagePhase (client : Client) (collection : mongo.Collection)
    : Outcome (list IndexUsage.t) :=
  match Aggregate client collection with
  | inl err => emit (LogPrintln [err]) ;;; ret []
  | inr scur => statsLoop scur []
  end.

(** Two key components on the same field whose values are written alike,
    or as [1] and [-1]. *)
Definition sameButDirection (e e' : bson.E V) : Prop :=
  bson.Key e = bson.Key e'
  /\ (Sprint (bson.Value e) = Sprint (bson.Value e')
      \/ (Sprint (bson.Value e) = "1" /\ Sprint (bson.Value e') = "-1")
      \/ (Sprint (bson.Value e) = "-1" /\ Sprint (bson.Value e') = "1")).

Definition directions (key : bson.D V) : list string :=
  map (fun e => Sprint (bson.Value e)) key.


End Vocabulary.

(** * More vocabulary *)

(** The index specification an [Index] carries. *)
Definition specOf {V} (o : Index V) : IndexSpec V :=
  mkSpec (Background o) (Collation o) (ExpireAfterSeconds o) (Key o) (Name o)
    (PartialFilterExpression o) (Sparse o) (Unique o) (Version o).

(** The usage records that carry the name [name], in their order. *)
Definition usageNamed (name : string) (stats : list IndexUsage.t) : list IndexUsage.t :=
  filter (fun u => String.eqb (IndexUsage.Name u) name) stats.

(** The operations counted by a list of usage records, as an integer. *)
Definition sumOps (l : list IndexUsage.t) : Z :=
  fold_right (fun u acc => (Ops (IndexUsage.Accesses u) + acc)%Z) 0%Z l.

(** The byte SetFilename puts for [c]. *)
Definition underscore (c : ascii) : ascii :=
  if Ascii.eqb c ":" then "_"%char else c.

Fixpoint mapString (g : ascii -> ascii) (s : string) : string :=
  match s with
  | EmptyString => EmptyString
  | String c rest => String (g c) (mapString g rest)
  end.

(** Neither [":"] nor ["_"] occurs in [s]. *)
Fixpoint plain (s : string) : bool :=
  match s with
  | EmptyString => true
  | String c rest => negb (Ascii.eqb c ":") && negb (Ascii.eqb c "_") && plain rest
  end.

(** The strings of [l] written one after the other. *)
Definition joined (l : list string) : string := fold_right append EmptyString l.

(** A document of the ListCollections cursor that names a collection to
    inventory. *)
Definition regular (elem : CollectionInfo) : bool :=
  negb (HasPrefix (infoName elem) "system."
        || negb (String.eqb (infoType elem) "collection")).

(** The names GetIndexesFromDB gathers from a cursor, before sorting. *)
Definition collectionNamesOf (cursor : list (error + CollectionInfo)) : list string :=
  map infoName (filter regular (decoded cursor)).

(** The command listIndexes answers for collection [v] of [db] with
    index definitions that all have a key. *)
Definition listable {V} (client : Client V) (db v : string) : Prop :=
  exists icur, ListIndexes client db v = inr icur /\ Forall keyNonEmpty icur.

(** The collections of [db] can be listed, and each one to inventory is
    [listable]. *)
Definition inventoried {V} (cluster : Cluster V) (db : string) : Prop :=
  exists cursor,
    ListCollections cluster db = inr cursor
    /\ forall v, In v (collectionNamesOf cursor) -> listable (Mongo cluster) db v.

(** The names GetIndexes does not pass over. *)
Definition unskipped (names : list string) : list string :=
  filter (fun n => negb (skipped n)) names.

(** The fields of the receiver that the inventory leaves alone. *)
Definition settings {V} (ix : IndexStats V) : Logger * string * bool * bool * string :=
  (Logger_ ix, filename ix, nocolor ix, verbose ix, version ix).

(** A data point with a time stamp: it has a second coordinate. *)
Definition stamped {float64} (v : list float64) : Prop := (2 <= List.length v)%nat.

(** The point [v] has a time stamp, and it lies in the window. *)
Definition inWindow {float64} (toInt64 : float64 -> Z) (from to : charts.Instant)
    (v : list float64) : bool :=
  match nth_error v 1 with
  | None => false
  | Some x =>
      let tm := wrapInt (toInt64 x * charts.Millisecond) in
      (from <=? tm)%Z && (tm <=? to)%Z
  end.

(** The points of a series that lie in the window, in their order. *)
Definition windowOf {float64} (toInt64 : float64 -> Z) (from to : charts.Instant)
    (tsData : charts.TimeSeriesDoc float64) : list (list float64) :=
  filter (inWindow toInt64 from to) (charts.DataPoints tsData).

(** * Sample collections *)

Module Sample.

(** An index definition with integer directions and no option set. *)
Definition spec (name : string) (key : list (string * Z)) : IndexSpec KeyValue :=
  mkSpec false [] 0 (map (fun p => bson.mkE (fst p) (VInt (snd p))) key)
    name [] false false 2.

Definition orders : mongo.Collection := mongo.mkCollection "shop" "orders".

(** A cluster of one shard that lists [cursor] for every collection and
    has as usage records the answer [usage]. *)
Definition cluster (usage : error + list (error + IndexUsage.t))
    (cursor : error + list (error + IndexSpec KeyValue)) : Client KeyValue :=
  mkClient (1%Z, None) (fun _ => usage) (fun _ _ => cursor) (fun _ _ => false).

(** [{_id:1}], [{a:1}], [{a:1,b:1}]. *)
Definition cursorA : list (error + IndexSpec KeyValue) :=
  [inr (spec "_id_" [("_id", 1%Z)]);
   inr (spec "a_1" [("a", 1%Z)]);
   inr (spec "a_1_b_1" [("a", 1%Z); ("b", 1%Z)])].

(** [{a:1,b:1}], [{b:1,a:1}]. *)
Definition cursorB : list (error + IndexSpec KeyValue) :=
  [inr (spec "a_1_b_1" [("a", 1%Z); ("b", 1%Z)]);
   inr (spec "b_1_a_1" [("b", 1%Z); ("a", 1%Z)])].

(** [{a:1,b:1,c:1}], [{a:1,c:1}]. *)
Definition cursorC : list (error + IndexSpec KeyValue) :=
  [inr (spec "a_1_b_1_c_1" [("a", 1%Z); ("b", 1%Z); ("c", 1%Z)]);
   inr (spec "a_1_c_1" [("a", 1%Z); ("c", 1%Z)])].

(** Two indexes with different names on the same key [{a:1}]. *)
Definition cursorTwins : list (error + IndexSpec KeyValue) :=
  [inr (spec "a_1" [("a", 1%Z)]);
   inr (spec "a_1_again" [("a", 1%Z)])].

(** The twins and [{a:1,b:1}]. *)
Definition cursorTwinsCovered : list (error + IndexSpec KeyValue) :=
  [inr (spec "a_1" [("a", 1%Z)]);
   inr (spec "a_1_again" [("a", 1%Z)]);
   inr (spec "a_1_b_1" [("a", 1%Z); ("b", 1%Z)])].

(** An index whose key specification is empty, after a sound one. *)
Definition cursorEmptyKey : list (error + IndexSpec KeyValue) :=
  [inr (spec "a_1" [("a", 1%Z)]); inr (spec "none" [])].

Definition noStats : error + list (error + IndexUsage.t) := inr [].

Definition summary (l : list (Index KeyValue)) : list (string * string * bool) :=
  map (fun o => (KeyString o, EffectiveKey o, IsDupped o)) l.

Definition returned (r : Outcome (list (Index KeyValue) * option error))
    : option (list (string * string * bool) * option error) :=
  match r with
  | Return (l, e) _ => Some (summary l, e)
  | Panic _ => None
  end.

(** [{a:1,b:1}] and [{a:1,b:-1}]: each covers the other; the one examined
    first is flagged and the other one is left. *)
Definition cursorMirror : list (error + IndexSpec KeyValue) :=
  [inr (spec "a_1_b_1" [("a", 1%Z); ("b", 1%Z)]);
   inr (spec "a_1_b_-1" [("a", 1%Z); ("b", (-1)%Z)])].

Definition usageFails : error + list (error + IndexUsage.t) :=
  inl "not authorized to run $indexStats".


Definition up_up : IndexSpec KeyValue := spec "a_1_b_1" [("a", 1%Z); ("b", 1%Z)].
Definition up_down : IndexSpec KeyValue := spec "a_1_b_-1" [("a", 1%Z); ("b", (-1)%Z)].

Definition noFiles : Files KeyValue :=
  mkFiles _ (fun _ => inl "no such file or directory"%string)
    (fun _ ix => (ix, None)).

Definition emptyStats : IndexStats KeyValue :=
  mkIndexStats _ [] (mkLogger "self-built" "-index" []) "host-index.bson.gz"
    false false "self-built".

End Sample.

(** * Sample clusters *)

Module Holdings.

Import Sample.

(** The index definitions of [cursorA] around a document that does not
    decode. *)
Definition cursorTorn : list (error + IndexSpec KeyValue) :=
  [inr (spec "_id_" [("_id", 1%Z)]);
   inl "cannot decode";
   inr (spec "a_1" [("a", 1%Z)]);
   inr (spec "a_1_b_1" [("a", 1%Z); ("b", 1%Z)])].

(** Usage records of two hosts for [a_1], one for [_id_], none for
    [a_1_b_1]. *)
Definition twoHosts : error + list (error + IndexUsage.t) :=
  inr [inr (IndexUsage.mk (mkAccesses 5%Z 0%Z) "host1:27017" "a_1" "shard0");
       inr (IndexUsage.mk (mkAccesses 40%Z 0%Z) "host1:27017" "_id_" "shard0");
       inr (IndexUsage.mk (mkAccesses 7%Z 0%Z) "host2:27017" "a_1" "shard0")].

(** An index as normalisation renders it, before the duplicate pass. *)
Definition rendering (name : string) (key : list (string * Z)) : Index KeyValue :=
  rendered (decodeIndex (spec name key)).

(** The collections of database shop, as ListCollections gives them: two
    collections, a document that does not decode, a system collection
    and a view. *)
Definition shopCollections : list (error + CollectionInfo) :=
  [inr (mkCollectionInfo "orders" "collection");
   inl "cannot decode";
   inr (mkCollectionInfo "system.views" "collection");
   inr (mkCollectionInfo "recent" "view");
   inr (mkCollectionInfo "customers" "collection")].

Definition listed : list DatabaseSpecification :=
  [mkDatabaseSpecification "admin" 40960%Z false;
   mkDatabaseSpecification "shop" 81920%Z false;
   mkDatabaseSpecification "local" 40960%Z false;
   mkDatabaseSpecification "blog" 81920%Z false].

(** A cluster whose databases other than [closed] hold the collections of
    [shopCollections], each with the indexes [indexesOf] gives for its
    name. *)
Definition holding (closed : string)
    (indexesOf : string -> error + list (error + IndexSpec KeyValue))
    : Cluster KeyValue :=
  mkCluster KeyValue
    (mkClient (1%Z, None) (fun _ => noStats) (fun _ v => indexesOf v)
       (fun _ _ => false))
    (fun db => if String.eqb db closed then inl ("not authorized on " ++ db)%string
               else inr shopCollections)
    (inr listed).

Definition sound (v : string) : error + list (error + IndexSpec KeyValue) :=
  inr cursorA.

(** The indexes of orders cannot be listed. *)
Definition ordersDenied (v : string) : error + list (error + IndexSpec KeyValue) :=
  if String.eqb v "orders" then inl "not authorized" else inr cursorA.

(** Collection orders has an index definition without a key. *)
Definition ordersKeyless (v : string) : error + list (error + IndexSpec KeyValue) :=
  if String.eqb v "orders" then inr cursorEmptyKey else inr cursorA.

(** A receiver that holds a database from an earlier call. *)
Definition stale : IndexStats KeyValue :=
  mkIndexStats _ [Database.mk _ "old" []] (mkLogger "self-built" "-index" [])
    "host-index.bson.gz" false false "self-built".

Definition quiet : IndexStats KeyValue :=
  mkIndexStats _ [] (mkLogger "self-built" "-index" [])
    "host-index.bson.gz" true false "self-built".

(** A series of three points stamped 1 s, 2 s and 3 s, in milliseconds,
    with integers for [float64]. *)
Definition cpu : charts.TimeSeriesDoc Z :=
  charts.mkTimeSeriesDoc "cpu" [[10%Z; 1000%Z]; [20%Z; 2000%Z]; [30%Z; 3000%Z]].

(** A series with a point that has no time stamp. *)
Definition torn : charts.TimeSeriesDoc Z :=
  charts.mkTimeSeriesDoc "cpu" [[10%Z; 1000%Z]; [20%Z]].

(** [n] points stamped 0 ms, 1 ms, ... *)
Definition ramp (n : nat) : charts.TimeSeriesDoc Z :=
  charts.mkTimeSeriesDoc "cpu" (map (fun k => [0%Z; Z.of_nat k]) (seq 0 n)).

(** The number of points returned for a series, in a window that holds
    the first ten seconds. *)
Definition returnedPoints (tsData : charts.TimeSeriesDoc Z) : option nat :=
  match charts.filterTimeSeriesData (fun x => x) tsData 0%Z 10000000000%Z with
  | Return data _ => Some (List.length (charts.DataPoints data))
  | Panic _ => None
  end.

(** The names of the databases and of their collections. *)
Definition inventoryNames (dbs : list (Database.t KeyValue))
    : list (string * list string) :=
  map (fun d => (Database.Name _ d,
                 map (Collection.Name _) (Database.Collections _ d))) dbs.

End Holdings.

(** * Properties *)

(** ** Insertion sort meets the contract of sort.Slice *)

Section InsertionSort.

Variable A : Type.
Variable less : A -> A -> bool.

Let notAfter (a b : A) : Prop := less b a = false.

Lemma insertBy_permutes x l : Permutation (x :: l) (insertBy less x l).
Proof.
  induction l as [|y l IH]; simpl.
  - apply Permutation_refl.
  - destruct (less x y).
    + apply Permutation_refl.
    + eapply perm_trans; [apply perm_swap|].
      now apply perm_skip.
Qed.

Lemma insertionSort_permutes l : Permutation l (insertionSort less l).
Proof.
  induction l as [|x l IH]; simpl.
  - constructor.
  - eapply perm_trans; [apply perm_skip, IH|].
    apply insertBy_permutes.
Qed.

Hypothesis order : StrictWeakOrder less.

Lemma less_asym a b : less a b = true -> less b a = false.
Proof.
  intros Hab. destruct (less b a) eqn:Hba; [|reflexivity].
  pose proof (swo_trans less order a b a Hab Hba) as Haa.
  rewrite (swo_irrefl less order a) in Haa. discriminate.
Qed.

Lemma insertBy_HdRel a x l :
  notAfter a x -> HdRel notAfter a l -> HdRel notAfter a (insertBy less x l).
Proof.
  intros Hax Hal. destruct l as [|y l]; simpl.
  - now constructor.
  - destruct (less x y); constructor; auto.
    now inversion Hal.
Qed.

Lemma insertBy_sorted x l :
  Sorted notAfter l -> Sorted notAfter (insertBy less x l).
Proof.
  induction 1 as [|y l Hs IH Hhd]; simpl.
  - repeat constructor.
  - destruct (less x y) eqn:Hxy.
    + constructor; [now constructor|].
      constructor. now apply less_asym.
    + constructor; [exact IH|].
      apply insertBy_HdRel; [exact Hxy|exact Hhd].
Qed.

Lemma insertionSort_sorted l : Sorted notAfter (insertionSort less l).
Proof.
  induction l as [|x l IH]; simpl.
  - constructor.
  - now apply insertBy_sorted.
Qed.

End InsertionSort.

#[export] Instance InsertionGoSort : GoSort := {|
  sort_Slice := @insertionSort;
  sort_Slice_permutes := insertionSort_permutes;
  sort_Slice_sorts := insertionSort_sorted
|}.

(** ** Outcomes *)

Lemma bind_Return_inv {A B} (m : Outcome A) (f : A -> Outcome B) b out :
  bind m f = Return b out ->
  exists a out1 out2,
    m = Return a out1 /\ f a = Return b out2 /\ out = out1 ++ out2.
Proof.
  unfold bind. destruct m as [a out1|k]; [|discriminate].
  destruct (f a) as [b' out2|k] eqn:Hf; [|discriminate].
  intros H. inversion H; subst. now exists a, out1, out2.
Qed.

Lemma bind_ret_l {A B} (a : A) (f : A -> Outcome B) : bind (ret a) f = f a.
Proof. unfold bind, ret. now destruct (f a). Qed.

Lemma bind_Return {A B} (m : Outcome A) (f : A -> Outcome B) a out1 b out2 :
  m = Return a out1 -> f a = Return b out2 ->
  bind m f = Return b (out1 ++ out2).
Proof. intros -> Hf. simpl. now rewrite Hf. Qed.

Lemma bind_Panic {A B} (m : Outcome A) (f : A -> Outcome B) k :
  m = Panic k -> bind m f = Panic k.
Proof. now intros ->. Qed.

Lemma bind_Return_Panic {A B} (m : Outcome A) (f : A -> Outcome B) a out k :
  m = Return a out -> f a = Panic k -> bind m f = Panic k.
Proof. intros -> Hf. simpl. now rewrite Hf. Qed.

(** ** Strings *)

Section StringFacts.

Local Open Scope string_scope.

Lemma append_assoc (a b c : string) : (a ++ b) ++ c = a ++ (b ++ c).
Proof. induction a as [|x a IH]; simpl; [reflexivity|now rewrite IH]. Qed.

Lemma append_nil_r (a : string) : a ++ "" = a.
Proof. induction a as [|x a IH]; simpl; [reflexivity|now rewrite IH]. Qed.

Lemma length_append (a b : string) :
  String.length (a ++ b) = (String.length a + String.length b)%nat.
Proof. induction a as [|x a IH]; simpl; [reflexivity|now rewrite IH]. Qed.

Lemma append_inv_head (a b c : string) : a ++ b = a ++ c -> b = c.
Proof.
  induction a as [|x a IH]; simpl; intros H; [exact H|].
  inversion H. auto.
Qed.

Lemma substring_0_append (a b : string) :
  substring 0 (String.length a) (a ++ b) = a.
Proof.
  induction a as [|x a IH]; simpl.
  - now destruct b.
  - now rewrite IH.
Qed.

Lemma substring_skip_append (a b : string) n :
  substring (String.length a) n (a ++ b) = substring 0 n b.
Proof. induction a as [|x a IH]; simpl; [reflexivity|exact IH]. Qed.

End StringFacts.

(** ** Normalisation in closed form *)

Section Normalisation.

Context {V : Type} `{SV : Sprinter V}.

Local Open Scope string_scope.

Lemma tailString_body (key : bson.D V) :
  key <> [] -> tailString key = keyBody key ++ " }".
Proof.
  unfold keyBody.
  induction key as [|e rest IH]; intros Hne; [congruence|].
  destruct rest as [|e' rest'].
  - reflexivity.
  - change (tailString (e :: e' :: rest'))
      with (entry e ++ ", " ++ tailString (e' :: rest')).
    rewrite IH by discriminate.
    simpl map. simpl String.concat.
    now rewrite !append_assoc.
Qed.

Lemma keyLoop_tail (key : bson.D V) : forall total n fields buf,
  (0 < n)%Z -> (total = n + Z.of_nat (List.length key))%Z ->
  keyLoop total n key (fields, buf)
  = ((fields ++ map bson.Key key)%list, buf ++ tailString key).
Proof.
  induction key as [|e rest IH]; intros total n fields buf Hn Htot.
  - simpl. now rewrite app_nil_r, append_nil_r.
  - cbn [keyLoop keyStep].
    replace (n =? 0)%Z with false by (symmetry; apply Z.eqb_neq; lia).
    destruct rest as [|e' rest'].
    + replace (n =? total - 1)%Z with true
        by (symmetry; apply Z.eqb_eq; simpl in Htot; lia).
      simpl. unfold entry. now rewrite !append_assoc.
    + replace (n =? total - 1)%Z with false
        by (symmetry; apply Z.eqb_neq; simpl List.length in Htot; lia).
      rewrite IH; [|lia|simpl List.length in *; lia].
      f_equal.
      * now rewrite <- app_assoc.
      * change (tailString (e :: e' :: rest'))
          with (entry e ++ ", " ++ tailString (e' :: rest')).
        unfold entry. now rewrite !append_assoc.
Qed.

Lemma renderKey_nil : renderKey (@nil (bson.E V)) = ([], "").
Proof. reflexivity. Qed.

Lemma renderKey_cons (key : bson.D V) :
  key <> [] ->
  renderKey key = (map bson.Key key, "{ " ++ keyBody key ++ " }").
Proof.
  intros Hne. rewrite <- tailString_body by exact Hne.
  destruct key as [|e rest]; [congruence|].
  unfold renderKey. cbn [keyLoop keyStep].
  change (0 =? 0)%Z with true.
  destruct rest as [|e' rest'].
  - simpl. reflexivity.
  - replace (0 =? Z.of_nat (List.length (e :: e' :: rest')) - 1)%Z with false
      by (symmetry; apply Z.eqb_neq; simpl List.length; lia).
    rewrite keyLoop_tail; [|lia|simpl List.length; lia].
    f_equal.
    change (tailString (e :: e' :: rest'))
      with (entry e ++ ", " ++ tailString (e' :: rest')).
    unfold entry. simpl. now rewrite !append_assoc.
Qed.

(** The slice expression [KeyString[2:len(KeyString)-2]] takes the braces
    off a rendered non-empty key, and is out of bounds on the empty one. *)
Lemma slice_braces (body : string) :
  slice ("{ " ++ body ++ " }") 2 (len ("{ " ++ body ++ " }") - 2) = Some body.
Proof.
  unfold slice, len.
  rewrite !length_append. simpl String.length.
  replace (0 <=? 2)%Z with true by reflexivity.
  replace (2 <=? Z.of_nat (2 + (String.length body + 2)) - 2)%Z with true
    by (symmetry; apply Z.leb_le; lia).
  replace (Z.of_nat (2 + (String.length body + 2)) - 2
           <=? Z.of_nat (2 + (String.length body + 2)))%Z with true
    by (symmetry; apply Z.leb_le; lia).
  simpl andb. cbv iota.
  replace (Z.to_nat (Z.of_nat (2 + (String.length body + 2)) - 2 - 2))
    with (String.length body) by lia.
  change (Z.to_nat 2) with (String.length "{ ").
  rewrite substring_skip_append.
  now rewrite substring_0_append.
Qed.

Lemma slice_empty : slice "" 2 (len "" - 2) = None.
Proof. reflexivity. Qed.

End Normalisation.

(** ** checkIfDupped in closed form *)

Section Covering.

Context {V : Type}.

Abbreviation Index := (Index V).

Lemma existsb_eqb_In (f : string) (l : list string) :
  existsb (String.eqb f) l = true <-> In f l.
Proof.
  rewrite existsb_exists. split.
  - intros [x [Hin Hx]]. apply String.eqb_eq in Hx. now subst.
  - intros Hin. exists f. split; [exact Hin|apply String.eqb_refl].
Qed.

Lemma In_tail_nth (f x : string) (l : list string) :
  In f l <-> exists m, (1 <= m)%nat /\ nth_error (x :: l) m = Some f.
Proof.
  split.
  - intros Hin. apply In_nth_error in Hin. destruct Hin as [n Hn].
    exists (S n). split; [lia|exact Hn].
  - intros [m [Hm Hn]]. destruct m as [|m]; [lia|].
    simpl in Hn. eapply nth_error_In; eauto.
Qed.

Lemma coversb_covers (doc o : Index) : coversb doc o = true <-> covers doc o.
Proof.
  unfold coversb, covers.
  destruct (Fields doc) as [|d0 dt] eqn:Hd.
  { split; [discriminate|]. intros [[f [H _]] _]. discriminate. }
  destruct (Fields o) as [|o0 ot] eqn:Ho.
  { split; [discriminate|]. intros [[f [_ H]] _]. discriminate. }
  rewrite !andb_true_iff, negb_true_iff, String.eqb_eq, String.eqb_neq,
    Nat.leb_le, forallb_forall.
  split.
  - intros [[[H0 Hks] Hlen] Hall]. subst o0. repeat split.
    + now exists d0.
    + congruence.
    + exact Hlen.
    + intros k f Hk Hnth. apply In_tail_nth.
      apply existsb_eqb_In, Hall.
      destruct k as [|k]; [lia|]. simpl in Hnth.
      eapply nth_error_In; eauto.
  - intros [[f [Hf1 Hf2]] [Hks [Hlen Hall]]].
    simpl in Hf1, Hf2. repeat split.
    + congruence.
    + congruence.
    + exact Hlen.
    + intros x Hx. apply existsb_eqb_In.
      apply (In_tail_nth x o0).
      apply In_nth_error in Hx. destruct Hx as [n Hn].
      apply (Hall (S n)); [lia|exact Hn].
Qed.

Lemma matchesAt_S (fld : string) (fields : list string) : forall j,
  matchesAt fld (S j) fields = existsb (String.eqb fld) fields.
Proof.
  induction fields as [|x rest IH]; intros j; simpl; [reflexivity|].
  destruct (String.eqb fld x); simpl; [reflexivity|apply IH].
Qed.

Lemma matchesAt_0 (fld o0 : string) (ot : list string) :
  matchesAt fld 0 (o0 :: ot) = existsb (String.eqb fld) ot.
Proof. simpl. apply matchesAt_S. Qed.

Lemma countMatched_S (rest oFields : list string) : forall i n,
  countMatched (S i) rest oFields n
  = (n + Z.of_nat (List.length (filter (fun f => matchesAt f 0 oFields) rest)))%Z.
Proof.
  induction rest as [|f rest IH]; intros i n; simpl.
  - lia.
  - rewrite IH. destruct (matchesAt f 0 oFields); simpl List.length; lia.
Qed.

Lemma filter_length_le {A} (g : A -> bool) (l : list A) :
  (List.length (filter g l) <= List.length l)%nat.
Proof.
  induction l as [|x l IH]; simpl; [lia|].
  destruct (g x); simpl; lia.
Qed.

Lemma filter_length_all {A} (g : A -> bool) (l : list A) :
  List.length (filter g l) = List.length l <-> forallb g l = true.
Proof.
  induction l as [|x l IH]; simpl; [tauto|].
  pose proof (filter_length_le g l) as Hle.
  destruct (g x); simpl.
  - rewrite <- IH. lia.
  - split; [lia|discriminate].
Qed.

(** The counting loop reaches [len(doc.Fields)-1] exactly when every
    field of [doc] after the first was matched. *)
Lemma countMatched_all (d0 o0 : string) (dt ot : list string) :
  (countMatched 0 (d0 :: dt) (o0 :: ot) 0 =? lenFields (d0 :: dt) - 1)%Z
  = forallb (fun f => existsb (String.eqb f) ot) dt.
Proof.
  cbn [countMatched Nat.eqb]. rewrite countMatched_S.
  rewrite (filter_ext (fun f => matchesAt f 0 (o0 :: ot))
             (fun f => existsb (String.eqb f) ot))
    by (intros f; apply matchesAt_0).
  unfold lenFields. cbn [List.length].
  destruct (forallb (fun f => existsb (String.eqb f) ot) dt) eqn:Hall.
  - apply filter_length_all in Hall. apply Z.eqb_eq. lia.
  - apply Z.eqb_neq. intros Heq.
    assert (Hlen : List.length (filter (fun f => existsb (String.eqb f) ot) dt)
                   = List.length dt) by lia.
    apply filter_length_all in Hlen. congruence.
Qed.

Lemma checkIfDupped_cons (doc o : Index) (rest : list Index) :
  nonEmptyFields doc -> nonEmptyFields o ->
  checkIfDupped doc (o :: rest)
  = if negb (IsDupped o) && coversb doc o then Return true []
    else checkIfDupped doc rest.
Proof.
  unfold nonEmptyFields, coversb. intros Hdoc Ho.
  cbn [checkIfDupped].
  destruct (Fields doc) as [|d0 dt] eqn:Hd; [congruence|].
  destruct (Fields o) as [|o0 ot] eqn:Hof; [congruence|].
  destruct (IsDupped o); cbn [negb andb].
  - now rewrite bind_ret_l.
  - cbn [first]. rewrite !bind_ret_l.
    replace (lenFields (o0 :: ot) >=? lenFields (d0 :: dt))%Z
      with (List.length (d0 :: dt) <=? List.length (o0 :: ot))%nat.
    2:{ unfold lenFields.
        destruct (Nat.leb_spec (List.length (d0 :: dt)) (List.length (o0 :: ot)));
          symmetry.
        - apply Z.geb_le. lia.
        - destruct (Z.geb_spec (Z.of_nat (List.length (o0 :: ot)))
                      (Z.of_nat (List.length (d0 :: dt)))); [lia|reflexivity]. }
    destruct (String.eqb d0 o0 && negb (String.eqb (KeyString doc) (KeyString o))
              && (List.length (d0 :: dt) <=? List.length (o0 :: ot))%nat) eqn:Hc;
      cbn [andb]; [|reflexivity].
    rewrite countMatched_all.
    now destruct (forallb (fun f => existsb (String.eqb f) ot) dt).
Qed.

Lemma checkIfDupped_Return (doc : Index) (lst : list Index) :
  nonEmptyFields doc -> Forall nonEmptyFields lst ->
  checkIfDupped doc lst = Return (coveredIn doc lst) [].
Proof.
  unfold coveredIn. intros Hdoc Hall.
  induction Hall as [|o rest Ho Hrest IH]; [reflexivity|].
  rewrite checkIfDupped_cons by assumption.
  cbn [existsb].
  destruct (negb (IsDupped o) && coversb doc o); [reflexivity|exact IH].
Qed.

End Covering.

(** ** The duplicate pass in closed form *)

Section Pass.

Context {V : Type}.

Abbreviation Index := (Index V).

Lemma flagOne_Fields st (o : Index) : Fields (flagOne st o) = Fields o.
Proof. unfold flagOne. now destruct (exempt o). Qed.

Lemma flagOne_KeyString st (o : Index) : KeyString (flagOne st o) = KeyString o.
Proof. unfold flagOne. now destruct (exempt o). Qed.

Lemma flagOne_EffectiveKey st (o : Index) :
  EffectiveKey (flagOne st o) = EffectiveKey o.
Proof. unfold flagOne. now destruct (exempt o). Qed.

Lemma flagOne_IsShardKey st (o : Index) : IsShardKey (flagOne st o) = IsShardKey o.
Proof. unfold flagOne. now destruct (exempt o). Qed.

Lemma flagOne_exempt st (o : Index) : exempt (flagOne st o) = exempt o.
Proof. unfold exempt. now rewrite flagOne_KeyString, flagOne_IsShardKey. Qed.

Lemma covers_ext (d d' o o' : Index) :
  Fields d = Fields d' -> KeyString d = KeyString d' ->
  Fields o = Fields o' -> KeyString o = KeyString o' ->
  covers d o -> covers d' o'.
Proof. unfold covers. intros -> -> -> ->. auto. Qed.

Lemma updateAt_middle {A} (f : A -> A) (done : list A) x rest :
  updateAt (List.length done) f (done ++ x :: rest) = done ++ f x :: rest.
Proof. induction done as [|y done IH]; simpl; [reflexivity|now rewrite IH]. Qed.

Lemma nth_error_middle {A} (done : list A) x rest :
  nth_error (done ++ x :: rest) (List.length done) = Some x.
Proof. induction done as [|y done IH]; simpl; [reflexivity|exact IH]. Qed.

Lemma flagStep_Return shardCount (done : list Index) o rest :
  Forall nonEmptyFields (done ++ o :: rest) ->
  exists out,
    flagStep shardCount (List.length done) (done ++ o :: rest)
    = Return (done ++ flagOne (done ++ o :: rest) o :: rest) out.
Proof.
  intros Hall. unfold flagStep, flagOne, exempt.
  rewrite nth_error_middle.
  destruct (String.eqb (KeyString o) "{ _id: 1 }"); cbn [negb andb orb].
  { now exists []. }
  destruct (IsShardKey o); cbn [negb].
  { now exists []. }
  assert (Ho : nonEmptyFields o).
  { rewrite Forall_forall in Hall. apply Hall.
    apply in_or_app. right. now left. }
  rewrite (checkIfDupped_Return o _ Ho Hall).
  change (Return (coveredIn o (done ++ o :: rest)) [])
    with (ret (coveredIn o (done ++ o :: rest))).
  rewrite bind_ret_l.
  rewrite updateAt_middle, nth_error_middle.
  unfold when.
  destruct (Z.of_nat _ <? shardCount)%Z; eexists; reflexivity.
Qed.

Lemma flagFrom_pass shardCount (todo : list Index) : forall done,
  Forall nonEmptyFields (done ++ todo) ->
  exists out,
    flagFrom shardCount (seq (List.length done) (List.length todo)) (done ++ todo)
    = Return (pass done todo) out.
Proof.
  induction todo as [|o rest IH]; intros done Hall.
  - simpl. rewrite app_nil_r. now exists [].
  - cbn [List.length seq flagFrom pass].
    destruct (flagStep_Return shardCount done o rest Hall) as [out1 Hstep].
    assert (Hall' : Forall nonEmptyFields
                      ((done ++ [flagOne (done ++ o :: rest) o]) ++ rest)).
    { rewrite Forall_forall in *. intros x Hx.
      rewrite <- app_assoc in Hx. simpl in Hx.
      apply in_app_or in Hx. destruct Hx as [Hx|[Hx|Hx]].
      - apply Hall. apply in_or_app. now left.
      - subst x. unfold nonEmptyFields. rewrite flagOne_Fields.
        apply Hall. apply in_or_app. right. now left.
      - apply Hall. apply in_or_app. right. now right. }
    destruct (IH _ Hall') as [out2 Hrest].
    rewrite length_app in Hrest. simpl in Hrest.
    rewrite Nat.add_1_r in Hrest.
    rewrite <- app_assoc in Hrest. simpl in Hrest.
    exists (out1 ++ out2).
    now apply bind_Return with (a := done ++ flagOne (done ++ o :: rest) o :: rest).
Qed.

Lemma flagLoop_pass shardCount (lst : list Index) :
  Forall nonEmptyFields lst ->
  exists out, flagLoop shardCount lst = Return (pass [] lst) out.
Proof. intros Hall. apply (flagFrom_pass shardCount lst []). exact Hall. Qed.

(** The pass leaves the examined prefix alone and fills the rest index by
    index, each from the slice as it is when that index is examined. *)
Lemma pass_spec (todo : list Index) : forall done,
  List.length (pass done todo) = (List.length done + List.length todo)%nat
  /\ firstn (List.length done) (pass done todo) = done
  /\ forall k o, nth_error todo k = Some o ->
       nth_error (pass done todo) (List.length done + k)
       = Some (flagOne (firstn (List.length done + k) (pass done todo)
                        ++ skipn k todo) o).
Proof.
  induction todo as [|x rest IH]; intros done.
  - simpl. rewrite firstn_all. repeat split; [lia|].
    intros k o Hk. now destruct k.
  - cbn [pass].
    destruct (IH (done ++ [flagOne (done ++ x :: rest) x])) as [Hlen [Hpre Hnth]].
    rewrite length_app in *. cbn [List.length] in *.
    set (R := pass (done ++ [flagOne (done ++ x :: rest) x]) rest) in *.
    assert (Hpre' : firstn (List.length done) R = done).
    { replace (firstn (List.length done) R)
        with (firstn (List.length done) (firstn (List.length done + 1) R)).
      - rewrite Hpre, firstn_app, Nat.sub_diag, firstn_all. simpl.
        apply app_nil_r.
      - rewrite firstn_firstn. f_equal. lia. }
    assert (Hx : nth_error R (List.length done)
                 = Some (flagOne (done ++ x :: rest) x)).
    { assert (Hn : nth_error (firstn (List.length done + 1) R) (List.length done)
                   = nth_error R (List.length done)).
      { rewrite nth_error_firstn.
        now replace (List.length done <? List.length done + 1)%nat with true
          by (symmetry; apply Nat.ltb_lt; lia). }
      rewrite <- Hn, Hpre. apply nth_error_middle. }
    repeat split; [lia|exact Hpre'|].
    intros k o Hk. destruct k as [|k].
    + simpl in Hk. inversion Hk; subst o.
      rewrite Nat.add_0_r, Hpre'. exact Hx.
    + simpl in Hk. specialize (Hnth k o Hk).
      replace (List.length done + S k)%nat with (List.length done + 1 + k)%nat by lia.
      exact Hnth.
Qed.

End Pass.

(** ** What the pass decides, read off the final slice *)

Section PassDecides.

Context {V : Type}.

Abbreviation Index := (Index V).



Lemma subsumes_ext (d d' o o' : Index) :
  Fields d = Fields d' -> Fields o = Fields o' ->
  subsumes d o -> subsumes d' o'.
Proof. unfold subsumes. intros -> ->. auto. Qed.

Variable S0 : list Index.

Hypothesis unflagged : Forall (fun o => IsDupped o = false) S0.

Let F := pass [] S0.

(** The slice when index [i] is examined. *)
Let stateAt (i : nat) : list Index := sliceAt S0 i.

Lemma pass_length : List.length F = List.length S0.
Proof. subst F. destruct (pass_spec S0 []) as [H _]. exact H. Qed.

Lemma pass_nth i o :
  nth_error S0 i = Some o -> nth_error F i = Some (flagOne (stateAt i) o).
Proof.
  subst F stateAt. unfold sliceAt. destruct (pass_spec S0 []) as [_ [_ H]].
  exact (H i o).
Qed.

Lemma pass_nth_inv i D :
  nth_error F i = Some D ->
  exists o, nth_error S0 i = Some o /\ D = flagOne (stateAt i) o.
Proof.
  intros HD.
  assert (Hi : (i < List.length S0)%nat).
  { rewrite <- pass_length. apply nth_error_Some. congruence. }
  destruct (nth_error S0 i) as [o|] eqn:Ho.
  - exists o. split; [reflexivity|].
    apply pass_nth in Ho. congruence.
  - apply nth_error_None in Ho. lia.
Qed.

Lemma stateAt_before i j :
  (j < i)%nat -> (i <= List.length F)%nat ->
  nth_error (stateAt i) j = nth_error F j.
Proof.
  intros Hji Hi. unfold stateAt, sliceAt. fold F.
  rewrite nth_error_app1 by (rewrite length_firstn; lia).
  rewrite nth_error_firstn.
  now replace (j <? i)%nat with true by (symmetry; apply Nat.ltb_lt; lia).
Qed.

Lemma stateAt_from i j :
  (i <= j)%nat -> (i <= List.length F)%nat ->
  nth_error (stateAt i) j = nth_error S0 j.
Proof.
  intros Hij Hi. unfold stateAt, sliceAt. fold F.
  rewrite nth_error_app2 by (rewrite length_firstn; lia).
  rewrite length_firstn, nth_error_skipn.
  f_equal. lia.
Qed.

Lemma pass_exempt_unflagged i D :
  nth_error F i = Some D -> exempt D = true -> IsDupped D = false.
Proof.
  intros HD Hex. destruct (pass_nth_inv i D HD) as [o [Ho ->]].
  rewrite flagOne_exempt in Hex. unfold flagOne. rewrite Hex.
  rewrite Forall_forall in unflagged. apply unflagged.
  eapply nth_error_In; eauto.
Qed.

Lemma pass_flagged_iff i D :
  nth_error F i = Some D -> exempt D = false ->
  (IsDupped D = true <->
   exists j O, j <> i /\ nth_error F j = Some O
               /\ ((j < i)%nat -> IsDupped O = false) /\ covers D O).
Proof.
  intros HD Hex. destruct (pass_nth_inv i D HD) as [o [Ho HDo]].
  assert (Hi : (i < List.length F)%nat) by (apply nth_error_Some; congruence).
  assert (Hexo : exempt o = false) by (subst D; now rewrite flagOne_exempt in Hex).
  assert (Hdup : IsDupped D = coveredIn o (stateAt i)).
  { subst D. unfold flagOne. now rewrite Hexo. }
  assert (HF : Fields D = Fields o) by (subst D; apply flagOne_Fields).
  assert (HK : KeyString D = KeyString o) by (subst D; apply flagOne_KeyString).
  rewrite Hdup. unfold coveredIn. rewrite existsb_exists.
  rewrite Forall_forall in unflagged.
  split.
  - intros [x [Hin Hx]]. apply andb_true_iff in Hx. destruct Hx as [Hfl Hcov].
    apply negb_true_iff in Hfl. apply coversb_covers in Hcov.
    apply In_nth_error in Hin. destruct Hin as [j Hj].
    destruct (Nat.lt_ge_cases j i) as [Hlt|Hge].
    + rewrite stateAt_before in Hj by lia.
      exists j, x.
      split; [lia|]. split; [exact Hj|]. split; [auto|].
      eapply covers_ext; [symmetry; exact HF|symmetry; exact HK| | |exact Hcov];
        reflexivity.
    + rewrite stateAt_from in Hj by lia.
      assert (Hne : j <> i).
      { intros ->. rewrite Ho in Hj. inversion Hj; subst x.
        destruct Hcov as [_ [Hks _]]. congruence. }
      exists j, (flagOne (stateAt j) x).
      split; [exact Hne|]. split; [now apply pass_nth|]. split; [lia|].
      eapply covers_ext; [symmetry; exact HF|symmetry; exact HK| | |exact Hcov];
        symmetry; [apply flagOne_Fields|apply flagOne_KeyString].
  - intros [j [O [Hne [HO [Hfl Hcov]]]]].
    destruct (Nat.lt_ge_cases j i) as [Hlt|Hge].
    + exists O. split.
      * apply nth_error_In with (n := j).
        rewrite stateAt_before by lia. exact HO.
      * apply andb_true_iff. split.
        -- apply negb_true_iff. auto.
        -- apply coversb_covers.
           eapply covers_ext; [exact HF|exact HK| | |exact Hcov]; reflexivity.
    + destruct (pass_nth_inv j O HO) as [x [Hx HOx]].
      exists x. split.
      * apply nth_error_In with (n := j).
        rewrite stateAt_from by lia. exact Hx.
      * apply andb_true_iff. split.
        -- apply negb_true_iff. apply unflagged. eapply nth_error_In; eauto.
        -- apply coversb_covers.
           eapply covers_ext; [exact HF|exact HK| | |exact Hcov]; subst O;
             [apply flagOne_Fields|apply flagOne_KeyString].
Qed.


Lemma pass_EffectiveKey : map EffectiveKey F = map EffectiveKey S0.
Proof.
  apply nth_error_ext. intros i. rewrite !nth_error_map.
  destruct (nth_error S0 i) as [o|] eqn:Ho.
  - rewrite (pass_nth i o Ho). simpl. now rewrite flagOne_EffectiveKey.
  - apply nth_error_None in Ho. rewrite <- pass_length in Ho.
    apply nth_error_None in Ho. now rewrite Ho.
Qed.

End PassDecides.

(** ** The slice when an index is examined *)

Lemma bind_assoc {A B C} (m : Outcome A) (f : A -> Outcome B) (g : B -> Outcome C) :
  bind (bind m f) g = bind m (fun x => bind (f x) g).
Proof.
  destruct m as [a out1|k]; [|reflexivity]. simpl.
  destruct (f a) as [b out2|k]; [|reflexivity]. simpl.
  destruct (g b) as [c out3|k]; [|reflexivity].
  now rewrite app_assoc.
Qed.

Lemma bind_ret_r {A} (m : Outcome A) : bind m ret = m.
Proof. destruct m as [a out|k]; simpl; [now rewrite app_nil_r|reflexivity]. Qed.

Lemma firstn_S_nth {A} (l : list A) : forall i x,
  nth_error l i = Some x -> firstn (S i) l = firstn i l ++ [x].
Proof.
  induction l as [|y l IH]; intros [|i] x H; try discriminate.
  - simpl in H. inversion H. reflexivity.
  - simpl in H. change (firstn (S (S i)) (y :: l)) with (y :: firstn (S i) l).
    now rewrite (IH i x H).
Qed.

Lemma skipn_nth_cons {A} (l : list A) : forall i x,
  nth_error l i = Some x -> skipn i l = x :: skipn (S i) l.
Proof.
  induction l as [|y l IH]; intros [|i] x H; try discriminate.
  - simpl in H. inversion H. reflexivity.
  - simpl in H. exact (IH i x H).
Qed.

Lemma In_firstn {A} (n : nat) (l : list A) x : In x (firstn n l) -> In x l.
Proof.
  intros H. rewrite <- (firstn_skipn n l). apply in_or_app. now left.
Qed.

Lemma In_skipn {A} (n : nat) (l : list A) x : In x (skipn n l) -> In x l.
Proof.
  intros H. rewrite <- (firstn_skipn n l). apply in_or_app. now right.
Qed.

Section PassStates.

Context {V : Type}.

Abbreviation Index := (Index V).

Variable shardCount : Z.
Variable S0 : list Index.

Hypothesis nonEmpty : Forall nonEmptyFields S0.

Lemma flagFrom_app (l1 l2 : list nat) : forall lst : list Index,
  flagFrom shardCount (l1 ++ l2) lst
  = bind (flagFrom shardCount l1 lst) (flagFrom shardCount l2).
Proof.
  induction l1 as [|i l1 IH]; intros lst.
  - cbn [app flagFrom]. now rewrite bind_ret_l.
  - cbn [app flagFrom]. rewrite bind_assoc.
    destruct (flagStep shardCount i lst) as [lst' out|k]; [|reflexivity].
    cbn [bind]. now rewrite IH.
Qed.

Lemma pass_nonEmpty : Forall nonEmptyFields (pass [] S0).
Proof.
  apply Forall_forall. intros D HD.
  apply In_nth_error in HD. destruct HD as [i Hi].
  destruct (pass_nth_inv S0 i D Hi) as [o [Ho ->]].
  unfold nonEmptyFields. rewrite flagOne_Fields.
  rewrite Forall_forall in nonEmpty. apply nonEmpty.
  eapply nth_error_In; eauto.
Qed.

Lemma sliceAt_nonEmpty i : Forall nonEmptyFields (sliceAt S0 i).
Proof.
  unfold sliceAt. apply Forall_app. split.
  - apply Forall_forall. intros x Hx. apply In_firstn in Hx.
    pose proof pass_nonEmpty as H. rewrite Forall_forall in H. auto.
  - apply Forall_forall. intros x Hx. apply In_skipn in Hx.
    rewrite Forall_forall in nonEmpty. auto.
Qed.

(** The loop, stopped before index [i], has made the slice [sliceAt S0 i]. *)
Lemma flagFrom_sliceAt : forall i,
  (i <= List.length S0)%nat ->
  exists out, flagFrom shardCount (seq 0 i) S0 = Return (sliceAt S0 i) out.
Proof.
  induction i as [|i IH]; intros Hi.
  - exists []. reflexivity.
  - destruct IH as [out1 H1]; [lia|].
    destruct (nth_error S0 i) as [o|] eqn:Ho.
    2:{ apply nth_error_None in Ho. lia. }
    pose proof (pass_nth S0 i o Ho) as HF. cbv zeta in HF.
    assert (Hlen : List.length (firstn i (pass [] S0)) = i).
    { rewrite length_firstn, (pass_length S0). lia. }
    assert (Hslice : sliceAt S0 i = firstn i (pass [] S0) ++ o :: skipn (S i) S0).
    { unfold sliceAt. now rewrite (skipn_nth_cons S0 i o Ho). }
    pose proof (sliceAt_nonEmpty i) as Hne. rewrite Hslice in Hne.
    destruct (flagStep_Return shardCount _ o _ Hne) as [out2 H2].
    rewrite Hlen, <- Hslice in H2.
    rewrite seq_S, flagFrom_app. simpl Nat.add.
    exists (out1 ++ out2 ++ []).
    eapply bind_Return; [exact H1|].
    cbn [flagFrom]. eapply bind_Return; [exact H2|].
    unfold ret. f_equal.
    unfold sliceAt at 2. rewrite (firstn_S_nth _ i _ HF).
    now rewrite <- app_assoc.
Qed.

Lemma coveredIn_Fields (d d' : Index) (st : list Index) :
  Fields d = Fields d' -> KeyString d = KeyString d' ->
  coveredIn d st = coveredIn d' st.
Proof.
  intros HF HK. unfold coveredIn, coversb. now rewrite HF, HK.
Qed.

Lemma pass_flagged_at_slice i (D : Index) :
  nth_error (pass [] S0) i = Some D -> exempt D = false ->
  (IsDupped D = true <->
   exists j O, nth_error (sliceAt S0 i) j = Some O
               /\ IsDupped O = false /\ covers D O).
Proof.
  intros HD Hex. destruct (pass_nth_inv S0 i D HD) as [o [Ho HDo]].
  cbv zeta in HDo.
  assert (Hexo : exempt o = false) by (subst D; now rewrite flagOne_exempt in Hex).
  assert (Hdup : IsDupped D = coveredIn D (sliceAt S0 i)).
  { rewrite (coveredIn_Fields D o).
    - subst D. unfold flagOne. now rewrite Hexo.
    - subst D. apply flagOne_Fields.
    - subst D. apply flagOne_KeyString. }
  rewrite Hdup. unfold coveredIn. rewrite existsb_exists. split.
  - intros [x [Hin Hx]]. apply andb_true_iff in Hx. destruct Hx as [Hfl Hcov].
    apply In_nth_error in Hin. destruct Hin as [j Hj].
    exists j, x. split; [exact Hj|]. split.
    + now apply negb_true_iff.
    + now apply coversb_covers.
  - intros [j [O [HO [Hfl Hcov]]]]. exists O. split.
    + eapply nth_error_In; eauto.
    + apply andb_true_iff. split.
      * now apply negb_true_iff.
      * now apply coversb_covers.
Qed.

End PassStates.

(** ** The order of effective keys *)

Lemma ltb_Lt (a b : string) : String.ltb a b = true <-> String.compare a b = Lt.
Proof. unfold String.ltb. destruct (String.compare a b); split; congruence. Qed.

Lemma ltb_irrefl (a : string) : String.ltb a a = false.
Proof.
  unfold String.ltb.
  pose proof (proj2 (OrderedTypeEx.String_as_OT.cmp_eq a a) eq_refl) as H.
  unfold OrderedTypeEx.String_as_OT.cmp in H. now rewrite H.
Qed.

Lemma ltb_trans (a b c : string) :
  String.ltb a b = true -> String.ltb b c = true -> String.ltb a c = true.
Proof.
  rewrite !ltb_Lt. intros Hab Hbc.
  apply OrderedTypeEx.String_as_OT.cmp_lt.
  apply OrderedTypeEx.String_as_OT.cmp_lt in Hab, Hbc.
  eapply OrderedTypeEx.String_as_OT.lt_trans; eauto.
Qed.

Lemma ltb_neg_trans (a b c : string) :
  String.ltb a b = false -> String.ltb b c = false -> String.ltb a c = false.
Proof.
  intros Hab Hbc. destruct (String.ltb a c) eqn:Hac; [|reflexivity].
  destruct (String.compare a b) eqn:Cab.
  - apply String.compare_eq_iff in Cab. subst b. congruence.
  - apply ltb_Lt in Cab. congruence.
  - assert (Hba : String.ltb b a = true).
    { apply ltb_Lt. rewrite String.compare_antisym, Cab. reflexivity. }
    rewrite (ltb_trans b a c Hba Hac) in Hbc. discriminate.
Qed.

Lemma leb_not_ltb (a b : string) : String.leb a b = negb (String.ltb b a).
Proof.
  unfold String.leb, String.ltb. rewrite (String.compare_antisym b a).
  now destruct (String.compare a b).
Qed.

Lemma lessEffectiveKey_order {V} : StrictWeakOrder (@lessEffectiveKey V).
Proof.
  unfold lessEffectiveKey, less. constructor.
  - intros a. apply ltb_irrefl.
  - intros a b c. apply ltb_trans.
  - intros a b c. apply ltb_neg_trans.
Qed.

(** ** The collector in closed form *)

Section Collector.

Context {V : Type} `{SV : Sprinter V}.

Abbreviation Index := (Index V).
Abbreviation IndexSpec := (IndexSpec V).
Abbreviation Client := (Client V).

Lemma fold_usageStep_core (stats : list IndexUsage.t) : forall o : Index,
  let r := fold_left usageStep stats o in
  Fields r = Fields o /\ KeyString r = KeyString o
  /\ EffectiveKey r = EffectiveKey o /\ IsDupped r = IsDupped o
  /\ IsShardKey r = IsShardKey o /\ Key r = Key o /\ Name r = Name o.
Proof.
  induction stats as [|u stats IH]; intros o; simpl.
  - tauto.
  - specialize (IH (usageStep o u)). simpl in IH.
    unfold usageStep in *.
    destruct (String.eqb (IndexUsage.Name u) (Name o)); simpl in IH; exact IH.
Qed.

Lemma normalized_facts client ns indexStats (o : Index) :
  let r := normalized client ns indexStats o in
  Fields r = map bson.Key (Key o)
  /\ KeyString r = ("{ " ++ keyBody (Key o) ++ " }")%string
  /\ EffectiveKey r = ReplaceAll (keyBody (Key o)) ": -1" ": 1"
  /\ IsDupped r = IsDupped o
  /\ IsShardKey r = (FindShardKey client ns (Key o) || IsShardKey o)
  /\ Key r = Key o /\ Name r = Name o.
Proof.
  unfold normalized, mergeUsage. cbv zeta.
  destruct (fold_usageStep_core indexStats
    (setUsage (setEffectiveKey (marked client ns (rendered o))
                 (ReplaceAll (keyBody (Key o)) ": -1" ": 1")) []))
    as [H1 [H2 [H3 [H4 [H5 [H6 H7]]]]]].
  rewrite H1, H2, H3, H4, H5, H6, H7.
  unfold marked, rendered. simpl.
  destruct (FindShardKey client ns (Key o)); simpl; tauto.
Qed.

Lemma normalize_Return client verbose ns indexStats (o : Index) :
  Key o <> [] ->
  exists out,
    normalize client verbose ns indexStats o
    = Return (normalized client ns indexStats o) out.
Proof.
  intros Hne. unfold normalize.
  rewrite (renderKey_cons (Key o) Hne).
  unfold normalized, marked, rendered.
  cbn [KeyString setKeyString setFields Key].
  destruct (FindShardKey client ns (Key o));
    cbn [KeyString setKeyString setFields setIsShardKey Key];
    rewrite slice_braces;
    destruct verbose; cbn [when];
    eexists; unfold emit, bind, ret; reflexivity.
Qed.

Lemma normalize_Panic client verbose ns indexStats (o : Index) :
  Key o = [] ->
  normalize client verbose ns indexStats o = Panic SliceBoundsOutOfRange.
Proof.
  intros He. unfold normalize. rewrite He, renderKey_nil.
  cbn [KeyString setKeyString setFields Key].
  destruct (FindShardKey client ns (Key o));
    cbn [KeyString setKeyString setFields setIsShardKey];
    destruct verbose; reflexivity.
Qed.

Lemma statsLoop_Return (cursor : list (error + IndexUsage.t)) : forall acc,
  exists out, statsLoop cursor acc = Return (acc ++ decoded cursor) out.
Proof.
  induction cursor as [|[err|u] rest IH]; intros acc; simpl.
  - exists []. now rewrite app_nil_r.
  - destruct (IH acc) as [out Hout]. rewrite Hout. eexists. reflexivity.
  - destruct (IH (acc ++ [u])) as [out Hout]. rewrite Hout.
    rewrite <- app_assoc. eexists. reflexivity.
Qed.

Lemma indexLoop_Return client verbose ns indexStats
    (cursor : list (error + IndexSpec)) : forall lst,
  Forall keyNonEmpty cursor ->
  exists out,
    indexLoop client verbose ns indexStats cursor lst
    = Return (lst ++ map (fun d => normalized client ns indexStats (decodeIndex d))
                         (decoded cursor)) out.
Proof.
  induction cursor as [|[err|d] rest IH]; intros lst Hall.
  - exists []. simpl. now rewrite app_nil_r.
  - inversion Hall; subst. destruct (IH lst H2) as [out Hout].
    simpl. rewrite Hout. eexists. reflexivity.
  - inversion Hall; subst. simpl in H1.
    destruct (normalize_Return client verbose ns indexStats (decodeIndex d) H1)
      as [out1 Hn].
    destruct (IH (lst ++ [normalized client ns indexStats (decodeIndex d)]) H2)
      as [out2 Hout].
    cbn [indexLoop decoded map].
    rewrite <- app_assoc in Hout. simpl in Hout.
    exists (out1 ++ out2).
    eapply bind_Return; [exact Hn|exact Hout].
Qed.

Lemma indexLoop_Panic client verbose ns indexStats
    (cursor : list (error + IndexSpec)) : forall lst,
  Exists keyEmpty cursor ->
  indexLoop client verbose ns indexStats cursor lst = Panic SliceBoundsOutOfRange.
Proof.
  induction cursor as [|item rest IH]; intros lst Hex.
  - inversion Hex.
  - destruct item as [err|d].
    + simpl. rewrite IH; [reflexivity|].
      inversion Hex; subst; [|assumption].
      destruct H0 as [d [Hd _]]. discriminate.
    + cbn [indexLoop].
      destruct (specKey d) as [|e k] eqn:Hk.
      * apply bind_Panic. apply normalize_Panic. exact Hk.
      * destruct (normalize_Return client verbose ns indexStats (decodeIndex d))
          as [out Hn]; [simpl; rewrite Hk; discriminate|].
        eapply bind_Return_Panic; [exact Hn|].
        apply IH. inversion Hex; subst; [|assumption].
        destruct H0 as [d' [Hd Hk']]. inversion Hd; subst. congruence.
Qed.

End Collector.

(** ** Runs of GetIndexesFromCollection *)

Section Runs.

Context {V : Type} `{SV : Sprinter V} `{GS : GoSort}.

Abbreviation Index := (Index V).
Abbreviation IndexSpec := (IndexSpec V).
Abbreviation Client := (Client V).

Variable verbose : bool.
Variable client : Client.
Variable collection : mongo.Collection.

Let db := mongo.DatabaseName collection.
Let name := mongo.CollectionName collection.
Let ns := (db ++ "." ++ name)%string.

Lemma usagePhase_Return :
  exists out, usagePhase client collection = Return (usageOf client collection) out.
Proof.
  unfold usagePhase, usageOf.
  destruct (Aggregate client collection) as [err|scur].
  - eexists. reflexivity.
  - destruct (statsLoop_Return scur []) as [out Hout]. now exists out.
Qed.

Lemma normalizedOf_nonEmpty icur :
  Forall keyNonEmpty icur -> Forall nonEmptyFields (normalizedOf client collection icur).
Proof.
  unfold normalizedOf. induction 1 as [|item rest Hitem Hrest IH].
  - constructor.
  - destruct item as [err|d]; cbn [decoded map]; [exact IH|].
    constructor; [|exact IH].
    unfold nonEmptyFields.
    destruct (normalized_facts client ns (usageOf client collection) (decodeIndex d))
      as [HF _].
    subst ns db name. cbv zeta in HF. rewrite HF.
    cbn [Key decodeIndex]. simpl in Hitem.
    destruct (specKey d); [congruence|discriminate].
Qed.

Lemma normalizedOf_unflagged icur :
  Forall (fun o : Index => IsDupped o = false) (normalizedOf client collection icur).
Proof.
  unfold normalizedOf. apply Forall_forall. intros o Ho.
  apply in_map_iff in Ho. destruct Ho as [d [<- _]].
  destruct (normalized_facts client ns (usageOf client collection) (decodeIndex d))
    as [_ [_ [_ [HD _]]]].
  subst ns db name. cbv zeta in HD. rewrite HD. reflexivity.
Qed.

Lemma sortedOf_Forall (P : Index -> Prop) icur :
  Forall P (normalizedOf client collection icur) -> Forall P (sortedOf client collection icur).
Proof.
  unfold sortedOf. intros H.
  eapply Permutation_Forall; [|exact H].
  apply sort_Slice_permutes.
Qed.

Lemma run_listing_fails err :
  ListIndexes client db name = inl err ->
  exists outS,
    usagePhase client collection = Return (usageOf client collection) outS
    /\ GetIndexesFromCollection verbose client collection
       = Return ([], Some err)
           ([LoggerAdd ("GetIndexesFromCollection from " ++ db ++ "." ++ name)%string]
            ++ outS ++ [LogPrintln [err]]).
Proof.
  intros Hl. destruct usagePhase_Return as [outS HS].
  exists outS. split; [exact HS|].
  unfold GetIndexesFromCollection. fold (usagePhase client collection).
  subst db name. rewrite Hl, HS. reflexivity.
Qed.

Lemma run_returns icur :
  ListIndexes client db name = inr icur ->
  Forall keyNonEmpty icur ->
  exists outS outR,
    usagePhase client collection = Return (usageOf client collection) outS
    /\ GetIndexesFromCollection verbose client collection
       = Return (pass [] (sortedOf client collection icur), None)
           ([LoggerAdd ("GetIndexesFromCollection from " ++ db ++ "." ++ name)%string]
            ++ outS ++ outR).
Proof.
  intros Hl Hall. destruct usagePhase_Return as [outS HS].
  destruct (indexLoop_Return client verbose ns (usageOf client collection)
              icur [] Hall) as [out1 H1].
  destruct (flagLoop_pass (GetShardsCount client) (sortedOf client collection icur)) as [out2 H2].
  { apply sortedOf_Forall, normalizedOf_nonEmpty. exact Hall. }
  exists outS, (out1 ++ out2 ++ []). split; [exact HS|].
  unfold GetIndexesFromCollection. fold (usagePhase client collection).
  subst ns db name. rewrite Hl, HS. cbn [bind emit].
  rewrite app_nil_l in H1. rewrite H1.
  unfold sortedOf, normalizedOf in H2. cbn [bind]. rewrite H2.
  reflexivity.
Qed.

Lemma run_panics icur :
  ListIndexes client db name = inr icur ->
  Exists keyEmpty icur ->
  GetIndexesFromCollection verbose client collection
  = Panic SliceBoundsOutOfRange.
Proof.
  intros Hl Hex. destruct usagePhase_Return as [outS HS].
  unfold GetIndexesFromCollection. fold (usagePhase client collection).
  subst db name. rewrite Hl, HS. cbn [bind emit].
  now rewrite indexLoop_Panic.
Qed.

End Runs.

(** ** Replacing [": -1"] by [": 1"] *)

Section Directions.

Local Open Scope string_scope.

Lemma replaceFrom_drop old new (s : string) : forall k,
  replaceFrom old new k s = replaceFrom old new 0 (dropStr k s).
Proof.
  induction s as [|c s IH]; intros k.
  - now destruct k.
  - destruct k as [|k]; [reflexivity|]. simpl. apply IH.
Qed.

Lemma ascending_unfold (c : ascii) (s : string) :
  ascending (String c s)
  = if prefix ": -1" (String c s) then ": 1" ++ ascending (dropStr 3 s)
    else String c (ascending s).
Proof.
  unfold ascending, ReplaceAll.
  change (String.eqb ": -1" ": 1") with false. cbv iota.
  cbn [replaceFrom].
  destruct (prefix ": -1" (String c s)); [|reflexivity].
  change (String.length ": -1" - 1)%nat with 3%nat.
  now rewrite replaceFrom_drop.
Qed.

Lemma ascending_nil : ascending "" = "".
Proof. reflexivity. Qed.

Lemma prefix_before_separator (u t : string) (c : ascii) :
  separator c -> u <> "" ->
  prefix ": -1" (u ++ String c t) = prefix ": -1" u.
Proof.
  intros [H1 [H2 H3]] Hu.
  destruct u as [|c1 u]; [congruence|]. cbn [prefix append].
  destruct (ascii_dec ":" c1); [|reflexivity].
  destruct u as [|c2 u]; cbn [prefix append].
  { destruct (ascii_dec " " c); [congruence|reflexivity]. }
  destruct (ascii_dec " " c2); [|reflexivity].
  destruct u as [|c3 u]; cbn [prefix append].
  { destruct (ascii_dec "-" c); [congruence|reflexivity]. }
  destruct (ascii_dec "-" c3); [|reflexivity].
  destruct u as [|c4 u]; cbn [prefix append].
  { destruct (ascii_dec "1" c); [congruence|reflexivity]. }
  destruct (ascii_dec "1" c4); [|reflexivity].
  now destruct u.
Qed.

Lemma prefix_length (u : string) :
  prefix ": -1" u = true ->
  exists c1 c2 c3 c4 u', u = String c1 (String c2 (String c3 (String c4 u'))).
Proof.
  destruct u as [|c1 [|c2 [|c3 [|c4 u']]]]; cbn [prefix]; intros H.
  - discriminate.
  - destruct (ascii_dec ":" c1); discriminate.
  - destruct (ascii_dec ":" c1); [|discriminate].
    destruct (ascii_dec " " c2); discriminate.
  - destruct (ascii_dec ":" c1); [|discriminate].
    destruct (ascii_dec " " c2); [|discriminate].
    destruct (ascii_dec "-" c3); discriminate.
  - now exists c1, c2, c3, c4, u'.
Qed.

(** [ascending] works on the two sides of a separator on their own. *)
Lemma ascending_app_separator (n : nat) : forall (u t : string) (c : ascii),
  (String.length u <= n)%nat -> separator c ->
  ascending (u ++ String c t) = ascending u ++ ascending (String c t).
Proof.
  induction n as [|n IH]; intros u t c Hlen Hc.
  - destruct u; [reflexivity|simpl in Hlen; lia].
  - destruct u as [|c1 u]; [reflexivity|].
    change (String c1 u ++ String c t) with (String c1 (u ++ String c t)).
    rewrite (ascending_unfold c1 (u ++ String c t)), (ascending_unfold c1 u).
    change (String c1 (u ++ String c t)) with (String c1 u ++ String c t).
    rewrite prefix_before_separator by (auto; discriminate).
    destruct (prefix ": -1" (String c1 u)) eqn:Hp.
    + destruct (prefix_length _ Hp) as [d1 [d2 [d3 [d4 [u' Hu]]]]].
      inversion Hu; subst. cbn [dropStr append].
      rewrite IH; [|simpl in *; lia|exact Hc].
      reflexivity.
    + simpl. f_equal. apply IH; [simpl in Hlen; lia|exact Hc].
Qed.

Lemma ascending_before_separator (u t : string) (c : ascii) :
  separator c ->
  ascending (u ++ String c t) = ascending u ++ ascending (String c t).
Proof. intros Hc. now apply (ascending_app_separator (String.length u)). Qed.

Lemma separator_colon : separator ":".
Proof. repeat split; discriminate. Qed.

Lemma separator_comma : separator ",".
Proof. repeat split; discriminate. Qed.

Lemma ascending_comma (t : string) : ascending (", " ++ t) = ", " ++ ascending t.
Proof.
  change (", " ++ t) with (String "," (String " " t)).
  rewrite ascending_unfold. simpl prefix. cbv iota.
  rewrite ascending_unfold. simpl prefix. cbv iota. reflexivity.
Qed.

Lemma ascending_up : ascending ": 1" = ": 1".
Proof. reflexivity. Qed.

Lemma ascending_down : ascending ": -1" = ": 1".
Proof. reflexivity. Qed.

End Directions.

(** ** Keys that differ in direction only *)

Section KeyDirections.

Context {V : Type} `{SV : Sprinter V}.

Local Open Scope string_scope.

Lemma ascending_entry (e : bson.E V) :
  ascending (entry e)
  = ascending (bson.Key e) ++ ascending (": " ++ Sprint (bson.Value e)).
Proof.
  unfold entry.
  change (bson.Key e ++ ": " ++ Sprint (bson.Value e))
    with (bson.Key e ++ String ":" (" " ++ Sprint (bson.Value e))).
  now rewrite ascending_before_separator by apply separator_colon.
Qed.

Lemma ascending_keyBody (key : bson.D V) :
  ascending (keyBody key)
  = String.concat ", " (map (fun e => ascending (entry e)) key).
Proof.
  unfold keyBody. induction key as [|e rest IH]; [reflexivity|].
  destruct rest as [|e' rest']; [reflexivity|].
  change (String.concat ", " (map entry (e :: e' :: rest')))
    with (entry e ++ String "," (" " ++ String.concat ", " (map entry (e' :: rest')))).
  rewrite ascending_before_separator by apply separator_comma.
  change (String "," (" " ++ String.concat ", " (map entry (e' :: rest'))))
    with (", " ++ String.concat ", " (map entry (e' :: rest'))).
  rewrite ascending_comma, IH. reflexivity.
Qed.

Lemma sameButDirection_entry (e e' : bson.E V) :
  sameButDirection e e' -> ascending (entry e) = ascending (entry e').
Proof.
  intros [Hk Hv]. rewrite !ascending_entry, Hk. f_equal.
  destruct Hv as [Hv|[[Hv Hv']|[Hv Hv']]]; rewrite Hv; [reflexivity| |];
    rewrite Hv'; reflexivity.
Qed.

Lemma ascending_keyBody_directions (key key' : bson.D V) :
  Forall2 sameButDirection key key' ->
  ascending (keyBody key) = ascending (keyBody key').
Proof.
  intros H. rewrite !ascending_keyBody. f_equal.
  induction H as [|e e' rest rest' He Hrest IH]; [reflexivity|].
  simpl. now rewrite (sameButDirection_entry e e' He), IH.
Qed.

Lemma tailString_directions (key key' : bson.D V) :
  Forall2 sameButDirection key key' ->
  tailString key = tailString key' -> directions key = directions key'.
Proof.
  induction 1 as [|e e' rest rest' [Hk Hv] Hrest IH]; [reflexivity|].
  intros Heq. unfold directions in *. cbn [map].
  cbn [tailString] in Heq. unfold entry in Heq.
  rewrite Hk, !append_assoc in Heq.
  apply append_inv_head in Heq.
  change (": " ++ ?x) with (String ":" (String " " x)) in Heq.
  destruct Hv as [Hv|[[Hv Hv']|[Hv Hv']]].
  - rewrite Hv in *. f_equal.
    simpl in Heq. inversion Heq as [Heq'].
    apply append_inv_head in Heq'.
    destruct Hrest as [|e1 e1' r r' He1 Hr].
    + reflexivity.
    + apply IH. simpl in Heq'. now inversion Heq'.
  - rewrite Hv, Hv' in Heq. simpl in Heq. discriminate.
  - rewrite Hv, Hv' in Heq. simpl in Heq. discriminate.
Qed.

Lemma braces_directions (key key' : bson.D V) :
  key <> [] ->
  Forall2 sameButDirection key key' ->
  "{ " ++ keyBody key ++ " }" = "{ " ++ keyBody key' ++ " }" ->
  directions key = directions key'.
Proof.
  intros Hne H Heq.
  assert (Hne' : key' <> []).
  { destruct H; [congruence|discriminate]. }
  apply (tailString_directions key key' H).
  rewrite !tailString_body by assumption.
  now apply append_inv_head in Heq.
Qed.

End KeyDirections.

(** ** The claims about GetIndexesFromCollection *)

Lemma Sorted_consecutive {A} (R : A -> A -> Prop) (l : list A) :
  Sorted R l ->
  forall i a b, nth_error l i = Some a -> nth_error l (S i) = Some b -> R a b.
Proof.
  induction 1 as [|x l Hs IH Hhd]; intros i a b Ha Hb.
  - now destruct i.
  - destruct i as [|i].
    + simpl in Ha, Hb. inversion Ha; subst x.
      destruct l as [|y l]; [discriminate|].
      simpl in Hb. inversion Hb; subst y. now inversion Hhd.
    + simpl in Ha. exact (IH i a b Ha Hb).
Qed.

(** The pass changes nothing but the flag: with the flags cleared, the
    list it returns is the list it was given, position by position. *)
Lemma pass_unflag {V} (S0 : list (Index V)) :
  Forall (fun o => IsDupped o = false) S0 ->
  map (fun D => setIsDupped D false) (pass [] S0) = S0.
Proof.
  intros Hun. apply nth_error_ext. intros i. rewrite nth_error_map.
  destruct (nth_error S0 i) as [o|] eqn:Ho.
  - rewrite (pass_nth S0 i o Ho). cbn [option_map]. f_equal.
    rewrite Forall_forall in Hun.
    pose proof (Hun o (nth_error_In _ _ Ho)) as Hflag.
    unfold flagOne. destruct (exempt o); destruct o; cbn in *; now subst.
  - assert (Hnone : nth_error (pass [] S0) i = None).
    { apply nth_error_None. rewrite pass_length. now apply nth_error_None. }
    now rewrite Hnone.
Qed.

Section Claims.

Context {V : Type} `{SV : Sprinter V} `{GS : GoSort}.

Abbreviation Index := (Index V).
Abbreviation IndexSpec := (IndexSpec V).
Abbreviation Client := (Client V).

Variable verbose : bool.
Variable client : Client.
Variable collection : mongo.Collection.
Variable icur : list (error + IndexSpec).

(** The index listing succeeds with the cursor [icur]. *)
Hypothesis listing :
  ListIndexes client (mongo.DatabaseName collection)
    (mongo.CollectionName collection) = inr icur.

Lemma exempt_false (D : Index) :
  KeyString D <> "{ _id: 1 }"%string -> IsShardKey D = false -> exempt D = false.
Proof.
  intros Hk Hs. unfold exempt. rewrite Hs.
  apply String.eqb_neq in Hk. now rewrite Hk.
Qed.

Lemma exempt_true (D : Index) :
  KeyString D = "{ _id: 1 }"%string \/ IsShardKey D = true -> exempt D = true.
Proof.
  unfold exempt. intros [Hk|Hs].
  - rewrite Hk. reflexivity.
  - rewrite Hs. apply orb_true_r.
Qed.

(** C1. In the list returned for a collection, an index D at position i
    that is neither the _id index nor a shard key is flagged duplicate
    exactly when another index O of the list covers it ([covers]: same
    first field, another KeyString, at least as many fields, every field
    of D but the first at a non-first position of O) and O is not yet
    flagged when D is examined: O comes later in the list, or it comes
    earlier and was left unflagged. In terms of the loop: stopped before
    index i it has made a slice St, and D is flagged exactly when an
    index of St with IsDupped false covers it. The list the loop starts
    from, S0, is the normalised indexes of the listing, each one once, in
    ascending order of EffectiveKey, and the returned list is S0 position
    by position, the flags apart: every index of the collection is in the
    returned list, and is flagged there when it is covered. *)
Theorem C1_flagged_iff_covered :
  Forall keyNonEmpty icur ->
  exists F out,
    GetIndexesFromCollection verbose client collection = Return (F, None) out
    /\ (forall i D,
          nth_error F i = Some D ->
          KeyString D <> "{ _id: 1 }"%string -> IsShardKey D = false ->
          (IsDupped D = true <->
           exists j O, j <> i /\ nth_error F j = Some O
                       /\ ((j < i)%nat -> IsDupped O = false)
                       /\ covers D O))
    /\ exists S0 out0,
         Permutation (normalizedOf client collection icur) S0
         /\ Sorted (fun a b => lessEffectiveKey b a = false) S0
         /\ map (fun D => setIsDupped D false) F = S0
         /\ flagLoop (GetShardsCount client) S0 = Return F out0
         /\ forall i D,
              nth_error F i = Some D ->
              KeyString D <> "{ _id: 1 }"%string -> IsShardKey D = false ->
              exists St out',
                flagFrom (GetShardsCount client) (seq 0 i) S0 = Return St out'
                /\ (IsDupped D = true <->
                    exists j O, nth_error St j = Some O
                                /\ IsDupped O = false /\ covers D O).
Proof.
  intros Hkeys.
  destruct (run_returns verbose client collection icur listing Hkeys)
    as [outS [outR [_ Hrun]]].
  assert (Hne : Forall nonEmptyFields (sortedOf client collection icur))
    by (apply sortedOf_Forall, normalizedOf_nonEmpty; exact Hkeys).
  assert (Hun : Forall (fun o : Index => IsDupped o = false)
                  (sortedOf client collection icur))
    by apply sortedOf_Forall, normalizedOf_unflagged.
  eexists. eexists. split; [exact Hrun|]. split.
  - intros i D HD Hk Hs.
    apply pass_flagged_iff; [|exact HD|now apply exempt_false].
    exact Hun.
  - destruct (flagLoop_pass (GetShardsCount client) _ Hne) as [out0 Hloop].
    exists (sortedOf client collection icur), out0.
    split; [unfold sortedOf; apply sort_Slice_permutes|].
    split; [unfold sortedOf; apply sort_Slice_sorts, lessEffectiveKey_order|].
    split; [exact (pass_unflag _ Hun)|].
    split; [exact Hloop|].
    intros i D HD Hk Hs.
    assert (Hi : (i <= List.length (sortedOf client collection icur))%nat).
    { rewrite <- pass_length. apply Nat.lt_le_incl, nth_error_Some. congruence. }
    destruct (flagFrom_sliceAt (GetShardsCount client) _ Hne i Hi) as [out' Hst].
    exists (sliceAt (sortedOf client collection icur) i), out'.
    split; [exact Hst|].
    apply (pass_flagged_at_slice _ i D HD). now apply exempt_false.
Qed.

(** C3. In the list returned for a collection, the index whose
    KeyString is "{ _id: 1 }" is not flagged duplicate, and no index
    with IsShardKey set is, whatever the other indexes are. *)
Theorem C3_id_and_shard_key_never_flagged :
  Forall keyNonEmpty icur ->
  exists F out,
    GetIndexesFromCollection verbose client collection = Return (F, None) out
    /\ forall D, In D F ->
         KeyString D = "{ _id: 1 }"%string \/ IsShardKey D = true ->
         IsDupped D = false.
Proof.
  intros Hkeys.
  destruct (run_returns verbose client collection icur listing Hkeys)
    as [outS [outR [_ Hrun]]].
  eexists. eexists. split; [exact Hrun|].
  intros D HD Hex. apply In_nth_error in HD. destruct HD as [i Hi].
  eapply pass_exempt_unflagged; [|exact Hi|now apply exempt_true].
  apply sortedOf_Forall, normalizedOf_unflagged.
Qed.

(** C4, as amended. Two indexes I and J of a collection with the same
    KeyString are not a duplicate pair of each other: when I is flagged,
    it is on account of a third index O, with another KeyString, that
    covers I and is not yet flagged when I is examined. *)
Theorem C4_same_key_string_not_a_pair :
  Forall keyNonEmpty icur ->
  exists F out,
    GetIndexesFromCollection verbose client collection = Return (F, None) out
    /\ forall i j I J,
         i <> j -> nth_error F i = Some I -> nth_error F j = Some J ->
         KeyString I = KeyString J ->
         IsDupped I = true ->
         exists k O, k <> i /\ k <> j /\ nth_error F k = Some O
                     /\ KeyString O <> KeyString I
                     /\ ((k < i)%nat -> IsDupped O = false)
                     /\ covers I O.
Proof.
  intros Hkeys.
  destruct (run_returns verbose client collection icur listing Hkeys)
    as [outS [outR [_ Hrun]]].
  eexists. eexists. split; [exact Hrun|].
  intros i j I J Hij HI HJ Hks Hdup.
  assert (Hun : Forall (fun o : Index => IsDupped o = false) (sortedOf client collection icur))
    by apply sortedOf_Forall, normalizedOf_unflagged.
  destruct (exempt I) eqn:Hex.
  { rewrite (pass_exempt_unflagged _ Hun i I HI Hex) in Hdup. discriminate. }
  destruct (proj1 (pass_flagged_iff _ Hun i I HI Hex) Hdup)
    as [k [O [Hki [HO [Hfl Hcov]]]]].
  exists k, O.
  assert (HkO : KeyString O <> KeyString I) by (destruct Hcov as [_ [H _]]; exact H).
  split; [exact Hki|]. split.
  { intros ->. rewrite HJ in HO. inversion HO; subst. congruence. }
  repeat (split; [assumption|]). exact Hcov.
Qed.

(** C7. The list returned for a collection is in ascending order of
    EffectiveKey: of two consecutive indexes the second has an
    EffectiveKey that is not smaller. The duplicate pass is run on the
    sorted list, index by index, and leaves every EffectiveKey where the
    sort put it. *)
Theorem C7_sorted_by_EffectiveKey :
  Forall keyNonEmpty icur ->
  exists F out,
    GetIndexesFromCollection verbose client collection = Return (F, None) out
    /\ (forall i a b,
          nth_error F i = Some a -> nth_error F (S i) = Some b ->
          String.leb (EffectiveKey a) (EffectiveKey b) = true)
    /\ exists S0 out',
         Permutation (normalizedOf client collection icur) S0
         /\ Sorted (fun a b => lessEffectiveKey b a = false) S0
         /\ flagLoop (GetShardsCount client) S0 = Return F out'
         /\ map EffectiveKey F = map EffectiveKey S0.
Proof.
  intros Hkeys.
  destruct (run_returns verbose client collection icur listing Hkeys)
    as [outS [outR [_ Hrun]]].
  pose proof (sort_Slice_sorts _ _ (@lessEffectiveKey_order V)
                (normalizedOf client collection icur)) as Hsorted.
  fold (sortedOf client collection icur) in Hsorted.
  pose proof (pass_EffectiveKey (sortedOf client collection icur)) as Hek.
  destruct (flagLoop_pass (GetShardsCount client) (sortedOf client collection icur))
    as [out' Hloop].
  { apply sortedOf_Forall, normalizedOf_nonEmpty. exact Hkeys. }
  eexists. eexists. split; [exact Hrun|]. split.
  - intros i a b Ha Hb.
    assert (Ha' : nth_error (map EffectiveKey (pass [] (sortedOf client collection icur))) i
                  = Some (EffectiveKey a)) by (rewrite nth_error_map, Ha; reflexivity).
    assert (Hb' : nth_error (map EffectiveKey (pass [] (sortedOf client collection icur))) (S i)
                  = Some (EffectiveKey b)) by (rewrite nth_error_map, Hb; reflexivity).
    rewrite Hek, nth_error_map in Ha', Hb'.
    destruct (nth_error (sortedOf client collection icur) i) as [a0|] eqn:Ha0;
      [|discriminate].
    destruct (nth_error (sortedOf client collection icur) (S i)) as [b0|] eqn:Hb0;
      [|discriminate].
    simpl in Ha', Hb'. inversion Ha'. inversion Hb'.
    pose proof (Sorted_consecutive _ _ Hsorted i a0 b0 Ha0 Hb0) as Hle.
    unfold lessEffectiveKey, less in Hle.
    rewrite leb_not_ltb, Hle. reflexivity.
  - exists (sortedOf client collection icur), out'.
    split; [apply sort_Slice_permutes|].
    split; [exact Hsorted|]. split; [exact Hloop|exact Hek].
Qed.


End Claims.

(** ** Failures and preconditions *)

Section Failures.

Context {V : Type} `{SV : Sprinter V} `{GS : GoSort}.

Abbreviation Index := (Index V).
Abbreviation IndexSpec := (IndexSpec V).
Abbreviation Client := (Client V).

Lemma flagOne_Usage st (o : Index) : Usage (flagOne st o) = Usage o.
Proof. unfold flagOne. now destruct (exempt o). Qed.

Lemma flagOne_TotalOps st (o : Index) : TotalOps (flagOne st o) = TotalOps o.
Proof. unfold flagOne. now destruct (exempt o). Qed.

Lemma pass_In_inv (S0 : list Index) (D : Index) :
  In D (pass [] S0) -> exists st o, In o S0 /\ D = flagOne st o.
Proof.
  intros HD. apply In_nth_error in HD. destruct HD as [i Hi].
  destruct (pass_nth_inv S0 i D Hi) as [o [Ho HDo]].
  eexists. exists o. split; [eapply nth_error_In; eauto|exact HDo].
Qed.

Lemma returned_from_normalized client collection icur (D : Index) :
  In D (pass [] (sortedOf client collection icur)) ->
  exists st o, In o (normalizedOf client collection icur) /\ D = flagOne st o.
Proof.
  intros HD. destruct (pass_In_inv _ D HD) as [st [o [Ho HDo]]].
  exists st, o. split; [|exact HDo].
  eapply Permutation_in; [|exact Ho].
  apply Permutation_sym, sort_Slice_permutes.
Qed.



(** C10. Normalisation and duplicate detection need every decoded index
    to have a non-empty key specification. Under that precondition the
    collector returns: the slice expression on every KeyString and the
    first-field accesses are in bounds. With a decoded index whose key
    specification is empty ( KeyString is the empty string) the slice
    bounds are violated and the collector panics. *)
Theorem C10_non_empty_key_precondition
    (verbose : bool) (client : Client) (collection : mongo.Collection)
    (icur : list (error + IndexSpec)) :
  ListIndexes client (mongo.DatabaseName collection)
    (mongo.CollectionName collection) = inr icur ->
  (Forall keyNonEmpty icur ->
   exists F out,
     GetIndexesFromCollection verbose client collection = Return (F, None) out
     /\ forall D, In D F ->
          (exists inner, slice (KeyString D) 2 (len (KeyString D) - 2) = Some inner)
          /\ (exists f, nth_error (Fields D) 0 = Some f))
  /\ (Exists keyEmpty icur ->
      GetIndexesFromCollection verbose client collection
      = Panic SliceBoundsOutOfRange)
  /\ (forall ns usage d,
        specKey d = [] ->
        fst (renderKey (specKey d)) = [] /\ snd (renderKey (specKey d)) = ""%string
        /\ slice "" 2 (len "" - 2) = None
        /\ normalize client verbose ns usage (decodeIndex d)
           = Panic SliceBoundsOutOfRange).
Proof.
  intros Hl. split; [|split].
  - intros Hkeys.
    destruct (run_returns verbose client collection icur Hl Hkeys)
      as [outS [outR [_ Hrun]]].
    eexists. eexists. split; [exact Hrun|].
    intros D HD.
    destruct (returned_from_normalized client collection icur D HD)
      as [st [o [Ho ->]]].
    rewrite flagOne_KeyString, flagOne_Fields.
    pose proof (normalizedOf_nonEmpty client collection icur Hkeys) as Hne.
    rewrite Forall_forall in Hne. specialize (Hne o Ho).
    unfold normalizedOf in Ho. apply in_map_iff in Ho.
    destruct Ho as [d [<- _]].
    match goal with
    | |- context [KeyString (normalized ?c ?n ?u ?x)] =>
        destruct (normalized_facts c n u x) as [_ [HK _]]
    end.
    cbv zeta in HK. rewrite HK. split.
    + eexists. apply slice_braces.
    + unfold nonEmptyFields in Hne.
      match type of Hne with
      | Fields ?x <> [] => destruct (Fields x) as [|f fs]; [congruence|]
      end.
      now exists f.
  - intros Hex. now apply run_panics with (icur := icur).
  - intros ns usage d Hd. rewrite Hd. repeat split.
    apply normalize_Panic. exact Hd.
Qed.

(** C8. For an index with a non-empty key specification, KeyString is
    "{ " followed by the components joined by ", " and by " }";
    the slice expression takes off exactly these two braces, and
    EffectiveKey is what strings.Replace makes of the rest with ": -1"
    replaced by ": 1". Consequently two indexes whose key specifications
    differ in direction only (1 against -1) get the same EffectiveKey,
    and distinct KeyStrings as soon as one direction differs. *)
Theorem C8_EffectiveKey_of_KeyString
    (verbose : bool) (client : Client) (ns : string)
    (usage : list IndexUsage.t) :
  (forall d : IndexSpec,
     specKey d <> [] ->
     exists o out,
       normalize client verbose ns usage (decodeIndex d) = Return o out
       /\ KeyString o = ("{ " ++ keyBody (specKey d) ++ " }")%string
       /\ slice (KeyString o) 2 (len (KeyString o) - 2) = Some (keyBody (specKey d))
       /\ EffectiveKey o = ReplaceAll (keyBody (specKey d)) ": -1" ": 1")
  /\ (forall d d' : IndexSpec,
        specKey d <> [] ->
        Forall2 sameButDirection (specKey d) (specKey d') ->
        exists o o' out out',
          normalize client verbose ns usage (decodeIndex d) = Return o out
          /\ normalize client verbose ns usage (decodeIndex d') = Return o' out'
          /\ EffectiveKey o = EffectiveKey o'
          /\ (directions (specKey d) <> directions (specKey d') ->
              KeyString o <> KeyString o')).
Proof.
  assert (Hone : forall d : IndexSpec,
            specKey d <> [] ->
            exists o out,
              normalize client verbose ns usage (decodeIndex d) = Return o out
              /\ KeyString o = ("{ " ++ keyBody (specKey d) ++ " }")%string
              /\ EffectiveKey o = ReplaceAll (keyBody (specKey d)) ": -1" ": 1").
  { intros d Hd.
    destruct (normalize_Return client verbose ns usage (decodeIndex d) Hd)
      as [out Hn].
    destruct (normalized_facts client ns usage (decodeIndex d))
      as [_ [HK [HE _]]].
    eexists. exists out. split; [exact Hn|]. split; [exact HK|exact HE]. }
  split.
  - intros d Hd. destruct (Hone d Hd) as [o [out [Hn [HK HE]]]].
    exists o, out. split; [exact Hn|]. split; [exact HK|].
    split; [|exact HE]. rewrite HK. apply slice_braces.
  - intros d d' Hd Hrel.
    assert (Hd' : specKey d' <> []).
    { destruct Hrel; [congruence|discriminate]. }
    destruct (Hone d Hd) as [o [out [Hn [HK HE]]]].
    destruct (Hone d' Hd') as [o' [out' [Hn' [HK' HE']]]].
    exists o, o', out, out'.
    split; [exact Hn|]. split; [exact Hn'|]. split.
    + rewrite HE, HE'.
      exact (ascending_keyBody_directions _ _ Hrel).
    + intros Hdir Heq. apply Hdir.
      rewrite HK, HK' in Heq.
      exact (braces_directions _ _ Hd Hrel Heq).
Qed.

End Failures.

(** C5. For a file name that ends in neither "-index.bson.gz" nor
    "-stats.bson.gz", SetClusterDetailsFromFile returns the error
    "unsupported file type": no file is opened, nothing is read or
    decoded, and the receiver is as it was. *)
Theorem C5_unsupported_file_type {V : Type}
    (fs : Files V) (ix : IndexStats V) (filename : string) :
  HasSuffix filename "-index.bson.gz" = false ->
  HasSuffix filename "-stats.bson.gz" = false ->
  SetClusterDetailsFromFile fs ix filename
  = Return (ix, Some "unsupported file type"%string) [].
Proof.
  intros H1 H2. unfold SetClusterDetailsFromFile.
  rewrite H1, H2. reflexivity.
Qed.

(** ** Runs on the sample collections *)

Module Scenarios.

Import Sample.

Ltac keys_non_empty :=
  repeat (constructor; [simpl; discriminate|]); constructor.

Example scenario_A :
  returned (GetIndexesFromCollection false (cluster noStats (inr cursorA)) orders)
  = Some ([("{ _id: 1 }", "_id: 1", false);
           ("{ a: 1 }", "a: 1", true);
           ("{ a: 1, b: 1 }", "a: 1, b: 1", false)], None).
Proof. vm_compute. reflexivity. Qed.

Example scenario_B :
  returned (GetIndexesFromCollection false (cluster noStats (inr cursorB)) orders)
  = Some ([("{ a: 1, b: 1 }", "a: 1, b: 1", false);
           ("{ b: 1, a: 1 }", "b: 1, a: 1", false)], None).
Proof. vm_compute. reflexivity. Qed.

Example scenario_C :
  returned (GetIndexesFromCollection false (cluster noStats (inr cursorC)) orders)
  = Some ([("{ a: 1, b: 1, c: 1 }", "a: 1, b: 1, c: 1", false);
           ("{ a: 1, c: 1 }", "a: 1, c: 1", true)], None).
Proof. vm_compute. reflexivity. Qed.

Example scenario_D {V} (fs : Files V) (ix : IndexStats V) :
  SetClusterDetailsFromFile fs ix "snapshot.txt"
  = Return (ix, Some "unsupported file type") [].
Proof. reflexivity. Qed.

Lemma C1_witness :
  Forall keyNonEmpty cursorA
  /\ exists F out,
       GetIndexesFromCollection false (cluster noStats (inr cursorA)) orders
       = Return (F, None) out
       /\ (forall i D,
             nth_error F i = Some D ->
             KeyString D <> "{ _id: 1 }"%string -> IsShardKey D = false ->
             (IsDupped D = true <->
              exists j O, j <> i /\ nth_error F j = Some O
                          /\ ((j < i)%nat -> IsDupped O = false)
                          /\ covers D O))
       /\ exists S0 out0,
            Permutation (normalizedOf (cluster noStats (inr cursorA)) orders cursorA) S0
            /\ Sorted (fun a b => lessEffectiveKey b a = false) S0
            /\ map (fun D => setIsDupped D false) F = S0
            /\ flagLoop (GetShardsCount (cluster noStats (inr cursorA))) S0
               = Return F out0
            /\ forall i D,
                 nth_error F i = Some D ->
                 KeyString D <> "{ _id: 1 }"%string -> IsShardKey D = false ->
                 exists St out',
                   flagFrom (GetShardsCount (cluster noStats (inr cursorA)))
                     (seq 0 i) S0 = Return St out'
                   /\ (IsDupped D = true <->
                       exists j O, nth_error St j = Some O
                                   /\ IsDupped O = false /\ covers D O).
Proof.
  split; [keys_non_empty|].
  apply (C1_flagged_iff_covered false (cluster noStats (inr cursorA)) orders cursorA).
  - reflexivity.
  - keys_non_empty.
Defined.

Lemma C3_witness :
  Forall keyNonEmpty cursorA
  /\ exists F out,
       GetIndexesFromCollection false (cluster noStats (inr cursorA)) orders
       = Return (F, None) out
       /\ forall D, In D F ->
            KeyString D = "{ _id: 1 }"%string \/ IsShardKey D = true ->
            IsDupped D = false.
Proof.
  split; [keys_non_empty|].
  apply (C3_id_and_shard_key_never_flagged false
           (cluster noStats (inr cursorA)) orders cursorA).
  - reflexivity.
  - keys_non_empty.
Defined.

(** C4, as stated, fails: of two indexes with different names on the
    same key [{a:1}] neither is flagged. *)
Lemma C4_counterexample :
  exists F out I J,
    GetIndexesFromCollection false (cluster noStats (inr cursorTwins)) orders
    = Return (F, None) out
    /\ F = [I; J]
    /\ Name I <> Name J
    /\ KeyString I = KeyString J
    /\ IsDupped I = false /\ IsDupped J = false.
Proof.
  eexists. eexists. eexists. eexists.
  split; [vm_compute; reflexivity|].
  split; [reflexivity|].
  split; [discriminate|].
  repeat split.
Qed.

Lemma C4_witness :
  Forall keyNonEmpty cursorTwinsCovered
  /\ exists F out,
       GetIndexesFromCollection false
         (cluster noStats (inr cursorTwinsCovered)) orders
       = Return (F, None) out
       /\ forall i j I J,
            i <> j -> nth_error F i = Some I -> nth_error F j = Some J ->
            KeyString I = KeyString J ->
            IsDupped I = true ->
            exists k O, k <> i /\ k <> j /\ nth_error F k = Some O
                        /\ KeyString O <> KeyString I
                        /\ ((k < i)%nat -> IsDupped O = false)
                        /\ covers I O.
Proof.
  split; [keys_non_empty|].
  apply (C4_same_key_string_not_a_pair false
           (cluster noStats (inr cursorTwinsCovered)) orders cursorTwinsCovered).
  - reflexivity.
  - keys_non_empty.
Defined.

Example twins_covered :
  returned (GetIndexesFromCollection false
              (cluster noStats (inr cursorTwinsCovered)) orders)
  = Some ([("{ a: 1 }", "a: 1", true);
           ("{ a: 1 }", "a: 1", true);
           ("{ a: 1, b: 1 }", "a: 1, b: 1", false)], None).
Proof. vm_compute. reflexivity. Qed.

Lemma C7_witness :
  Forall keyNonEmpty cursorC
  /\ exists F out,
       GetIndexesFromCollection false (cluster noStats (inr cursorC)) orders
       = Return (F, None) out
       /\ (forall i a b,
             nth_error F i = Some a -> nth_error F (S i) = Some b ->
             String.leb (EffectiveKey a) (EffectiveKey b) = true)
       /\ exists S0 out',
            Permutation
              (normalizedOf (cluster noStats (inr cursorC)) orders cursorC) S0
            /\ Sorted (fun a b => lessEffectiveKey b a = false) S0
            /\ flagLoop (GetShardsCount (cluster noStats (inr cursorC))) S0
               = Return F out'
            /\ map EffectiveKey F = map EffectiveKey S0.
Proof.
  split; [keys_non_empty|].
  apply (C7_sorted_by_EffectiveKey false (cluster noStats (inr cursorC)) orders cursorC).
  - reflexivity.
  - keys_non_empty.
Defined.


Example mirror_pair_keeps_one :
  returned (GetIndexesFromCollection false (cluster noStats (inr cursorMirror)) orders)
  = Some ([("{ a: 1, b: -1 }", "a: 1, b: 1", true);
           ("{ a: 1, b: 1 }", "a: 1, b: 1", false)], None).
Proof. vm_compute. reflexivity. Qed.


Example usage_failure_run :
  GetIndexesFromCollection false (cluster usageFails (inr cursorB)) orders
  = Return
      ([normalized (cluster usageFails (inr cursorB)) "shop.orders" []
          (decodeIndex (spec "a_1_b_1" [("a", 1%Z); ("b", 1%Z)]));
        normalized (cluster usageFails (inr cursorB)) "shop.orders" []
          (decodeIndex (spec "b_1_a_1" [("b", 1%Z); ("a", 1%Z)]))],
       None)
      [LoggerAdd "GetIndexesFromCollection from shop.orders";
       LogPrintln ["not authorized to run $indexStats"%string];
       LogPrintln ["a: 1, b: 1"%string];
       LogPrintln ["b: 1, a: 1"%string]].
Proof. vm_compute. reflexivity. Qed.

Lemma C10_witness :
  (exists F out,
     GetIndexesFromCollection false (cluster noStats (inr cursorA)) orders
     = Return (F, None) out
     /\ forall D, In D F ->
          (exists inner, slice (KeyString D) 2 (len (KeyString D) - 2) = Some inner)
          /\ (exists f, nth_error (Fields D) 0 = Some f))
  /\ GetIndexesFromCollection false (cluster noStats (inr cursorEmptyKey)) orders
     = Panic SliceBoundsOutOfRange.
Proof.
  split.
  - apply (proj1 (C10_non_empty_key_precondition false
                    (cluster noStats (inr cursorA)) orders cursorA eq_refl)).
    keys_non_empty.
  - apply (proj1 (proj2 (C10_non_empty_key_precondition false
                    (cluster noStats (inr cursorEmptyKey)) orders
                    cursorEmptyKey eq_refl))).
    right. left. eexists. split; reflexivity.
Defined.

Lemma C8_witness :
  exists o o' out out',
    normalize (cluster noStats (inr cursorA)) false "shop.orders" []
      (decodeIndex up_up) = Return o out
    /\ normalize (cluster noStats (inr cursorA)) false "shop.orders" []
         (decodeIndex up_down) = Return o' out'
    /\ EffectiveKey o = EffectiveKey o'
    /\ (directions (specKey up_up) <> directions (specKey up_down) ->
        KeyString o <> KeyString o').
Proof.
  apply (proj2 (C8_EffectiveKey_of_KeyString false
                  (cluster noStats (inr cursorA)) "shop.orders" []) up_up up_down).
  - discriminate.
  - constructor; [split; [reflexivity|left; reflexivity]|].
    constructor; [split; [reflexivity|right; left; split; reflexivity]|].
    constructor.
Defined.

Example direction_pair :
  forall o o' out out',
    normalize (cluster noStats (inr cursorA)) false "shop.orders" []
      (decodeIndex up_up) = Return o out ->
    normalize (cluster noStats (inr cursorA)) false "shop.orders" []
      (decodeIndex up_down) = Return o' out' ->
    KeyString o = "{ a: 1, b: 1 }"%string
    /\ KeyString o' = "{ a: 1, b: -1 }"%string
    /\ EffectiveKey o = "a: 1, b: 1"%string
    /\ EffectiveKey o' = "a: 1, b: 1"%string.
Proof.
  intros o o' out out' H H'. vm_compute in H, H'.
  inversion H. inversion H'. repeat split.
Qed.

Lemma C5_witness :
  SetClusterDetailsFromFile noFiles emptyStats "snapshot.txt"
  = Return (emptyStats, Some "unsupported file type"%string) [].
Proof.
  apply (C5_unsupported_file_type noFiles emptyStats "snapshot.txt");
    reflexivity.
Defined.

(** With a recognised suffix the file is opened. *)
Example recognised_suffix_opens :
  SetClusterDetailsFromFile noFiles emptyStats "host-index.bson.gz"
  = Return (emptyStats, Some "no such file or directory"%string)
      [OpenFile "host-index.bson.gz"].
Proof. reflexivity. Qed.

End Scenarios.

Section ReturnedList.

Context {V : Type} `{SV : Sprinter V} `{GS : GoSort}.

Abbreviation Index := (Index V).
Abbreviation IndexSpec := (IndexSpec V).
Abbreviation Client := (Client V).

Lemma specOf_flagOne st (o : Index) : specOf (flagOne st o) = specOf o.
Proof. unfold flagOne. now destruct (exempt o). Qed.

Lemma specOf_fold_usageStep (stats : list IndexUsage.t) : forall o : Index,
  specOf (fold_left usageStep stats o) = specOf o.
Proof.
  induction stats as [|u stats IH]; intros o; [reflexivity|].
  simpl. rewrite IH. unfold usageStep.
  now destruct (String.eqb (IndexUsage.Name u) (Name o)).
Qed.

Lemma specOf_normalized client ns stats (d : IndexSpec) :
  specOf (normalized client ns stats (decodeIndex d)) = d.
Proof.
  unfold normalized, mergeUsage. rewrite specOf_fold_usageStep.
  unfold marked, rendered. cbn [Key setKeyString setFields decodeIndex].
  destruct (FindShardKey client ns (specKey d)); now destruct d.
Qed.

Lemma pass_map_invariant {B} (g : Index -> B) (S0 : list Index) :
  (forall st o, g (flagOne st o) = g o) ->
  map g (pass [] S0) = map g S0.
Proof.
  intros Hg. apply nth_error_ext. intros i. rewrite !nth_error_map.
  destruct (nth_error S0 i) as [o|] eqn:Ho.
  - rewrite (pass_nth S0 i o Ho). simpl. now rewrite Hg.
  - apply nth_error_None in Ho. rewrite <- (pass_length S0) in Ho.
    apply nth_error_None in Ho. now rewrite Ho.
Qed.

Lemma normalizedOf_specs client collection (icur : list (error + IndexSpec)) :
  map specOf (normalizedOf client collection icur) = decoded icur.
Proof.
  unfold normalizedOf. rewrite map_map.
  rewrite (map_ext _ (fun d => d)) by (intros d; apply specOf_normalized).
  apply map_id.
Qed.

Lemma indexLoop_logs client verbose ns stats (cursor : list (error + IndexSpec)) :
  forall lst l out err,
    indexLoop client verbose ns stats cursor lst = Return l out ->
    In (inl err) cursor -> In (LogPrintln [err]) out.
Proof.
  induction cursor as [|item rest IH]; intros lst l out err Hrun Hin.
  - inversion Hin.
  - destruct item as [e|d]; cbn [indexLoop] in Hrun;
      apply bind_Return_inv in Hrun;
      destruct Hrun as [a [out1 [out2 [H1 [H2 ->]]]]].
    + destruct Hin as [Heq|Hin].
      * inversion Heq; subst e. unfold emit in H1. inversion H1; subst.
        now left.
      * apply in_or_app. right. eapply IH; eauto.
    + destruct Hin as [Heq|Hin]; [discriminate|].
      apply in_or_app. right. eapply IH; eauto.
Qed.


Variable verbose : bool.
Variable client : Client.
Variable collection : mongo.Collection.
Variable icur : list (error + IndexSpec).

Hypothesis listing :
  ListIndexes client (mongo.DatabaseName collection)
    (mongo.CollectionName collection) = inr icur.

Lemma run_returns_logs :
  Forall keyNonEmpty icur ->
  exists outS out1 out2,
    indexLoop client verbose
      (mongo.DatabaseName collection ++ "." ++ mongo.CollectionName collection)%string
      (usageOf client collection) icur []
    = Return (normalizedOf client collection icur) out1
    /\ GetIndexesFromCollection verbose client collection
       = Return (pass [] (sortedOf client collection icur), None)
           ([LoggerAdd ("GetIndexesFromCollection from "
                        ++ mongo.DatabaseName collection ++ "."
                        ++ mongo.CollectionName collection)%string]
            ++ outS ++ out1 ++ out2).
Proof.
  intros Hall.
  destruct (usagePhase_Return client collection) as [outS HS].
  destruct (indexLoop_Return client verbose
              (mongo.DatabaseName collection ++ "." ++ mongo.CollectionName collection)%string
              (usageOf client collection) icur [] Hall) as [out1 H1].
  destruct (flagLoop_pass (GetShardsCount client) (sortedOf client collection icur))
    as [out2 H2].
  { apply sortedOf_Forall, normalizedOf_nonEmpty. exact Hall. }
  rewrite app_nil_l in H1.
  exists outS, out1, out2. split; [exact H1|].
  unfold GetIndexesFromCollection. fold (usagePhase client collection).
  rewrite listing, HS. cbn [bind emit]. rewrite H1.
  unfold sortedOf, normalizedOf in H2. cbn [bind]. rewrite H2.
  unfold ret. cbn [bind app]. now rewrite app_nil_r.
Qed.

(** X1. The returned list holds the index definitions of the cursor that
    decode, each once and with every option as listed; a document that
    does not decode is left out and its error is logged. *)
Theorem returned_indexes_are_the_listing :
  Forall keyNonEmpty icur ->
  exists F out,
    GetIndexesFromCollection verbose client collection = Return (F, None) out
    /\ Permutation (map specOf F) (decoded icur)
    /\ List.length F = List.length (decoded icur)
    /\ forall err, In (inl err) icur -> In (LogPrintln [err]) out.
Proof.
  intros Hkeys.
  destruct (run_returns_logs Hkeys) as [outS [out1 [out2 [Hloop Hrun]]]].
  assert (Hperm : Permutation (map specOf (pass [] (sortedOf client collection icur)))
                    (decoded icur)).
  { rewrite (pass_map_invariant specOf) by apply specOf_flagOne.
    rewrite <- (normalizedOf_specs client collection icur).
    apply Permutation_map, Permutation_sym. unfold sortedOf.
    apply sort_Slice_permutes. }
  eexists. eexists. split; [exact Hrun|]. split; [exact Hperm|]. split.
  - rewrite <- (length_map specOf). now apply Permutation_length.
  - intros err Hin. apply in_or_app. right. apply in_or_app. right.
    apply in_or_app. left. eapply indexLoop_logs; eauto.
Qed.

Lemma wrapInt_add_l (a b : Z) : wrapInt (wrapInt a + b) = wrapInt (a + b).
Proof.
  unfold wrapInt.
  replace ((a + 2 ^ 63) mod 2 ^ 64 - 2 ^ 63 + b + 2 ^ 63)%Z
    with ((a + 2 ^ 63) mod 2 ^ 64 + b)%Z by lia.
  rewrite Z.add_mod_idemp_l; [|try (intro H; discriminate H)..].
  do 2 f_equal. lia.
Qed.

Lemma wrapInt_idem (a : Z) : wrapInt (wrapInt a) = wrapInt a.
Proof.
  pose proof (wrapInt_add_l a 0) as H. now rewrite !Z.add_0_r in H.
Qed.

Lemma fold_wrapInt (l : list IndexUsage.t) : forall a,
  wrapInt a = a ->
  fold_left (fun acc u => wrapInt (acc + Ops (IndexUsage.Accesses u))) l a
  = wrapInt (a + sumOps l).
Proof.
  induction l as [|u l IH]; intros a Ha.
  - simpl. now rewrite Z.add_0_r.
  - cbn [fold_left sumOps fold_right].
    rewrite IH by apply wrapInt_idem.
    rewrite wrapInt_add_l. f_equal. unfold sumOps. lia.
Qed.

Lemma fold_usageStep_usage (stats : list IndexUsage.t) : forall o : Index,
  Usage (fold_left usageStep stats o) = Usage o ++ usageNamed (Name o) stats
  /\ TotalOps (fold_left usageStep stats o)
     = fold_left (fun acc u => wrapInt (acc + Ops (IndexUsage.Accesses u)))
         (usageNamed (Name o) stats) (TotalOps o).
Proof.
  induction stats as [|u stats IH]; intros o.
  - simpl. now rewrite app_nil_r.
  - cbn [fold_left usageNamed filter]. destruct (IH (usageStep o u)) as [HU HT].
    rewrite HU, HT. unfold usageStep.
    destruct (String.eqb (IndexUsage.Name u) (Name o)) eqn:Hn.
    + cbn [Usage TotalOps Name setUsage setTotalOps fold_left].
      split; [now rewrite <- app_assoc|reflexivity].
    + split; reflexivity.
Qed.

Lemma normalized_usage c ns stats (d : IndexSpec) :
  let r := normalized c ns stats (decodeIndex d) in
  Usage r = usageNamed (Name r) stats
  /\ TotalOps r = wrapInt (sumOps (Usage r)).
Proof.
  cbv zeta.
  destruct (normalized_facts c ns stats (decodeIndex d))
    as [_ [_ [_ [_ [_ [_ HN]]]]]].
  cbv zeta in HN. rewrite HN.
  unfold normalized, mergeUsage.
  match goal with
  | |- context [fold_left usageStep stats ?o] =>
      destruct (fold_usageStep_usage stats o) as [HU HT];
      assert (HName : Name o = specName d);
      [unfold marked, rendered; cbn [Key setKeyString setFields decodeIndex];
       now destruct (FindShardKey c ns (specKey d))|];
      assert (HU0 : Usage o = []) by reflexivity;
      assert (HT0 : TotalOps o = 0%Z);
      [unfold marked, rendered; cbn [Key setKeyString setFields decodeIndex];
       now destruct (FindShardKey c ns (specKey d))|]
  end.
  rewrite HU, HT, HName, HU0, HT0. cbn [app Name decodeIndex].
  split; [reflexivity|].
  now rewrite fold_wrapInt by reflexivity.
Qed.

(** X2. Every index of the returned list has as Usage the usage records
    that carry its name, in the order of the usage cursor, and as
    TotalOps the sum of their operation counts, wrapped to 64 bits. *)
Theorem returned_usage_is_by_name :
  Forall keyNonEmpty icur ->
  exists F out,
    GetIndexesFromCollection verbose client collection = Return (F, None) out
    /\ forall D, In D F ->
         Usage D = usageNamed (Name D) (usageOf client collection)
         /\ TotalOps D = wrapInt (sumOps (Usage D)).
Proof.
  intros Hkeys.
  destruct (run_returns verbose client collection icur listing Hkeys)
    as [outS [outR [_ Hrun]]].
  eexists. eexists. split; [exact Hrun|].
  intros D HD.
  destruct (returned_from_normalized client collection icur D HD)
    as [st [o [Ho ->]]].
  rewrite flagOne_Usage, flagOne_TotalOps.
  assert (HN : Name (flagOne st o) = Name o)
    by (unfold flagOne; now destruct (exempt o)).
  rewrite HN.
  unfold normalizedOf in Ho. apply in_map_iff in Ho.
  destruct Ho as [d [<- _]].
  apply normalized_usage.
Qed.

(** X3. Every index of the returned list is consistent with its key
    specification: Fields are the field names of Key in order, KeyString
    and EffectiveKey are the renderings of Key, and IsShardKey is the
    answer of the shard-key registry for the namespace and Key. *)
Theorem returned_indexes_are_consistent :
  Forall keyNonEmpty icur ->
  exists F out,
    GetIndexesFromCollection verbose client collection = Return (F, None) out
    /\ forall D, In D F ->
         Key D <> []
         /\ Fields D = map bson.Key (Key D)
         /\ KeyString D = ("{ " ++ keyBody (Key D) ++ " }")%string
         /\ EffectiveKey D = ReplaceAll (keyBody (Key D)) ": -1" ": 1"
         /\ IsShardKey D
            = FindShardKey client
                (mongo.DatabaseName collection ++ "."
                 ++ mongo.CollectionName collection)%string (Key D).
Proof.
  intros Hkeys.
  destruct (run_returns verbose client collection icur listing Hkeys)
    as [outS [outR [_ Hrun]]].
  eexists. eexists. split; [exact Hrun|].
  intros D HD.
  destruct (returned_from_normalized client collection icur D HD)
    as [st [o [Ho ->]]].
  assert (HK : Key (flagOne st o) = Key o)
    by (unfold flagOne; now destruct (exempt o)).
  rewrite flagOne_Fields, flagOne_KeyString, flagOne_EffectiveKey,
    flagOne_IsShardKey, HK.
  pose proof (normalizedOf_nonEmpty client collection icur Hkeys) as Hne.
  rewrite Forall_forall in Hne. specialize (Hne o Ho).
  unfold normalizedOf in Ho. apply in_map_iff in Ho.
  destruct Ho as [d [<- _]].
  match goal with
  | |- context [Key (normalized ?c ?n ?u ?x)] =>
      destruct (normalized_facts c n u x) as [HF [HS [HE [_ [HI [HKey _]]]]]]
  end.
  cbv zeta in *. unfold nonEmptyFields in Hne.
  rewrite HF, HS, HE, HI, HKey in *. cbn [Key IsShardKey decodeIndex] in *.
  rewrite orb_false_r. repeat split.
  intros Hk. rewrite Hk in Hne. now apply Hne.
Qed.

(** X4. The most specific index survives: an index that has more fields
    than every other index of the returned list with the same first
    field is not flagged duplicate. *)
Theorem longest_index_is_not_flagged :
  Forall keyNonEmpty icur ->
  exists F out,
    GetIndexesFromCollection verbose client collection = Return (F, None) out
    /\ forall i D,
         nth_error F i = Some D ->
         (forall j O, j <> i -> nth_error F j = Some O ->
                      nth_error (Fields O) 0 = nth_error (Fields D) 0 ->
                      (List.length (Fields O) < List.length (Fields D))%nat) ->
         IsDupped D = false.
Proof.
  intros Hkeys.
  destruct (run_returns verbose client collection icur listing Hkeys)
    as [outS [outR [_ Hrun]]].
  assert (Hun : Forall (fun o : Index => IsDupped o = false)
                  (sortedOf client collection icur))
    by apply sortedOf_Forall, normalizedOf_unflagged.
  eexists. eexists. split; [exact Hrun|].
  intros i D HD Hlong.
  destruct (exempt D) eqn:Hex.
  { exact (pass_exempt_unflagged _ Hun i D HD Hex). }
  destruct (IsDupped D) eqn:Hdup; [|reflexivity].
  destruct (proj1 (pass_flagged_iff _ Hun i D HD Hex) Hdup)
    as [j [O [Hji [HO [_ Hcov]]]]].
  destruct Hcov as [[f [Hf1 Hf2]] [_ [Hlen _]]].
  assert (Hlt := Hlong j O Hji HO ltac:(congruence)). lia.
Qed.

End ReturnedList.

(** ** The result and the sort *)

Lemma ltb_antisym_eq (x y : string) :
  String.ltb x y = false -> String.ltb y x = false -> x = y.
Proof.
  unfold String.ltb. intros Hxy Hyx.
  rewrite (String.compare_antisym y x) in Hyx.
  destruct (String.compare x y) eqn:C; simpl in *; try discriminate.
  now apply String.compare_eq_iff.
Qed.

Section SortedUnique.

Variable A : Type.
Variable key : A -> string.

Let notAfter (a b : A) : Prop := String.ltb (key b) (key a) = false.

Lemma notAfter_trans a b c : notAfter a b -> notAfter b c -> notAfter a c.
Proof. unfold notAfter. intros Hab Hbc. exact (ltb_neg_trans _ _ _ Hbc Hab). Qed.

Lemma sorted_strongly (l : list A) : Sorted notAfter l -> StronglySorted notAfter l.
Proof.
  apply Sorted_StronglySorted. intros a b c. apply notAfter_trans.
Qed.

(** A list with pairwise distinct keys has one sorted arrangement. *)
Lemma sorted_permutation_unique (l1 : list A) : forall l2,
  Sorted notAfter l1 -> Sorted notAfter l2 ->
  Permutation l1 l2 -> NoDup (map key l1) -> l1 = l2.
Proof.
  induction l1 as [|a l1 IH]; intros l2 H1 H2 Hp Hnd.
  - apply Permutation_nil in Hp. now subst.
  - destruct l2 as [|b l2].
    { apply Permutation_sym, Permutation_nil in Hp. discriminate. }
    assert (Hab : a = b).
    { pose proof (sorted_strongly _ H1) as S1.
      pose proof (sorted_strongly _ H2) as S2.
      inversion S1 as [|? ? _ F1]; subst. inversion S2 as [|? ? _ F2]; subst.
      rewrite Forall_forall in F1, F2.
      inversion Hnd as [|? ? Hnotin _]; subst.
      assert (Hb : In b (a :: l1))
        by (eapply Permutation_in; [apply Permutation_sym; exact Hp|now left]).
      destruct Hb as [Hb|Hb]; [exact Hb|].
      assert (Ha : In a (b :: l2)) by (eapply Permutation_in; [exact Hp|now left]).
      destruct Ha as [Ha|Ha]; [now symmetry|].
      exfalso. apply Hnotin.
      replace (key a) with (key b).
      - now apply in_map.
      - apply ltb_antisym_eq; [apply (F1 b Hb)|apply (F2 a Ha)]. }
    subst b. f_equal.
    apply IH.
    + now inversion H1.
    + now inversion H2.
    + now apply Permutation_cons_inv in Hp.
    + now inversion Hnd.
Qed.

End SortedUnique.

(** A second sort that meets the contract of sort.Slice: insertion sort
    of the reversed slice. It leaves equal elements the other way round. *)
Lemma reversedSort_permutes A (less : A -> A -> bool) (l : list A) :
  Permutation l (insertionSort less (rev l)).
Proof.
  eapply perm_trans; [apply Permutation_rev|]. apply insertionSort_permutes.
Qed.

Lemma reversedSort_sorted A (less : A -> A -> bool) :
  StrictWeakOrder less ->
  forall l, Sorted (fun a b => less b a = false) (insertionSort less (rev l)).
Proof. intros Ho l. now apply insertionSort_sorted. Qed.

Definition ReversedGoSort : GoSort := {|
  sort_Slice := fun A less l => insertionSort less (rev l);
  sort_Slice_permutes := reversedSort_permutes;
  sort_Slice_sorts := reversedSort_sorted
|}.

Section SortIndependence.

Context {V : Type} `{SV : Sprinter V}.

(** X5. When the index definitions of a collection have pairwise distinct
    effective keys, the outcome of GetIndexesFromCollection, log
    included, is the same for every sort that meets the contract of
    sort.Slice. *)
Theorem result_does_not_depend_on_the_sort
    (GS1 GS2 : GoSort) (verbose : bool) (client : Client V)
    (collection : mongo.Collection) (icur : list (error + IndexSpec V)) :
  ListIndexes client (mongo.DatabaseName collection)
    (mongo.CollectionName collection) = inr icur ->
  Forall keyNonEmpty icur ->
  NoDup (map (fun d => ReplaceAll (keyBody (specKey d)) ": -1" ": 1")
             (decoded icur)) ->
  @GetIndexesFromCollection V SV GS1 verbose client collection
  = @GetIndexesFromCollection V SV GS2 verbose client collection.
Proof.
  intros Hl Hkeys Hnd.
  assert (Hkeys' : map EffectiveKey (normalizedOf client collection icur)
                   = map (fun d => ReplaceAll (keyBody (specKey d)) ": -1" ": 1")
                         (decoded icur)).
  { unfold normalizedOf. rewrite map_map. apply map_ext. intros d.
    match goal with
    | |- EffectiveKey (normalized ?c ?n ?u ?x) = _ =>
        destruct (normalized_facts c n u x) as [_ [_ [HE _]]]
    end.
    exact HE. }
  assert (Hsame : @sort_Slice GS1 _ lessEffectiveKey (normalizedOf client collection icur)
                  = @sort_Slice GS2 _ lessEffectiveKey (normalizedOf client collection icur)).
  { apply (sorted_permutation_unique _ EffectiveKey).
    - apply (@sort_Slice_sorts GS1 _ _ (@lessEffectiveKey_order V)).
    - apply (@sort_Slice_sorts GS2 _ _ (@lessEffectiveKey_order V)).
    - eapply perm_trans;
        [apply Permutation_sym, (@sort_Slice_permutes GS1)
        |apply (@sort_Slice_permutes GS2)].
    - eapply Permutation_NoDup;
        [apply Permutation_map, (@sort_Slice_permutes GS1)|].
      rewrite Hkeys'. exact Hnd. }
  destruct (indexLoop_Return client verbose
              (mongo.DatabaseName collection ++ "." ++ mongo.CollectionName collection)%string
              (usageOf client collection) icur [] Hkeys) as [out1 H1].
  rewrite app_nil_l in H1. fold (normalizedOf client collection icur) in H1.
  destruct (usagePhase_Return client collection) as [outS HS].
  unfold GetIndexesFromCollection. fold (usagePhase client collection).
  rewrite Hl, HS. cbn [bind emit]. rewrite H1. cbn [bind].
  now rewrite Hsame.
Qed.

End SortIndependence.

Section CheckIfDupped.

Context {V : Type}.

Abbreviation Index := (Index V).

(** X6. checkIfDupped on indexes that all have a field: it returns
    without a trace, and it returns true exactly when some index of the
    list that is not flagged covers [doc]. The order of the list does
    not matter, and [doc] itself, or an index with its key string, may
    be in the list without effect. *)
Theorem checkIfDupped_decides_covering (doc : Index) (lst : list Index) :
  nonEmptyFields doc -> Forall nonEmptyFields lst ->
  exists b,
    checkIfDupped doc lst = Return b []
    /\ (b = true <->
        exists o, In o lst /\ IsDupped o = false /\ covers doc o)
    /\ (forall lst', Permutation lst lst' -> checkIfDupped doc lst' = Return b [])
    /\ (forall o, nonEmptyFields o -> KeyString o = KeyString doc ->
          checkIfDupped doc (o :: lst) = Return b []).
Proof.
  intros Hdoc Hall. exists (coveredIn doc lst).
  split; [now apply checkIfDupped_Return|]. split; [|split].
  - unfold coveredIn. rewrite existsb_exists. split.
    + intros [o [Ho Hc]]. apply andb_true_iff in Hc. destruct Hc as [Hf Hc].
      exists o. split; [exact Ho|]. split.
      * now apply negb_true_iff in Hf.
      * now apply coversb_covers.
    + intros [o [Ho [Hf Hc]]]. exists o. split; [exact Ho|].
      rewrite Hf. cbn [negb andb]. now apply coversb_covers.
  - intros lst' Hp.
    rewrite checkIfDupped_Return;
      [|exact Hdoc|eapply Permutation_Forall; eauto].
    f_equal. unfold coveredIn.
    destruct (existsb _ lst) eqn:H1; destruct (existsb _ lst') eqn:H2;
      try reflexivity.
    + apply existsb_exists in H1. destruct H1 as [o [Ho Hc]].
      assert (H3 : existsb (fun o => negb (IsDupped o) && coversb doc o) lst' = true).
      { apply existsb_exists. exists o. split; [|exact Hc].
        eapply Permutation_in; eauto. }
      congruence.
    + apply existsb_exists in H2. destruct H2 as [o [Ho Hc]].
      assert (H3 : existsb (fun o => negb (IsDupped o) && coversb doc o) lst = true).
      { apply existsb_exists. exists o. split; [|exact Hc].
        eapply Permutation_in; [symmetry|]; eauto. }
      congruence.
  - intros o Ho Hks.
    rewrite checkIfDupped_Return; [|exact Hdoc|now constructor].
    f_equal. unfold coveredIn. cbn [existsb].
    replace (coversb doc o) with false; [now rewrite andb_false_r|].
    symmetry. destruct (coversb doc o) eqn:Hc; [|reflexivity].
    apply coversb_covers in Hc. destruct Hc as [_ [Hne _]]. congruence.
Qed.

(** X7. checkIfDupped on a [doc] without fields: it reads [doc.Fields[0]]
    as soon as it meets an index that is not flagged, and panics; it
    returns, and returns false, only when every index of the list is
    flagged. *)
Theorem checkIfDupped_without_fields (doc : Index) (lst : list Index) :
  Fields doc = [] ->
  checkIfDupped doc lst
  = if forallb (IsDupped (V := V)) lst then Return false [] else Panic IndexOutOfRange.
Proof.
  intros Hf. induction lst as [|o rest IH]; [reflexivity|].
  cbn [checkIfDupped forallb]. rewrite Hf.
  destruct (IsDupped o); cbn [negb andb first]; [|reflexivity].
  rewrite bind_ret_l. exact IH.
Qed.

End CheckIfDupped.

(** ** File names *)

Section FileNames.

Local Open Scope string_scope.

Lemma substring_0_all (s : string) : substring 0 (String.length s) s = s.
Proof. induction s as [|c s IH]; simpl; [reflexivity|now rewrite IH]. Qed.

Lemma HasSuffix_append (p suffix : string) : HasSuffix (p ++ suffix) suffix = true.
Proof.
  unfold HasSuffix. rewrite length_append.
  replace (String.length suffix <=? String.length p + String.length suffix)%nat
    with true by (symmetry; apply Nat.leb_le; lia).
  replace (String.length p + String.length suffix - String.length suffix)%nat
    with (String.length p) by lia.
  rewrite substring_skip_append, substring_0_all. simpl. apply String.eqb_refl.
Qed.

Lemma substring_split (s : string) : forall n,
  (n <= String.length s)%nat ->
  s = substring 0 n s ++ substring n (String.length s - n) s.
Proof.
  induction s as [|c s IH]; intros n Hn.
  - simpl in Hn. replace n with 0%nat by lia. reflexivity.
  - destruct n as [|n].
    + cbn [substring append Nat.sub String.length]. now rewrite substring_0_all.
    + cbn [substring append String.length Nat.sub]. f_equal.
      apply IH. simpl in Hn. lia.
Qed.

Lemma HasSuffix_true (s suffix : string) :
  HasSuffix s suffix = true <-> exists p, s = p ++ suffix.
Proof.
  split.
  - unfold HasSuffix. intros H. apply andb_true_iff in H. destruct H as [Hlen Heq].
    apply Nat.leb_le in Hlen. apply String.eqb_eq in Heq.
    exists (substring 0 (String.length s - String.length suffix) s).
    pose proof (substring_split s (String.length s - String.length suffix)
                  ltac:(lia)) as Hs.
    replace (String.length s - (String.length s - String.length suffix))%nat
      with (String.length suffix) in Hs by lia.
    now rewrite Heq in Hs.
  - intros [p ->]. apply HasSuffix_append.
Qed.

Lemma mapString_length g (s : string) :
  String.length (mapString g s) = String.length s.
Proof. induction s as [|c s IH]; simpl; [reflexivity|now rewrite IH]. Qed.

Lemma mapString_substring g (s : string) : forall n m,
  substring n m (mapString g s) = mapString g (substring n m s).
Proof.
  induction s as [|c s IH]; intros n m.
  - destruct n, m; reflexivity.
  - destruct n as [|n].
    + destruct m as [|m]; [reflexivity|]. simpl. now rewrite IH.
    + simpl. apply IH.
Qed.

Lemma mapString_get g (s : string) : forall n,
  String.get n (mapString g s) = option_map g (String.get n s).
Proof.
  induction s as [|c s IH]; intros n; [reflexivity|].
  destruct n as [|n]; [reflexivity|]. simpl. apply IH.
Qed.

Lemma replace_colon (s : string) : ReplaceAll s ":" "_" = mapString underscore s.
Proof.
  unfold ReplaceAll. change (String.eqb ":" "_") with false. cbv iota.
  induction s as [|c s IH]; [reflexivity|].
  cbn [replaceFrom prefix mapString]. unfold underscore at 1.
  destruct (ascii_dec ":" c) as [<-|Hne].
  - change (Ascii.eqb ":" ":") with true. cbv iota.
    replace (prefix "" s) with true by (now destruct s).
    change (String.length ":" - 1)%nat with 0%nat.
    rewrite IH. reflexivity.
  - replace (Ascii.eqb c ":") with false
      by (symmetry; apply Ascii.eqb_neq; congruence).
    now rewrite IH.
Qed.

Lemma underscore_plain (x suffix : string) :
  plain suffix = true ->
  String.eqb (mapString underscore x) suffix = String.eqb x suffix.
Proof.
  revert suffix. induction x as [|c x IH]; intros [|d suffix] Hp;
    try reflexivity.
  cbn [plain] in Hp. apply andb_true_iff in Hp. destruct Hp as [Hd Hp].
  apply andb_true_iff in Hd. destruct Hd as [Hd1 Hd2].
  apply negb_true_iff in Hd1, Hd2. apply Ascii.eqb_neq in Hd1, Hd2.
  cbn [mapString String.eqb]. rewrite (IH suffix Hp).
  unfold underscore. destruct (Ascii.eqb c ":") eqn:Hc.
  - apply Ascii.eqb_eq in Hc. subst c.
    replace (Ascii.eqb "_" d) with false
      by (symmetry; apply Ascii.eqb_neq; congruence).
    replace (Ascii.eqb ":" d) with false
      by (symmetry; apply Ascii.eqb_neq; congruence).
    reflexivity.
  - reflexivity.
Qed.

Lemma HasSuffix_underscore (s suffix : string) :
  plain suffix = true ->
  HasSuffix (mapString underscore s) suffix = HasSuffix s suffix.
Proof.
  intros Hp. unfold HasSuffix.
  rewrite mapString_length, mapString_substring, underscore_plain by exact Hp.
  reflexivity.
Qed.

End FileNames.

(** X8. SetFilename stores the name with every colon replaced by an
    underscore: the stored name has the length of the given one, holds no
    colon, and keeps every other byte in its place; the other fields of
    the receiver (Databases, Logger, nocolor, verbose and version) are
    left as they are. *)
Theorem SetFilename_replaces_every_colon {V} (ix : IndexStats V) (name : string) :
  String.length (filename (SetFilename ix name)) = String.length name
  /\ (forall n, String.get n (filename (SetFilename ix name)) <> Some ":"%char)
  /\ (forall n c, String.get n name = Some c ->
        String.get n (filename (SetFilename ix name))
        = Some (if Ascii.eqb c ":" then "_"%char else c))
  /\ Databases (SetFilename ix name) = Databases ix
  /\ Logger_ (SetFilename ix name) = Logger_ ix
  /\ nocolor (SetFilename ix name) = nocolor ix
  /\ verbose (SetFilename ix name) = verbose ix
  /\ version (SetFilename ix name) = version ix.
Proof.
  cbn [SetFilename filename Databases Logger_ nocolor verbose version].
  rewrite replace_colon.
  split; [apply mapString_length|]. split; [|split; [|repeat split]].
  - intros n Hget. rewrite mapString_get in Hget.
    destruct (String.get n name) as [c|]; [|discriminate].
    simpl in Hget. inversion Hget as [Hc]. unfold underscore in Hc.
    destruct (Ascii.eqb c ":") eqn:E; [discriminate|].
    apply Ascii.eqb_neq in E. congruence.
  - intros n c Hc. rewrite mapString_get, Hc. reflexivity.
Qed.

(** X9. SetFilename does not change whether a name carries one of the two
    suffixes the loader recognises. *)
Theorem SetFilename_keeps_the_suffix {V} (ix : IndexStats V) (name : string) :
  HasSuffix (filename (SetFilename ix name)) "-index.bson.gz"
  = HasSuffix name "-index.bson.gz"
  /\ HasSuffix (filename (SetFilename ix name)) "-stats.bson.gz"
     = HasSuffix name "-stats.bson.gz".
Proof.
  cbn [SetFilename filename]. rewrite replace_colon.
  split; apply HasSuffix_underscore; reflexivity.
Qed.

Lemma loader_opens {V} (fs : Files V) (ix : IndexStats V) (name : string) :
  HasSuffix name "-index.bson.gz" = true \/ HasSuffix name "-stats.bson.gz" = true ->
  exists r out,
    SetClusterDetailsFromFile fs ix name = Return r (OpenFile name :: out).
Proof.
  intros H. unfold SetClusterDetailsFromFile.
  replace (Bool.eqb (HasSuffix name "-index.bson.gz") false
           && Bool.eqb (HasSuffix name "-stats.bson.gz") false) with false.
  2:{ destruct H as [-> | ->]; [reflexivity|].
      now destruct (HasSuffix name "-index.bson.gz"). }
  destruct (NewFileReader fs name) as [err|[data [err|]]];
    eexists; eexists; reflexivity.
Qed.

Lemma HasSuffix_longer (p s suffix : string) :
  HasSuffix s suffix = true -> HasSuffix (p ++ s) suffix = true.
Proof.
  intros H. apply HasSuffix_true in H. destruct H as [q ->].
  rewrite <- append_assoc. apply HasSuffix_append.
Qed.

(** X10. A snapshot is saved under a name the loader takes: the default
    name of NewIndexStats ends in "-index.bson.gz" whatever the host
    name, and when the name of the receiver ends in a recognised suffix
    and both encodings and the write succeed, OutputBSON writes the file
    "./out/" followed by that name, which SetClusterDetailsFromFile
    opens. *)
Theorem saved_snapshot_is_taken_by_the_loader {V} :
  (forall hostname logger version,
     HasSuffix (filename (@NewIndexStats V hostname logger version))
       "-index.bson.gz" = true)
  /\ (forall (enc : Encoders V) (ix : IndexStats V) buf buf',
        HasSuffix (filename ix) "-index.bson.gz" = true
        \/ HasSuffix (filename ix) "-stats.bson.gz" = true ->
        Marshal enc ix = inr buf ->
        Remarshal enc buf = inr buf' ->
        OutputGzipped enc buf' ("./out/" ++ filename ix)%string = None ->
        OutputBSON enc ix
        = Done None
            [Mkdir "./out/";
             WriteGzipped ("./out/" ++ filename ix)%string buf';
             FmtPrintln ["Index stats is written to"%string;
                         ("./out/" ++ filename ix)%string]]
        /\ forall (fs : Files V) (ix0 : IndexStats V),
             exists r out,
               SetClusterDetailsFromFile fs ix0 ("./out/" ++ filename ix)%string
               = Return r (OpenFile ("./out/" ++ filename ix)%string :: out)).
Proof.
  split.
  - intros hostname logger version. apply HasSuffix_append.
  - intros enc ix buf buf' Hsuf Hm Hr Hw. split.
    + unfold OutputBSON. rewrite Hm, Hr. cbv zeta. cbn [andThen say].
      rewrite Hw. reflexivity.
    + intros fs ix0. apply loader_opens.
      destruct Hsuf as [H|H]; [left|right]; now apply HasSuffix_longer.
Qed.

(** ** Runs of the inventory *)

Lemma andThen_done_l {A B} (a : A) (f : A -> Run B) : andThen (done a) f = f a.
Proof. unfold andThen, done. now destruct (f a). Qed.

Lemma andThen_Done {A B} (m : Run A) (f : A -> Run B) a out1 b out2 :
  m = Done a out1 -> f a = Done b out2 -> andThen m f = Done b (out1 ++ out2).
Proof. intros -> Hf. simpl. now rewrite Hf. Qed.

Lemma sayWhen_Done (b : bool) (o : Output) : exists out, sayWhen b o = Done tt out.
Proof. destruct b; eexists; reflexivity. Qed.

Lemma less_order : StrictWeakOrder less.
Proof.
  unfold less. constructor.
  - apply ltb_irrefl.
  - apply ltb_trans.
  - apply ltb_neg_trans.
Qed.

Lemma namesLoop_Done verbose (cursor : list (error + CollectionInfo)) :
  forall names,
  exists out, namesLoop verbose cursor names = Done (names ++ collectionNamesOf cursor) out.
Proof.
  unfold collectionNamesOf.
  induction cursor as [|[err|elem] rest IH]; intros names.
  - exists []. simpl. now rewrite app_nil_r.
  - exact (IH names).
  - cbn [namesLoop decoded filter]. unfold regular at 1.
    destruct (HasPrefix (infoName elem) "system."
              || negb (String.eqb (infoType elem) "collection")); cbn [negb map].
    + destruct (IH names) as [out Hout].
      destruct (sayWhen_Done (Bool.eqb verbose true)
                  (Logged (LogPrintln ["skip"; infoName elem]))) as [out0 H0].
      exists (out0 ++ out). eapply andThen_Done; eauto.
    + destruct (IH (names ++ [infoName elem])) as [out Hout].
      exists out. rewrite Hout. now rewrite <- app_assoc.
Qed.

Section InventoryRuns.

Context {V : Type} `{SV : Sprinter V} `{GS : GoSort}.

Variable ix : IndexStats V.
Variable cluster : Cluster V.
Variable db : string.

(** What GetIndexesFromDB makes of the collection named [v]. *)
Let made (v : string) (c : Collection.t V) : Prop :=
  Collection.Name V c = v
  /\ Collection.NS V c = (db ++ "." ++ v)%string
  /\ exists out,
       GetIndexesFromCollection (verbose ix) (Mongo cluster) (mongo.mkCollection db v)
       = Return (Collection.Indexes V c, None) out.

Lemma collectionsLoop_Done (names : list string) :
  (forall v, In v names -> listable (Mongo cluster) db v) ->
  forall collections,
  exists cs out,
    collectionsLoop ix cluster db names collections = Done (collections ++ cs, None) out
    /\ Forall2 made names cs.
Proof.
  induction names as [|v rest IH]; intros Hall collections.
  - exists [], []. split; [simpl; now rewrite app_nil_r|constructor].
  - destruct (Hall v (or_introl eq_refl)) as [icur [Hl Hkeys]].
    destruct (run_returns (verbose ix) (Mongo cluster) (mongo.mkCollection db v)
                icur Hl Hkeys) as [outS [outR [_ Hrun]]].
    cbn [mongo.DatabaseName mongo.CollectionName] in Hrun.
    set (c := Collection.mk V (db ++ "." ++ v)%string v
                (pass [] (sortedOf (Mongo cluster) (mongo.mkCollection db v) icur))).
    destruct (IH (fun u Hu => Hall u (or_intror Hu)) (collections ++ [c]))
      as [cs [out [Hloop Hmade]]].
    exists (c :: cs). eexists. split.
    + cbn [collectionsLoop]. rewrite Hrun. cbn [lift].
      eapply andThen_Done; [reflexivity|].
      cbv beta iota. fold c. rewrite Hloop. rewrite <- app_assoc. reflexivity.
    + constructor; [|exact Hmade].
      subst c. split; [reflexivity|]. split; [reflexivity|].
      eexists. exact Hrun.
Qed.

Lemma collectionsLoop_fails (pre post : list string) (v : string) (err : error) :
  (forall u, In u pre -> listable (Mongo cluster) db u) ->
  ListIndexes (Mongo cluster) db v = inl err ->
  forall collections,
  exists cs out,
    collectionsLoop ix cluster db (pre ++ v :: post) collections
    = Done (collections ++ cs, Some err) out
    /\ Forall2 made pre cs.
Proof.
  intros Hpre Hv. induction pre as [|u pre IH]; intros collections.
  - destruct (run_listing_fails (verbose ix) (Mongo cluster) (mongo.mkCollection db v)
                err Hv) as [outS [_ Hrun]].
    exists []. eexists. split; [|constructor].
    cbn [app collectionsLoop]. rewrite Hrun. cbn [lift].
    eapply andThen_Done; [reflexivity|]. now rewrite app_nil_r.
  - destruct (Hpre u (or_introl eq_refl)) as [icur [Hl Hkeys]].
    destruct (run_returns (verbose ix) (Mongo cluster) (mongo.mkCollection db u)
                icur Hl Hkeys) as [outS [outR [_ Hrun]]].
    cbn [mongo.DatabaseName mongo.CollectionName] in Hrun.
    set (c := Collection.mk V (db ++ "." ++ u)%string u
                (pass [] (sortedOf (Mongo cluster) (mongo.mkCollection db u) icur))).
    destruct (IH (fun w Hw => Hpre w (or_intror Hw)) (collections ++ [c]))
      as [cs [out [Hloop Hmade]]].
    exists (c :: cs). eexists. split.
    + cbn [app collectionsLoop]. rewrite Hrun. cbn [lift].
      eapply andThen_Done; [reflexivity|].
      cbv beta iota. fold c. rewrite Hloop. rewrite <- app_assoc. reflexivity.
    + constructor; [|exact Hmade].
      subst c. split; [reflexivity|]. split; [reflexivity|].
      eexists. exact Hrun.
Qed.

End InventoryRuns.

Section InventoryOfADatabase.

Context {V : Type} `{SV : Sprinter V} `{GS : GoSort}.

Lemma collectionsLoop_verbose (ix1 ix2 : IndexStats V) cluster db names :
  verbose ix1 = verbose ix2 ->
  forall collections,
  collectionsLoop ix1 cluster db names collections
  = collectionsLoop ix2 cluster db names collections.
Proof.
  intros Hv. induction names as [|v rest IH]; intros collections; [reflexivity|].
  cbn [collectionsLoop]. rewrite Hv.
  destruct (lift _) as [[indexes [err|]] out|k]; cbn [andThen]; try reflexivity.
  now rewrite IH.
Qed.

Lemma GetIndexesFromDB_verbose (ix1 ix2 : IndexStats V) cluster db :
  verbose ix1 = verbose ix2 ->
  GetIndexesFromDB ix1 cluster db = GetIndexesFromDB ix2 cluster db.
Proof.
  intros Hv. unfold GetIndexesFromDB. rewrite Hv.
  destruct (ListCollections cluster db) as [err|cur]; [reflexivity|].
  f_equal.
  destruct (namesLoop (verbose ix2) cur []) as [names out|k]; [|reflexivity].
  cbn [andThen]. now rewrite (collectionsLoop_verbose ix1 ix2 cluster db _ Hv).
Qed.

Variable ix : IndexStats V.
Variable cluster : Cluster V.
Variable db : string.
Variable cursor : list (error + CollectionInfo).

Hypothesis listed : ListCollections cluster db = inr cursor.

(** X11. GetIndexesFromDB, when every collection it means to inventory can
    be listed: the collections returned are those of the cursor that are
    of type "collection" and outside the "system." name space, each one
    once per document, in ascending order of name; each one has the name
    space [db.name] and the indexes GetIndexesFromCollection returns for
    it. Documents that fail to decode are passed over. *)
Theorem GetIndexesFromDB_returns_the_regular_collections :
  (forall v, In v (collectionNamesOf cursor) -> listable (Mongo cluster) db v) ->
  exists cs out,
    GetIndexesFromDB ix cluster db = Done (cs, None) out
    /\ Permutation (map (Collection.Name V) cs) (collectionNamesOf cursor)
    /\ (forall i a b,
          nth_error (map (Collection.Name V) cs) i = Some a ->
          nth_error (map (Collection.Name V) cs) (S i) = Some b ->
          String.leb a b = true)
    /\ (forall c, In c cs ->
          Collection.NS V c = (db ++ "." ++ Collection.Name V c)%string
          /\ exists out',
               GetIndexesFromCollection (verbose ix) (Mongo cluster)
                 (mongo.mkCollection db (Collection.Name V c))
               = Return (Collection.Indexes V c, None) out').
Proof.
  intros Hall.
  destruct (namesLoop_Done (verbose ix) cursor []) as [outN HN].
  cbn [app] in HN.
  set (names := sort_Slice less (collectionNamesOf cursor)).
  assert (Hperm : Permutation (collectionNamesOf cursor) names)
    by apply sort_Slice_permutes.
  destruct (collectionsLoop_Done ix cluster db names) with (collections := @nil (Collection.t V))
    as [cs [outC [HC Hmade]]].
  { intros v Hv. apply Hall. eapply Permutation_in; [symmetry; exact Hperm|exact Hv]. }
  cbn [app] in HC.
  destruct (sayWhen_Done (verbose ix) (FmtPrintln ["GetIndexesFromDB()"; db]))
    as [out0 H0].
  assert (Hnames : map (Collection.Name V) cs = names).
  { clear -Hmade. induction Hmade as [|v c vs cs [Hn _] _ IH]; [reflexivity|].
    cbn [map]. now rewrite Hn, IH. }
  exists cs, (out0 ++ outN ++ outC). split; [|split; [|split]].
  - unfold GetIndexesFromDB. rewrite listed.
    eapply andThen_Done; [exact H0|].
    eapply andThen_Done; [exact HN|]. exact HC.
  - rewrite Hnames. now symmetry.
  - rewrite Hnames. intros i a b Ha Hb.
    pose proof (sort_Slice_sorts string less less_order (collectionNamesOf cursor)) as Hs.
    pose proof (Sorted_consecutive _ _ Hs i a b Ha Hb) as Hab.
    cbv beta in Hab. rewrite leb_not_ltb. unfold less in Hab. now rewrite Hab.
  - intros c Hc.
    clear -Hmade Hc. induction Hmade as [|v c' vs cs' [Hn [Hns Hrun]] _ IH]; [easy|].
    destruct Hc as [<-|Hc]; [|now apply IH].
    rewrite Hn. split; [exact Hns|exact Hrun].
Qed.

(** X12. GetIndexesFromDB stops at the first collection, in ascending order
    of name, whose indexes cannot be listed: it returns that error, and
    with it the collections inventoried before, not an empty slice. *)
Theorem GetIndexesFromDB_stops_at_the_first_failure pre v post err :
  sort_Slice less (collectionNamesOf cursor) = pre ++ v :: post ->
  (forall u, In u pre -> listable (Mongo cluster) db u) ->
  ListIndexes (Mongo cluster) db v = inl err ->
  exists cs out,
    GetIndexesFromDB ix cluster db = Done (cs, Some err) out
    /\ map (Collection.Name V) cs = pre
    /\ (forall c, In c cs ->
          exists out',
            GetIndexesFromCollection (verbose ix) (Mongo cluster)
              (mongo.mkCollection db (Collection.Name V c))
            = Return (Collection.Indexes V c, None) out').
Proof.
  intros Hsorted Hpre Hv.
  destruct (namesLoop_Done (verbose ix) cursor []) as [outN HN].
  cbn [app] in HN.
  destruct (collectionsLoop_fails ix cluster db pre post v err Hpre Hv [])
    as [cs [outC [HC Hmade]]].
  cbn [app] in HC.
  destruct (sayWhen_Done (verbose ix) (FmtPrintln ["GetIndexesFromDB()"; db]))
    as [out0 H0].
  exists cs, (out0 ++ outN ++ outC). split; [|split].
  - unfold GetIndexesFromDB. rewrite listed.
    eapply andThen_Done; [exact H0|].
    eapply andThen_Done; [exact HN|].
    cbv zeta. rewrite Hsorted. exact HC.
  - clear -Hmade. induction Hmade as [|u c vs cs [Hn _] _ IH]; [reflexivity|].
    cbn [map]. now rewrite Hn, IH.
  - intros c Hc.
    clear -Hmade Hc. induction Hmade as [|u c' vs cs' [Hn [Hns Hrun]] _ IH]; [easy|].
    destruct Hc as [<-|Hc]; [|now apply IH].
    rewrite Hn. exact Hrun.
Qed.

End InventoryOfADatabase.

Section InventoryOfACluster.

Context {V : Type} `{SV : Sprinter V} `{GS : GoSort}.

Variable cluster : Cluster V.

Lemma GetIndexesFromDB_Done (ix : IndexStats V) db :
  inventoried cluster db ->
  exists cs out, GetIndexesFromDB ix cluster db = Done (cs, None) out.
Proof.
  intros [cursor [Hl Hall]].
  destruct (namesLoop_Done (verbose ix) cursor []) as [outN HN].
  cbn [app] in HN.
  destruct (collectionsLoop_Done ix cluster db
              (sort_Slice less (collectionNamesOf cursor)))
    with (collections := @nil (Collection.t V)) as [cs [outC [HC _]]].
  { intros v Hv. apply Hall.
    eapply Permutation_in; [symmetry; apply sort_Slice_permutes|exact Hv]. }
  cbn [app] in HC.
  destruct (sayWhen_Done (verbose ix) (FmtPrintln ["GetIndexesFromDB()"; db]))
    as [out0 H0].
  exists cs, (out0 ++ outN ++ outC).
  unfold GetIndexesFromDB. rewrite Hl.
  eapply andThen_Done; [exact H0|].
  eapply andThen_Done; [exact HN|]. exact HC.
Qed.

(** What GetIndexes appends for the database named [n]. *)
Let inventory (ix : IndexStats V) (n : string) (d : Database.t V) : Prop :=
  Database.Name V d = n
  /\ exists out, GetIndexesFromDB ix cluster n = Done (Database.Collections V d, None) out.

Lemma settings_setDatabases (ix : IndexStats V) ds :
  settings (setDatabases ix ds) = settings ix.
Proof. reflexivity. Qed.

Lemma databasesLoop_Done (ix : IndexStats V) (names : list string) :
  (forall n, In n names -> skipped n = false -> inventoried cluster n) ->
  forall ix0 cnt, settings ix0 = settings ix ->
  exists ds cnt' out,
    databasesLoop ix0 cluster names cnt
    = Done (setDatabases ix0 (Databases ix0 ++ ds), cnt', None) out
    /\ Forall2 (inventory ix) (unskipped names) ds.
Proof.
  induction names as [|n rest IH]; intros Hall ix0 cnt Hset.
  - exists [], cnt, []. split; [|constructor].
    cbn [databasesLoop]. rewrite app_nil_r. now destruct ix0.
  - assert (Hv : verbose ix0 = verbose ix) by (unfold settings in Hset; congruence).
    cbn [databasesLoop]. unfold unskipped. cbn [filter].
    destruct (skipped n) eqn:Hsk; cbn [negb].
    + destruct (IH (fun m Hm => Hall m (or_intror Hm)) ix0 cnt Hset)
        as [ds [cnt' [out [Hloop Hinv]]]].
      destruct (sayWhen_Done (Bool.eqb (verbose ix0) true)
                  (Logged (LogPrintln ["Skip"; n]))) as [out0 H0].
      exists ds, cnt', (out0 ++ out). split; [|exact Hinv].
      eapply andThen_Done; [exact H0|exact Hloop].
    + destruct (GetIndexesFromDB_Done ix n (Hall n (or_introl eq_refl) Hsk))
        as [cs [outD HD]].
      set (d := Database.mk V n cs).
      destruct (IH (fun m Hm => Hall m (or_intror Hm))
                  (setDatabases ix0 (Databases ix0 ++ [d])) (wrapInt (cnt + 1)))
        as [ds [cnt' [out [Hloop Hinv]]]].
      { now rewrite settings_setDatabases. }
      destruct (sayWhen_Done (Bool.eqb (verbose ix0) true)
                  (Logged (LogPrintln ["checking"; n]))) as [out0 H0].
      exists (d :: ds), cnt', (out0 ++ outD ++ out). split.
      * cbv zeta. eapply andThen_Done; [exact H0|].
        eapply andThen_Done.
        { rewrite (GetIndexesFromDB_verbose ix0 ix cluster n Hv). exact HD. }
        cbv beta iota. fold d. rewrite Hloop. f_equal. f_equal. f_equal.
        destruct ix0. cbn. now rewrite <- app_assoc.
      * constructor; [|exact Hinv]. split; [reflexivity|].
        exists outD. exact HD.
Qed.

Lemma databasesLoop_fails (ix : IndexStats V) pre n post cs err outn :
  (forall m, In m pre -> skipped m = false -> inventoried cluster m) ->
  skipped n = false ->
  GetIndexesFromDB ix cluster n = Done (cs, Some err) outn ->
  forall ix0 cnt, settings ix0 = settings ix ->
  exists ds cnt' out,
    databasesLoop ix0 cluster (pre ++ n :: post) cnt
    = Done (setDatabases ix0 (Databases ix0 ++ ds), cnt', Some err) out
    /\ Forall2 (inventory ix) (unskipped pre) ds.
Proof.
  intros Hpre Hn Hfail.
  induction pre as [|m pre IH]; intros ix0 cnt Hset;
    assert (Hv : verbose ix0 = verbose ix) by (unfold settings in Hset; congruence).
  - destruct (sayWhen_Done (Bool.eqb (verbose ix0) true)
                (Logged (LogPrintln ["checking"; n]))) as [out0 H0].
    exists [], (wrapInt (cnt + 1)), (out0 ++ outn ++ []). split; [|constructor].
    cbn [app databasesLoop]. rewrite Hn. cbv zeta.
    eapply andThen_Done; [exact H0|].
    eapply andThen_Done.
    { rewrite (GetIndexesFromDB_verbose ix0 ix cluster n Hv). exact Hfail. }
    cbv beta iota. rewrite app_nil_r. now destruct ix0.
  - cbn [app databasesLoop]. unfold unskipped. cbn [filter].
    destruct (skipped m) eqn:Hsk; cbn [negb].
    + destruct (IH (fun u Hu => Hpre u (or_intror Hu)) ix0 cnt Hset)
        as [ds [cnt' [out [Hloop Hinv]]]].
      destruct (sayWhen_Done (Bool.eqb (verbose ix0) true)
                  (Logged (LogPrintln ["Skip"; m]))) as [out0 H0].
      exists ds, cnt', (out0 ++ out). split; [|exact Hinv].
      eapply andThen_Done; [exact H0|exact Hloop].
    + destruct (GetIndexesFromDB_Done ix m (Hpre m (or_introl eq_refl) Hsk))
        as [cs' [outD HD]].
      set (d := Database.mk V m cs').
      destruct (IH (fun u Hu => Hpre u (or_intror Hu))
                  (setDatabases ix0 (Databases ix0 ++ [d])) (wrapInt (cnt + 1)))
        as [ds [cnt' [out [Hloop Hinv]]]].
      { now rewrite settings_setDatabases. }
      destruct (sayWhen_Done (Bool.eqb (verbose ix0) true)
                  (Logged (LogPrintln ["checking"; m]))) as [out0 H0].
      exists (d :: ds), cnt', (out0 ++ outD ++ out). split.
      * cbv zeta. eapply andThen_Done; [exact H0|].
        eapply andThen_Done.
        { rewrite (GetIndexesFromDB_verbose ix0 ix cluster m Hv). exact HD. }
        cbv beta iota. fold d. rewrite Hloop. f_equal. f_equal. f_equal.
        destruct ix0. cbn. now rewrite <- app_assoc.
      * constructor; [|exact Hinv]. split; [reflexivity|].
        exists outD. exact HD.
Qed.

Lemma inventory_names (ix : IndexStats V) names ds :
  Forall2 (inventory ix) names ds -> map (Database.Name V) ds = names.
Proof.
  induction 1 as [|n d ns ds [Hn _] _ IH]; [reflexivity|].
  cbn [map]. now rewrite Hn, IH.
Qed.

Lemma inventory_In (ix : IndexStats V) names ds d :
  Forall2 (inventory ix) names ds -> In d ds ->
  exists out,
    GetIndexesFromDB ix cluster (Database.Name V d)
    = Done (Database.Collections V d, None) out.
Proof.
  induction 1 as [|n d' ns ds' [Hn Hrun] _ IH]; [easy|].
  intros [<-|Hin]; [|now apply IH].
  now rewrite Hn.
Qed.

Variable ix : IndexStats V.

(** X13. GetIndexes, when the databases can be listed and every database it
    means to inventory can be: it returns, without an error, the
    Databases it leaves in the receiver; these are, in the order of the
    listing, the databases other than admin, config and local, each with
    the collections GetIndexesFromDB returns for it; what the receiver
    held in Databases before the call is gone, its other fields are
    untouched; the last thing done is the logger line. *)
Theorem GetIndexes_inventories_the_user_databases dbs :
  ListDatabases cluster = inr dbs ->
  (forall n, In n (map specDatabaseName dbs) -> skipped n = false ->
     inventoried cluster n) ->
  exists ix' out,
    GetIndexes ix cluster = Done (ix', Databases ix', None) out
    /\ settings ix' = settings ix
    /\ map (Database.Name V) (Databases ix') = unskipped (map specDatabaseName dbs)
    /\ (forall d, In d (Databases ix') ->
          skipped (Database.Name V d) = false
          /\ exists out',
               GetIndexesFromDB ix cluster (Database.Name V d)
               = Done (Database.Collections V d, None) out')
    /\ exists out0, out = out0 ++ [Logged (LoggerAdd "GetIndexes ends")].
Proof.
  intros Hl Hall.
  destruct (databasesLoop_Done ix (map specDatabaseName dbs) Hall
              (setDatabases ix []) 0 (settings_setDatabases ix []))
    as [ds [cnt' [outL [Hloop Hinv]]]].
  cbn [Databases setDatabases app] in Hloop.
  set (ix' := setDatabases (setDatabases ix []) ds) in *.
  destruct (sayWhen_Done ((cnt' =? 0)%Z && Bool.eqb (verbose ix') true)
              (Logged (LogPrintln ["No database is available"]))) as [out1 H1].
  pose proof (inventory_names ix _ _ Hinv) as Hnames.
  exists ix', (outL ++ out1 ++ [Logged (LoggerAdd "GetIndexes ends")] ++ []).
  assert (HD : Databases ix' = ds) by (subst ix'; now destruct ix).
  split; [|split; [|split; [|split]]].
  - unfold GetIndexes, ListDatabaseNames. rewrite Hl. cbv zeta beta iota.
    eapply andThen_Done; [exact Hloop|]. cbv beta iota.
    eapply andThen_Done; [exact H1|].
    eapply andThen_Done; [reflexivity|]. reflexivity.
  - subst ix'. now rewrite !settings_setDatabases.
  - now rewrite HD.
  - rewrite HD. intros d Hd. split.
    + assert (Hin : In (Database.Name V d) (unskipped (map specDatabaseName dbs))).
      { rewrite <- Hnames. now apply in_map. }
      apply filter_In in Hin. destruct Hin as [_ Hin].
      now apply negb_true_iff in Hin.
    + eapply inventory_In; eauto.
  - exists (outL ++ out1). now rewrite app_nil_r, app_assoc.
Qed.

(** X14. How GetIndexes fails. When the databases cannot be listed it
    returns that error and no database, and the receiver is left with
    empty Databases. When a database cannot be inventoried it returns
    that error with the databases completed before it, which are also
    what the receiver is left with: the failing database is not
    appended, whatever collections GetIndexesFromDB had gathered for it,
    and the databases after it are not visited. *)
Theorem GetIndexes_returns_the_first_error :
  (forall err, ListDatabases cluster = inl err ->
     GetIndexes ix cluster = Done (setDatabases ix [], [], Some err) [])
  /\ (forall dbs pre n post cs err outn,
        ListDatabases cluster = inr dbs ->
        map specDatabaseName dbs = pre ++ n :: post ->
        (forall m, In m pre -> skipped m = false -> inventoried cluster m) ->
        skipped n = false ->
        GetIndexesFromDB ix cluster n = Done (cs, Some err) outn ->
        exists ix' out,
          GetIndexes ix cluster = Done (ix', Databases ix', Some err) out
          /\ settings ix' = settings ix
          /\ map (Database.Name V) (Databases ix') = unskipped pre
          /\ (forall d, In d (Databases ix') ->
                exists out',
                  GetIndexesFromDB ix cluster (Database.Name V d)
                  = Done (Database.Collections V d, None) out')).
Proof.
  split.
  - intros err Hl. unfold GetIndexes, ListDatabaseNames. now rewrite Hl.
  - intros dbs pre n post cs err outn Hl Hnames Hpre Hn Hfail.
    destruct (databasesLoop_fails ix pre n post cs err outn Hpre Hn Hfail
                (setDatabases ix []) 0 (settings_setDatabases ix []))
      as [ds [cnt' [outL [Hloop Hinv]]]].
    cbn [Databases setDatabases app] in Hloop.
    set (ix' := setDatabases (setDatabases ix []) ds) in *.
    assert (HD : Databases ix' = ds) by (subst ix'; now destruct ix).
    exists ix', (outL ++ []). split; [|split; [|split]].
    + unfold GetIndexes, ListDatabaseNames. rewrite Hl. cbv zeta beta iota.
      rewrite Hnames. eapply andThen_Done; [exact Hloop|]. reflexivity.
    + subst ix'. now rewrite !settings_setDatabases.
    + rewrite HD. exact (inventory_names ix _ _ Hinv).
    + rewrite HD. intros d Hd. eapply inventory_In; eauto.
Qed.

End InventoryOfACluster.

Section InventoryCrash.

Context {V : Type} `{SV : Sprinter V} `{GS : GoSort}.

Variable ix : IndexStats V.
Variable cluster : Cluster V.
Variable db : string.

Lemma andThen_Crash {A B} (m : Run A) (f : A -> Run B) a out k :
  m = Done a out -> f a = Crash k -> andThen m f = Crash k.
Proof. intros -> Hf. simpl. now rewrite Hf. Qed.

Lemma collectionsLoop_crashes (pre post : list string) (v : string) icur :
  (forall u, In u pre -> listable (Mongo cluster) db u) ->
  ListIndexes (Mongo cluster) db v = inr icur ->
  Exists keyEmpty icur ->
  forall collections,
  collectionsLoop ix cluster db (pre ++ v :: post) collections
  = Crash SliceBoundsOutOfRange.
Proof.
  intros Hpre Hv Hex. induction pre as [|u pre IH]; intros collections.
  - cbn [app collectionsLoop].
    now rewrite (run_panics (verbose ix) (Mongo cluster) (mongo.mkCollection db v)
                   icur Hv Hex).
  - destruct (Hpre u (or_introl eq_refl)) as [ucur [Hl Hkeys]].
    destruct (run_returns (verbose ix) (Mongo cluster) (mongo.mkCollection db u)
                ucur Hl Hkeys) as [outS [outR [_ Hrun]]].
    cbn [app collectionsLoop]. rewrite Hrun. cbn [lift].
    eapply andThen_Crash; [reflexivity|]. cbv beta iota.
    apply IH. intros w Hw. apply Hpre. now right.
Qed.

(** X15. One index definition without a key is enough to lose the
    inventory of a database: when GetIndexesFromDB reaches a collection
    that has one, it panics, and the collections inventoried before are
    not returned. *)
Theorem GetIndexesFromDB_panics_on_an_empty_key cursor pre v post icur :
  ListCollections cluster db = inr cursor ->
  sort_Slice less (collectionNamesOf cursor) = pre ++ v :: post ->
  (forall u, In u pre -> listable (Mongo cluster) db u) ->
  ListIndexes (Mongo cluster) db v = inr icur ->
  Exists keyEmpty icur ->
  GetIndexesFromDB ix cluster db = Crash SliceBoundsOutOfRange.
Proof.
  intros Hl Hsorted Hpre Hv Hex.
  destruct (namesLoop_Done (verbose ix) cursor []) as [outN HN].
  cbn [app] in HN.
  destruct (sayWhen_Done (verbose ix) (FmtPrintln ["GetIndexesFromDB()"; db]))
    as [out0 H0].
  unfold GetIndexesFromDB. rewrite Hl.
  eapply andThen_Crash; [exact H0|].
  eapply andThen_Crash; [exact HN|].
  cbv zeta. rewrite Hsorted.
  now apply collectionsLoop_crashes with (icur := icur).
Qed.

End InventoryCrash.

Section ReportFacts.

Context {V : Type} `{SV : Sprinter V} `{GS : GoSort}.

Variable formatTime : Time -> string.

Lemma fold_left_append {A} (g : A -> string) (l : list A) : forall buffer,
  fold_left (fun buffer x => (buffer ++ g x)%string) l buffer
  = (buffer ++ joined (map g l))%string.
Proof.
  induction l as [|x l IH]; intros buffer; cbn [fold_left map joined fold_right].
  - now rewrite append_nil_r.
  - rewrite IH. fold (joined (map g l)). now rewrite append_assoc.
Qed.

Lemma andThen_say {A} (m : Run A) (o : Output) a out :
  m = Done a out -> andThen m (fun _ => say o) = Done tt (out ++ [o]).
Proof. intros ->. reflexivity. Qed.

Lemma printed_collections codes nocolor (colls : list (Collection.t V)) :
  forall (run : Run unit) out,
  run = Done tt out ->
  fold_left
    (fun run coll =>
       andThen run (fun _ => say (FmtPrintln [collectionText codes formatTime nocolor coll])))
    colls run
  = Done tt (out ++ map (fun coll => FmtPrintln [collectionText codes formatTime nocolor coll])
                      colls).
Proof.
  induction colls as [|c colls IH]; intros run out Hrun; cbn [fold_left map].
  - now rewrite app_nil_r.
  - rewrite (IH _ (out ++ [FmtPrintln [collectionText codes formatTime nocolor c]])).
    + now rewrite <- app_assoc.
    + exact (andThen_say run _ tt out Hrun).
Qed.

Lemma PrintIndexesOf_Done codes (ix : IndexStats V) (databases : list (Database.t V)) :
  PrintIndexesOf codes formatTime ix databases
  = Done tt
      (map (fun coll => FmtPrintln [collectionText codes formatTime (nocolor ix) coll])
         (flat_map (Database.Collections V) databases)).
Proof.
    unfold PrintIndexesOf.
    enough (H : forall (run : Run unit) out, run = Done tt out ->
              fold_left
                (fun run db =>
                   fold_left
                     (fun run coll =>
                        andThen run
                          (fun _ => say (FmtPrintln
                                           [collectionText codes formatTime (nocolor ix) coll])))
                     (Database.Collections V db) run)
                databases run
              = Done tt
                  (out ++ map (fun coll =>
                                 FmtPrintln [collectionText codes formatTime (nocolor ix) coll])
                            (flat_map (Database.Collections V) databases))).
    { exact (H (done tt) [] eq_refl). }
    induction databases as [|db dbs IH]; intros run out Hrun; cbn [fold_left flat_map map].
    + now rewrite app_nil_r.
    + rewrite (IH _ _ (printed_collections codes (nocolor ix) _ run out Hrun)).
      now rewrite map_app, app_assoc.
Qed.

Lemma collectionText_joined codes nocolor (coll : Collection.t V) :
  collectionText codes formatTime nocolor coll
  = (newline ++ Collection.NS V coll ++ ":" ++ newline
     ++ joined (map (fun o =>
                       keyText codes nocolor o
                       ++ joined (map (usageText formatTime) (Usage o))
                       ++ newline)
                  (Collection.Indexes V coll)))%string.
Proof.
  unfold collectionText. rewrite fold_left_append.
  rewrite !append_assoc.
  rewrite (map_ext (indexText codes formatTime nocolor)
             (fun o => keyText codes nocolor o
                       ++ joined (map (usageText formatTime) (Usage o))
                       ++ newline)%string); [reflexivity|].
  intros o. unfold indexText. now rewrite fold_left_append.
Qed.

(** X16. PrintIndexesOf prints one text per collection, in the order of the
    databases and of their collections, and nothing else: no line for a
    database, nothing for a database without collections. The text of a
    collection is a blank line, the name space followed by a colon, and
    one line per index, each followed by one line per usage record. With
    nocolor set no colour code is printed: the output is the same
    whatever the three codes are. *)
Theorem PrintIndexesOf_prints_one_text_per_collection codes (ix : IndexStats V)
    (databases : list (Database.t V)) :
  PrintIndexesOf codes formatTime ix databases
  = Done tt
      (map (fun coll => FmtPrintln [collectionText codes formatTime (nocolor ix) coll])
         (flat_map (Database.Collections V) databases))
  /\ (forall coll,
        collectionText codes formatTime (nocolor ix) coll
        = (newline ++ Collection.NS V coll ++ ":" ++ newline
           ++ joined (map (fun o =>
                             keyText codes (nocolor ix) o
                             ++ joined (map (usageText formatTime) (Usage o))
                             ++ newline)
                        (Collection.Indexes V coll)))%string)
  /\ (nocolor ix = true ->
      forall codes',
        PrintIndexesOf codes' formatTime ix databases
        = PrintIndexesOf codes formatTime ix databases).
Proof.
  split; [apply PrintIndexesOf_Done|]. split; [intros coll; apply collectionText_joined|].
  intros Hn codes'. rewrite !PrintIndexesOf_Done, Hn.
  (* with nocolor set, keyText reduces to a text without codes *)
  reflexivity.
Qed.

End ReportFacts.

Section ReportOfACollection.

Context {V : Type} `{SV : Sprinter V} `{GS : GoSort}.

Variable verbose : bool.
Variable client : Client V.
Variable collection : mongo.Collection.
Variable icur : list (error + IndexSpec V).

Hypothesis listing :
  ListIndexes client (mongo.DatabaseName collection)
    (mongo.CollectionName collection) = inr icur.

(** X17. In the report of the list returned for a collection, the mark [x]
    stands for the duplicate flag: printed without colours, the line of
    an index starts with ["x "] exactly when the index is flagged, so
    the marks of the _id index and of the shard key, which are tested
    first, never hide a flag; printed with colours, a flagged index is
    set in red. *)
Theorem report_marks_the_flagged_indexes :
  Forall keyNonEmpty icur ->
  exists F out,
    GetIndexesFromCollection verbose client collection = Return (F, None) out
    /\ forall D codes, In D F ->
         (keyText codes true D = ("x " ++ KeyString D)%string <-> IsDupped D = true)
         /\ (IsDupped D = true ->
             keyText codes false D
             = (codeRed codes ++ "x " ++ KeyString D ++ codeDefault codes)%string).
Proof.
  intros Hkeys.
  destruct (run_returns verbose client collection icur listing Hkeys)
    as [outS [outR [_ Hrun]]].
  eexists. eexists. split; [exact Hrun|].
  intros D codes HD.
  assert (Hex : exempt D = true -> IsDupped D = false).
  { intros He. apply In_nth_error in HD. destruct HD as [i Hi].
    eapply pass_exempt_unflagged; [|exact Hi|exact He].
    apply sortedOf_Forall, normalizedOf_unflagged. }
  unfold exempt in Hex. unfold keyText.
  destruct (String.eqb (KeyString D) "{ _id: 1 }") eqn:Hid; cbn [orb] in Hex.
  { rewrite (Hex eq_refl). split; [split; discriminate|discriminate]. }
  destruct (IsShardKey D) eqn:Hsk; cbn [Bool.eqb].
  { rewrite (Hex eq_refl). split; [split; discriminate|discriminate]. }
  destruct (IsDupped D) eqn:Hdup; cbn [Bool.eqb].
  { split; [split; [reflexivity|]|]; intros _.
    - cbn [append]. now rewrite append_nil_r.
    - reflexivity. }
  split; [|discriminate].
  destruct (TotalOps D =? 0)%Z; split; discriminate.
Qed.

End ReportOfACollection.

Section TimeSeriesFacts.

Import charts.

Context {float64 : Type}.
Variable toInt64 : float64 -> Z.

Abbreviation Point := (list float64).

Lemma windowLoop_Return (from to : Instant) (points : list Point) :
  Forall stamped points ->
  forall kept,
  windowLoop toInt64 points from to kept
  = Return (kept ++ filter (inWindow toInt64 from to) points) [].
Proof.
  induction 1 as [|v rest Hv _ IH]; intros kept; cbn [windowLoop filter].
  - unfold ret. now rewrite app_nil_r.
  - unfold instantOf, inWindow. unfold stamped in Hv.
    destruct (nth_error v 1) as [x|] eqn:Hx.
    2:{ apply nth_error_None in Hx. lia. }
    rewrite bind_ret_l. cbv zeta.
    set (tm := wrapInt (toInt64 x * Millisecond)).
    destruct (Z.ltb_spec to tm) as [H1|H1]; cbn [orb].
    { rewrite IH. destruct (Z.leb_spec tm to); [lia|].
      now rewrite andb_false_r. }
    destruct (Z.ltb_spec tm from) as [H2|H2].
    { rewrite IH. destruct (Z.leb_spec from tm); [lia|]. reflexivity. }
    rewrite IH.
    destruct (Z.leb_spec from tm); [|lia].
    destruct (Z.leb_spec tm to); [|lia].
    cbn [andb]. now rewrite <- app_assoc.
Qed.

Lemma windowLoop_Panic (from to : Instant) (points : list Point) :
  Exists (fun v => ~ stamped v) points ->
  forall kept, windowLoop toInt64 points from to kept = Panic IndexOutOfRange.
Proof.
  induction points as [|v rest IH]; intros Hex kept; [inversion Hex|].
  cbn [windowLoop]. unfold instantOf.
  destruct (nth_error v 1) as [x|] eqn:Hx; [|reflexivity].
  rewrite bind_ret_l.
  assert (Hrest : Exists (fun v => ~ stamped v) rest).
  { inversion Hex as [? ? Hv|? ? Hr]; subst; [|exact Hr].
    exfalso. apply Hv. unfold stamped.
    assert (nth_error v 1 <> None) as Hn by congruence.
    apply nth_error_Some in Hn. lia. }
  destruct ((to <? _)%Z || _); now apply IH.
Qed.

(** The thinning loop without its accumulator. *)
Lemma thinLoop_kept (frac : Z) (points : list Point) : forall i kept,
  thinLoop i frac points kept = kept ++ thinLoop i frac points [].
Proof.
  induction points as [|v rest IH]; intros i kept; cbn [thinLoop].
  - now rewrite app_nil_r.
  - destruct (negb _); [apply IH|].
    rewrite (IH (S i) (kept ++ [v])), (IH (S i) ([] ++ [v])).
    now rewrite <- app_assoc.
Qed.

Lemma rem_of_nat (i f : nat) : (0 < f)%nat ->
  (Z.rem (Z.of_nat i) (Z.of_nat f) =? 0)%Z = (i mod f =? 0)%nat.
Proof.
  intros Hf. rewrite Z.rem_mod_nonneg by lia.
  rewrite <- Nat2Z.inj_mod.
  destruct (Nat.eqb_spec (i mod f) 0) as [H|H].
  - rewrite H. reflexivity.
  - apply Z.eqb_neq. lia.
Qed.

(** The point at position [k] of the thinned list is the point at
    position [k * f] past the first one kept. *)
Lemma succ_mod (i f : nat) : (0 < f)%nat ->
  (i mod f = 0 ->
     (f - i mod f) mod f = 0 /\ (f - S i mod f) mod f = f - 1)%nat
  /\ (i mod f <> 0 ->
        (f - i mod f) mod f = S ((f - S i mod f) mod f))%nat.
Proof.
  intros Hf.
  assert (Hlt : (i mod f < f)%nat) by (apply Nat.mod_upper_bound; lia).
  assert (HS : (S i mod f = (1 + i mod f) mod f)%nat).
  { rewrite Nat.Div0.add_mod_idemp_r. reflexivity. }
  split.
  - intros H0. rewrite HS, H0, Nat.sub_0_r, Nat.Div0.mod_same. split; [reflexivity|].
    destruct (Nat.eq_dec f 1) as [->|Hne]; [reflexivity|].
    rewrite (Nat.mod_small (1 + 0) f) by lia.
    apply Nat.mod_small. lia.
  - intros H0. rewrite HS.
    rewrite (Nat.mod_small (f - i mod f) f) by lia.
    destruct (Nat.eq_dec (1 + i mod f) f) as [He|He].
    + rewrite He, Nat.Div0.mod_same, Nat.sub_0_r, Nat.Div0.mod_same. lia.
    + rewrite (Nat.mod_small (1 + i mod f) f) by lia.
      rewrite (Nat.mod_small (f - (1 + i mod f)) f) by lia. lia.
Qed.

(** The point at position [k] of the thinned list is the point at
    position [k * f] past the first one kept. *)
Lemma thinLoop_nth (f : nat) (points : list Point) : (0 < f)%nat ->
  forall i k,
  nth_error (thinLoop i (Z.of_nat f) points []) k
  = nth_error points ((f - i mod f) mod f + k * f).
Proof.
  intros Hf. induction points as [|v rest IH]; intros i k; cbn [thinLoop].
  - now rewrite !nth_error_nil.
  - rewrite rem_of_nat by exact Hf.
    destruct (succ_mod i f Hf) as [Hz Hnz].
    destruct (Nat.eqb_spec (i mod f) 0) as [H0|H0]; cbn [negb].
    + destruct (Hz H0) as [Ho HoS]. rewrite Ho.
      rewrite thinLoop_kept. cbn [app].
      destruct k as [|k]; [reflexivity|].
      cbn [nth_error Nat.add]. rewrite IH, HoS.
      replace (S k * f)%nat with (S (f - 1 + k * f)) by lia. reflexivity.
    + rewrite (Hnz H0). cbn [Nat.add nth_error]. apply IH.
Qed.

Lemma thinLoop_length (f : nat) (points : list Point) : (0 < f)%nat ->
  let R := thinLoop 0 (Z.of_nat f) points [] in
  (List.length points <= List.length R * f)%nat
  /\ (List.length R * f < List.length points + f)%nat.
Proof.
  intros Hf R.
  assert (Hnth : forall k, nth_error R k = nth_error points (k * f)).
  { intros k. subst R. rewrite thinLoop_nth by exact Hf.
    rewrite Nat.Div0.mod_0_l, Nat.sub_0_r, Nat.Div0.mod_same. reflexivity. }
  split.
  - apply nth_error_None. rewrite <- Hnth. now apply nth_error_None.
  - destruct (List.length R) as [|m] eqn:Hlen; [lia|].
    assert (Hm : nth_error R m <> None) by (apply nth_error_Some; lia).
    rewrite Hnth in Hm. apply nth_error_Some in Hm. lia.
Qed.

Lemma thinLoop_1 (points : list Point) : forall i kept,
  thinLoop i 1 points kept = kept ++ points.
Proof.
  induction points as [|v rest IH]; intros i kept; cbn [thinLoop].
  - now rewrite app_nil_r.
  - rewrite Z.rem_1_r. cbn [Z.eqb negb]. rewrite IH. now rewrite <- app_assoc.
Qed.

Variable tsData : TimeSeriesDoc float64.
Variables from to : Instant.

Lemma filterTimeSeriesData_Return :
  Forall stamped (DataPoints tsData) ->
  filterTimeSeriesData toInt64 tsData from to
  = Return (mkTimeSeriesDoc (Target tsData)
              (if (500 <? List.length (windowOf toInt64 from to tsData))%nat
               then thinLoop 0
                      (Z.of_nat (List.length (windowOf toInt64 from to tsData) / 500))
                      (windowOf toInt64 from to tsData) []
               else windowOf toInt64 from to tsData)) [].
Proof.
  intros Hall. unfold filterTimeSeriesData.
  rewrite (windowLoop_Return from to _ Hall []). cbn [app].
  fold (windowOf toInt64 from to tsData).
  set (W := windowOf toInt64 from to tsData).
  change (Return W []) with (ret W).
  rewrite bind_ret_l. cbv zeta. cbn [DataPoints].
  set (n := List.length W).
  destruct (Nat.ltb_spec 500 n) as [Hn|Hn].
  - destruct (Z.gtb_spec (Z.of_nat n) 500) as [_|H]; [|lia].
    rewrite Z.quot_div_nonneg by lia.
    change 500%Z with (Z.of_nat 500). rewrite <- Nat2Z.inj_div. reflexivity.
  - destruct (Z.gtb_spec (Z.of_nat n) 500) as [H|_]; [lia|]. reflexivity.
Qed.

(** X18. filterTimeSeriesData, on points that all have a time stamp,
    returns the target with points of the window only, in their order:
    all of them when they are at most 500, else the one at every
    multiple of [n / 500] of the [n] there are, the first one included. *)
Theorem filterTimeSeriesData_keeps_the_window :
  Forall stamped (DataPoints tsData) ->
  exists R,
    filterTimeSeriesData toInt64 tsData from to
    = Return (mkTimeSeriesDoc (Target tsData) R) []
    /\ (forall v, In v R ->
          In v (DataPoints tsData) /\ inWindow toInt64 from to v = true)
    /\ ((List.length (windowOf toInt64 from to tsData) <= 500)%nat ->
        R = windowOf toInt64 from to tsData)
    /\ ((500 < List.length (windowOf toInt64 from to tsData))%nat ->
        forall k,
          nth_error R k
          = nth_error (windowOf toInt64 from to tsData)
              (k * (List.length (windowOf toInt64 from to tsData) / 500))).
Proof.
  intros Hall. eexists. split; [exact (filterTimeSeriesData_Return Hall)|].
  set (W := windowOf toInt64 from to tsData).
  set (n := List.length W).
  assert (Hf : (500 < n)%nat -> (0 < n / 500)%nat).
  { intros Hn. apply Nat.div_str_pos. lia. }
  assert (Hnth : (500 < n)%nat -> forall k,
            nth_error (thinLoop 0 (Z.of_nat (n / 500)) W []) k
            = nth_error W (k * (n / 500))).
  { intros Hn k. rewrite thinLoop_nth by auto.
    rewrite Nat.Div0.mod_0_l, Nat.sub_0_r, Nat.Div0.mod_same. reflexivity. }
  destruct (Nat.ltb_spec 500 n) as [Hn|Hn].
  - split; [|split].
    + intros v Hv. apply In_nth_error in Hv. destruct Hv as [k Hk].
      rewrite (Hnth Hn) in Hk. apply nth_error_In in Hk.
      now apply filter_In in Hk.
    + intros Hle. exfalso. lia.
    + intros _. exact (Hnth Hn).
  - split; [|split].
    + intros v Hv. now apply filter_In in Hv.
    + reflexivity.
    + intros Hlt. exfalso. lia.
Qed.

(** X19. The list filterTimeSeriesData returns has fewer than 1000 points.
    Its constant 500 is not a bound: from 501 to 999 points in the
    window, all of them are returned. *)
Theorem filterTimeSeriesData_returns_under_1000_points :
  Forall stamped (DataPoints tsData) ->
  exists R,
    filterTimeSeriesData toInt64 tsData from to
    = Return (mkTimeSeriesDoc (Target tsData) R) []
    /\ (List.length R < 1000)%nat
    /\ ((List.length (windowOf toInt64 from to tsData) < 1000)%nat ->
        R = windowOf toInt64 from to tsData).
Proof.
  intros Hall. eexists. split; [exact (filterTimeSeriesData_Return Hall)|].
  set (W := windowOf toInt64 from to tsData).
  set (n := List.length W).
  destruct (Nat.ltb_spec 500 n) as [Hn|Hn].
  2:{ split; [fold n; lia|reflexivity]. }
  assert (Hf : (0 < n / 500)%nat) by (apply Nat.div_str_pos; lia).
  split.
  - destruct (thinLoop_length (n / 500) W Hf) as [_ Hlt]. cbv zeta in Hlt.
    fold n in Hlt.
    pose proof (Nat.div_mod_eq n 500) as Hdm.
    pose proof (Nat.mod_upper_bound n 500) as Hm.
    nia.
  - intros Hlt.
    assert (Hq : (n / 500 = 1)%nat).
    { pose proof (Nat.div_mod_eq n 500) as Hdm.
      pose proof (Nat.mod_upper_bound n 500) as Hm. nia. }
    rewrite Hq. now rewrite thinLoop_1.
Qed.

(** X20. A point with fewer than two coordinates makes filterTimeSeriesData
    panic, wherever it stands and whatever the window is. *)
Theorem filterTimeSeriesData_needs_a_time_stamp :
  Exists (fun v => ~ stamped v) (DataPoints tsData) ->
  filterTimeSeriesData toInt64 tsData from to = Panic IndexOutOfRange.
Proof.
  intros Hex. unfold filterTimeSeriesData.
  now rewrite (windowLoop_Panic from to _ Hex []).
Qed.

End TimeSeriesFacts.

(** ** The statements at the sample clusters *)

Module Cases.

Import Sample Holdings.

Ltac items_keyed :=
  repeat (constructor; [simpl; first [discriminate | exact I]|]); constructor.

Example inventory_of_the_sample_cluster :
  match GetIndexes stale (holding "none" sound) with
  | Done (_, dbs, e) _ => Some (inventoryNames dbs, e)
  | Crash _ => None
  end
  = Some ([("shop", ["customers"; "orders"]); ("blog", ["customers"; "orders"])],
          None).
Proof. vm_compute. reflexivity. Qed.

Example inventory_stops_at_blog :
  match GetIndexes stale (holding "blog" sound) with
  | Done (ix', dbs, e) _ => Some (inventoryNames dbs, inventoryNames (Databases ix'), e)
  | Crash _ => None
  end
  = Some ([("shop", ["customers"; "orders"])],
          [("shop", ["customers"; "orders"])],
          Some "not authorized on blog").
Proof. vm_compute. reflexivity. Qed.

Example thinning_of_ramps :
  map (fun n => returnedPoints (ramp n)) [500; 501; 999; 1000; 1499; 1500]%nat
  = [Some 500; Some 501; Some 999; Some 500; Some 750; Some 500]%nat.
Proof. vm_compute. reflexivity. Qed.

Lemma returned_indexes_are_the_listing_witness :
  Forall keyNonEmpty cursorTorn
  /\ exists F out,
       GetIndexesFromCollection false (cluster noStats (inr cursorTorn)) orders
       = Return (F, None) out
       /\ Permutation (map specOf F) (decoded cursorTorn)
       /\ List.length F = List.length (decoded cursorTorn)
       /\ forall err, In (inl err) cursorTorn -> In (LogPrintln [err]) out.
Proof.
  split; [items_keyed|].
  apply (returned_indexes_are_the_listing false (cluster noStats (inr cursorTorn))
           orders cursorTorn).
  - reflexivity.
  - items_keyed.
Defined.

Lemma returned_usage_is_by_name_witness :
  Forall keyNonEmpty cursorA
  /\ exists F out,
       GetIndexesFromCollection false (cluster twoHosts (inr cursorA)) orders
       = Return (F, None) out
       /\ forall D, In D F ->
            Usage D = usageNamed (Name D)
                        (usageOf (cluster twoHosts (inr cursorA)) orders)
            /\ TotalOps D = wrapInt (sumOps (Usage D)).
Proof.
  split; [items_keyed|].
  apply (returned_usage_is_by_name false (cluster twoHosts (inr cursorA))
           orders cursorA).
  - reflexivity.
  - items_keyed.
Defined.

Lemma returned_indexes_are_consistent_witness :
  Forall keyNonEmpty cursorMirror
  /\ exists F out,
       GetIndexesFromCollection false (cluster noStats (inr cursorMirror)) orders
       = Return (F, None) out
       /\ forall D, In D F ->
            Key D <> []
            /\ Fields D = map bson.Key (Key D)
            /\ KeyString D = ("{ " ++ keyBody (Key D) ++ " }")%string
            /\ EffectiveKey D = ReplaceAll (keyBody (Key D)) ": -1" ": 1"
            /\ IsShardKey D
               = FindShardKey (cluster noStats (inr cursorMirror))
                   (mongo.DatabaseName orders ++ "."
                    ++ mongo.CollectionName orders)%string (Key D).
Proof.
  split; [items_keyed|].
  apply (returned_indexes_are_consistent false (cluster noStats (inr cursorMirror))
           orders cursorMirror).
  - reflexivity.
  - items_keyed.
Defined.

Lemma longest_index_is_not_flagged_witness :
  Forall keyNonEmpty cursorC
  /\ exists F out,
       GetIndexesFromCollection false (cluster noStats (inr cursorC)) orders
       = Return (F, None) out
       /\ forall i D,
            nth_error F i = Some D ->
            (forall j O, j <> i -> nth_error F j = Some O ->
                         nth_error (Fields O) 0 = nth_error (Fields D) 0 ->
                         (List.length (Fields O) < List.length (Fields D))%nat) ->
            IsDupped D = false.
Proof.
  split; [items_keyed|].
  apply (longest_index_is_not_flagged false (cluster noStats (inr cursorC))
           orders cursorC).
  - reflexivity.
  - items_keyed.
Defined.

Lemma result_does_not_depend_on_the_sort_witness :
  Forall keyNonEmpty cursorC
  /\ NoDup (map (fun d => ReplaceAll (keyBody (specKey d)) ": -1" ": 1")
              (decoded cursorC))
  /\ @GetIndexesFromCollection KeyValue _ InsertionGoSort false
       (cluster noStats (inr cursorC)) orders
     = @GetIndexesFromCollection KeyValue _ ReversedGoSort false
         (cluster noStats (inr cursorC)) orders.
Proof.
  assert (Hnd : NoDup (map (fun d => ReplaceAll (keyBody (specKey d)) ": -1" ": 1")
                         (decoded cursorC))).
  { vm_compute. repeat (constructor; [simpl; intuition discriminate|]). constructor. }
  split; [items_keyed|]. split; [exact Hnd|].
  apply (result_does_not_depend_on_the_sort InsertionGoSort ReversedGoSort false
           (cluster noStats (inr cursorC)) orders cursorC).
  - reflexivity.
  - items_keyed.
  - exact Hnd.
Defined.

Lemma checkIfDupped_decides_covering_witness :
  nonEmptyFields (rendering "a_1_c_1" [("a", 1%Z); ("c", 1%Z)])
  /\ Forall nonEmptyFields
       [rendering "a_1_c_1" [("a", 1%Z); ("c", 1%Z)];
        rendering "a_1_b_1_c_1" [("a", 1%Z); ("b", 1%Z); ("c", 1%Z)]]
  /\ exists b,
       checkIfDupped (rendering "a_1_c_1" [("a", 1%Z); ("c", 1%Z)])
         [rendering "a_1_c_1" [("a", 1%Z); ("c", 1%Z)];
          rendering "a_1_b_1_c_1" [("a", 1%Z); ("b", 1%Z); ("c", 1%Z)]]
       = Return b []
       /\ (b = true <->
           exists o,
             In o [rendering "a_1_c_1" [("a", 1%Z); ("c", 1%Z)];
                   rendering "a_1_b_1_c_1" [("a", 1%Z); ("b", 1%Z); ("c", 1%Z)]]
             /\ IsDupped o = false
             /\ covers (rendering "a_1_c_1" [("a", 1%Z); ("c", 1%Z)]) o)
       /\ (forall lst',
             Permutation
               [rendering "a_1_c_1" [("a", 1%Z); ("c", 1%Z)];
                rendering "a_1_b_1_c_1" [("a", 1%Z); ("b", 1%Z); ("c", 1%Z)]] lst' ->
             checkIfDupped (rendering "a_1_c_1" [("a", 1%Z); ("c", 1%Z)]) lst'
             = Return b [])
       /\ (forall o, nonEmptyFields o ->
             KeyString o = KeyString (rendering "a_1_c_1" [("a", 1%Z); ("c", 1%Z)]) ->
             checkIfDupped (rendering "a_1_c_1" [("a", 1%Z); ("c", 1%Z)])
               (o :: [rendering "a_1_c_1" [("a", 1%Z); ("c", 1%Z)];
                      rendering "a_1_b_1_c_1" [("a", 1%Z); ("b", 1%Z); ("c", 1%Z)]])
             = Return b []).
Proof.
  assert (H1 : nonEmptyFields (rendering "a_1_c_1" [("a", 1%Z); ("c", 1%Z)]))
    by (unfold nonEmptyFields; simpl; discriminate).
  assert (H2 : Forall nonEmptyFields
                 [rendering "a_1_c_1" [("a", 1%Z); ("c", 1%Z)];
                  rendering "a_1_b_1_c_1" [("a", 1%Z); ("b", 1%Z); ("c", 1%Z)]])
    by (repeat (constructor; [unfold nonEmptyFields; simpl; discriminate|]);
        constructor).
  split; [exact H1|]. split; [exact H2|].
  exact (checkIfDupped_decides_covering _ _ H1 H2).
Defined.

Lemma checkIfDupped_without_fields_witness :
  Fields (decodeIndex (spec "none" [])) = []
  /\ checkIfDupped (decodeIndex (spec "none" []))
       [rendering "a_1" [("a", 1%Z)]]
     = if forallb (IsDupped (V := KeyValue)) [rendering "a_1" [("a", 1%Z)]]
       then Return false [] else Panic IndexOutOfRange.
Proof.
  split; [reflexivity|].
  apply (checkIfDupped_without_fields (decodeIndex (spec "none" []))
           [rendering "a_1" [("a", 1%Z)]]).
  reflexivity.
Defined.

Lemma GetIndexesFromDB_returns_the_regular_collections_witness :
  ListCollections (holding "blog" sound) "shop" = inr shopCollections
  /\ (forall v, In v (collectionNamesOf shopCollections) ->
        listable (Mongo (holding "blog" sound)) "shop" v)
  /\ exists cs out,
       GetIndexesFromDB emptyStats (holding "blog" sound) "shop" = Done (cs, None) out
       /\ Permutation (map (Collection.Name KeyValue) cs)
            (collectionNamesOf shopCollections)
       /\ (forall i a b,
             nth_error (map (Collection.Name KeyValue) cs) i = Some a ->
             nth_error (map (Collection.Name KeyValue) cs) (S i) = Some b ->
             String.leb a b = true)
       /\ (forall c, In c cs ->
             Collection.NS KeyValue c
             = ("shop" ++ "." ++ Collection.Name KeyValue c)%string
             /\ exists out',
                  GetIndexesFromCollection (verbose emptyStats)
                    (Mongo (holding "blog" sound))
                    (mongo.mkCollection "shop" (Collection.Name KeyValue c))
                  = Return (Collection.Indexes KeyValue c, None) out').
Proof.
  assert (H : forall v, In v (collectionNamesOf shopCollections) ->
                listable (Mongo (holding "blog" sound)) "shop" v).
  { intros v _. exists cursorA. split; [reflexivity|items_keyed]. }
  split; [reflexivity|]. split; [exact H|].
  exact (GetIndexesFromDB_returns_the_regular_collections emptyStats
           (holding "blog" sound) "shop" shopCollections eq_refl H).
Defined.

Lemma GetIndexesFromDB_stops_at_the_first_failure_witness :
  ListCollections (holding "blog" ordersDenied) "shop" = inr shopCollections
  /\ sort_Slice less (collectionNamesOf shopCollections)
     = ["customers"] ++ "orders" :: []
  /\ (forall u, In u ["customers"] ->
        listable (Mongo (holding "blog" ordersDenied)) "shop" u)
  /\ ListIndexes (Mongo (holding "blog" ordersDenied)) "shop" "orders"
     = inl "not authorized"
  /\ exists cs out,
       GetIndexesFromDB emptyStats (holding "blog" ordersDenied) "shop"
       = Done (cs, Some "not authorized") out
       /\ map (Collection.Name KeyValue) cs = ["customers"]
       /\ (forall c, In c cs ->
             exists out',
               GetIndexesFromCollection (verbose emptyStats)
                 (Mongo (holding "blog" ordersDenied))
                 (mongo.mkCollection "shop" (Collection.Name KeyValue c))
               = Return (Collection.Indexes KeyValue c, None) out').
Proof.
  assert (H : forall u, In u ["customers"] ->
                listable (Mongo (holding "blog" ordersDenied)) "shop" u).
  { intros u [<-|[]]. exists cursorA. split; [reflexivity|items_keyed]. }
  split; [reflexivity|]. split; [reflexivity|]. split; [exact H|].
  split; [reflexivity|].
  exact (GetIndexesFromDB_stops_at_the_first_failure emptyStats
           (holding "blog" ordersDenied) "shop" shopCollections eq_refl
           ["customers"] "orders" [] "not authorized" eq_refl H eq_refl).
Defined.

Lemma GetIndexesFromDB_panics_on_an_empty_key_witness :
  ListCollections (holding "blog" ordersKeyless) "shop" = inr shopCollections
  /\ sort_Slice less (collectionNamesOf shopCollections)
     = ["customers"] ++ "orders" :: []
  /\ (forall u, In u ["customers"] ->
        listable (Mongo (holding "blog" ordersKeyless)) "shop" u)
  /\ ListIndexes (Mongo (holding "blog" ordersKeyless)) "shop" "orders"
     = inr cursorEmptyKey
  /\ Exists keyEmpty cursorEmptyKey
  /\ GetIndexesFromDB emptyStats (holding "blog" ordersKeyless) "shop"
     = Crash SliceBoundsOutOfRange.
Proof.
  assert (H : forall u, In u ["customers"] ->
                listable (Mongo (holding "blog" ordersKeyless)) "shop" u).
  { intros u [<-|[]]. exists cursorA. split; [reflexivity|items_keyed]. }
  assert (He : Exists keyEmpty cursorEmptyKey).
  { apply Exists_cons_tl, Exists_cons_hd. eexists. split; reflexivity. }
  split; [reflexivity|]. split; [reflexivity|]. split; [exact H|].
  split; [reflexivity|]. split; [exact He|].
  exact (GetIndexesFromDB_panics_on_an_empty_key emptyStats
           (holding "blog" ordersKeyless) "shop" shopCollections
           ["customers"] "orders" [] cursorEmptyKey eq_refl eq_refl H eq_refl He).
Defined.

Lemma GetIndexes_inventories_the_user_databases_witness :
  ListDatabases (holding "none" sound) = inr listed
  /\ (forall n, In n (map specDatabaseName listed) -> skipped n = false ->
        inventoried (holding "none" sound) n)
  /\ exists ix' out,
       GetIndexes stale (holding "none" sound) = Done (ix', Databases ix', None) out
       /\ settings ix' = settings stale
       /\ map (Database.Name KeyValue) (Databases ix')
          = unskipped (map specDatabaseName listed)
       /\ (forall d, In d (Databases ix') ->
             skipped (Database.Name KeyValue d) = false
             /\ exists out',
                  GetIndexesFromDB stale (holding "none" sound)
                    (Database.Name KeyValue d)
                  = Done (Database.Collections KeyValue d, None) out')
       /\ exists out0, out = out0 ++ [Logged (LoggerAdd "GetIndexes ends")].
Proof.
  assert (H : forall n, In n (map specDatabaseName listed) -> skipped n = false ->
                inventoried (holding "none" sound) n).
  { intros n Hn Hs. exists shopCollections. split.
    - simpl in Hn. destruct Hn as [<-|[<-|[<-|[<-|[]]]]]; reflexivity.
    - intros v _. exists cursorA. split; [reflexivity|items_keyed]. }
  split; [reflexivity|]. split; [exact H|].
  exact (GetIndexes_inventories_the_user_databases (holding "none" sound) stale
           listed eq_refl H).
Defined.

Lemma GetIndexes_returns_the_first_error_witness :
  ListDatabases (holding "blog" sound) = inr listed
  /\ map specDatabaseName listed = ["admin"; "shop"; "local"] ++ "blog" :: []
  /\ (forall m, In m ["admin"; "shop"; "local"] -> skipped m = false ->
        inventoried (holding "blog" sound) m)
  /\ skipped "blog" = false
  /\ GetIndexesFromDB stale (holding "blog" sound) "blog"
     = Done ([], Some "not authorized on blog") []
  /\ exists ix' out,
       GetIndexes stale (holding "blog" sound)
       = Done (ix', Databases ix', Some "not authorized on blog") out
       /\ settings ix' = settings stale
       /\ map (Database.Name KeyValue) (Databases ix')
          = unskipped ["admin"; "shop"; "local"]
       /\ (forall d, In d (Databases ix') ->
             exists out',
               GetIndexesFromDB stale (holding "blog" sound) (Database.Name KeyValue d)
               = Done (Database.Collections KeyValue d, None) out').
Proof.
  assert (H : forall m, In m ["admin"; "shop"; "local"] -> skipped m = false ->
                inventoried (holding "blog" sound) m).
  { intros m Hm Hs. exists shopCollections. split.
    - simpl in Hm. destruct Hm as [<-|[<-|[<-|[]]]]; reflexivity.
    - intros v _. exists cursorA. split; [reflexivity|items_keyed]. }
  split; [reflexivity|]. split; [reflexivity|]. split; [exact H|].
  split; [reflexivity|]. split; [reflexivity|].
  exact (proj2 (GetIndexes_returns_the_first_error (holding "blog" sound) stale)
           listed ["admin"; "shop"; "local"] "blog" [] []
           "not authorized on blog" [] eq_refl eq_refl H eq_refl eq_refl).
Defined.

Lemma report_marks_the_flagged_indexes_witness :
  Forall keyNonEmpty cursorA
  /\ exists F out,
       GetIndexesFromCollection false (cluster noStats (inr cursorA)) orders
       = Return (F, None) out
       /\ forall D codes, In D F ->
            (keyText codes true D = ("x " ++ KeyString D)%string <-> IsDupped D = true)
            /\ (IsDupped D = true ->
                keyText codes false D
                = (codeRed codes ++ "x " ++ KeyString D ++ codeDefault codes)%string).
Proof.
  split; [items_keyed|].
  apply (report_marks_the_flagged_indexes false (cluster noStats (inr cursorA))
           orders cursorA).
  - reflexivity.
  - items_keyed.
Defined.

Lemma filterTimeSeriesData_keeps_the_window_witness :
  Forall stamped (charts.DataPoints cpu)
  /\ exists R,
       charts.filterTimeSeriesData (fun x => x) cpu 1500000000%Z 3000000000%Z
       = Return (charts.mkTimeSeriesDoc (charts.Target cpu) R) []
       /\ (forall v, In v R ->
             In v (charts.DataPoints cpu)
             /\ inWindow (fun x => x) 1500000000%Z 3000000000%Z v = true)
       /\ ((List.length (windowOf (fun x => x) 1500000000%Z 3000000000%Z cpu) <= 500)%nat ->
           R = windowOf (fun x => x) 1500000000%Z 3000000000%Z cpu)
       /\ ((500 < List.length (windowOf (fun x => x) 1500000000%Z 3000000000%Z cpu))%nat ->
           forall k,
             nth_error R k
             = nth_error (windowOf (fun x => x) 1500000000%Z 3000000000%Z cpu)
                 (k * (List.length (windowOf (fun x => x) 1500000000%Z 3000000000%Z cpu)
                       / 500))).
Proof.
  assert (H : Forall stamped (charts.DataPoints cpu))
    by (repeat (constructor; [unfold stamped; simpl; lia|]); constructor).
  split; [exact H|].
  exact (filterTimeSeriesData_keeps_the_window (fun x => x) cpu
           1500000000%Z 3000000000%Z H).
Defined.

Lemma filterTimeSeriesData_returns_under_1000_points_witness :
  Forall stamped (charts.DataPoints cpu)
  /\ exists R,
       charts.filterTimeSeriesData (fun x => x) cpu 1500000000%Z 3000000000%Z
       = Return (charts.mkTimeSeriesDoc (charts.Target cpu) R) []
       /\ (List.length R < 1000)%nat
       /\ ((List.length (windowOf (fun x => x) 1500000000%Z 3000000000%Z cpu) < 1000)%nat ->
           R = windowOf (fun x => x) 1500000000%Z 3000000000%Z cpu).
Proof.
  assert (H : Forall stamped (charts.DataPoints cpu))
    by (repeat (constructor; [unfold stamped; simpl; lia|]); constructor).
  split; [exact H|].
  exact (filterTimeSeriesData_returns_under_1000_points (fun x => x) cpu
           1500000000%Z 3000000000%Z H).
Defined.

Lemma filterTimeSeriesData_needs_a_time_stamp_witness :
  Exists (fun v => ~ stamped v) (charts.DataPoints torn)
  /\ charts.filterTimeSeriesData (fun x => x) torn 0%Z 3000000000%Z
     = Panic IndexOutOfRange.
Proof.
  assert (H : Exists (fun v : list Z => ~ stamped v) (charts.DataPoints torn)).
  { apply Exists_cons_tl, Exists_cons_hd. unfold stamped. simpl. lia. }
  split; [exact H|].
  exact (filterTimeSeriesData_needs_a_time_stamp (fun x => x) torn 0%Z 3000000000%Z H).
Defined.

End Cases.
